(** * Firmata gateway: the per-device session ([Board]), its LED-controller
    variant and the connection service, embedded from the TypeScript sources.

    Sources embedded here:
    - [src/domain/board.ts]            (module [Board], the current revision)
    - [unnamed/part_000]               (module [Board0], the earlier revision of
                                        the same class: 2-argument constructor,
                                        [currentJob], 3 s heartbeat)
    - [unnamed/part_001]               (module [LedController])
    - [src/service/board-service.ts]   (module [BoardService])

    JavaScript values are modelled as the code uses them: numbers produced by
    [parseInt] are [NaN] or an integer, array indices are naturals, timer
    handles are opaque identities compared with [===]. Time is the virtual
    clock of the Node timer queue, in milliseconds.

    The file has two parts: the embedding (one module per source file, each
    ending with the vocabulary its statements use, then a device for the
    worked examples), and the properties, numbered as the claims they settle
    (C1 to C10, and X1 to X19 for properties proved besides). *)

From Stdlib Require Import ZArith String Ascii List Bool Lia.
From stdpp Require Import base option list sorting gmap strings.

Local Open Scope Z_scope.

(** ** JavaScript primitives used by the sources *)
Module JS.

(** A JavaScript slot that may hold [undefined], [null] or a value. *)
Inductive maybe (A : Type) : Type :=
| undefined
| null
| defined (a : A).
Arguments undefined {A}.
Arguments null {A}.
Arguments defined {A} a.

(** Truthiness of a slot holding an object. *)
Definition truthy {A} (x : maybe A) : bool :=
  match x with defined _ => true | _ => false end.

(** A JavaScript number as [parseInt] and the pin tables produce it. *)
Inductive number : Type :=
| NaN
| Num (z : Z).

#[global] Instance number_eq_dec : EqDecision number.
Proof. solve_decision. Defined.

#[global] Instance maybe_eq_dec {A} `{EqDecision A} : EqDecision (maybe A).
Proof. solve_decision. Defined.

(** [a === b] on numbers: [NaN] is not equal to itself. *)
Definition strict_eq (a b : number) : bool :=
  match a, b with
  | Num x, Num y => x =? y
  | _, _ => false
  end.

(** [a === b] on slots holding numbers. *)
Definition strict_eq_slot (a b : maybe number) : bool :=
  match a, b with
  | undefined, undefined => true
  | null, null => true
  | defined x, defined y => strict_eq x y
  | _, _ => false
  end.

(** [Array.prototype.indexOf]: first index holding [x], [-1] when absent. *)
Fixpoint indexOf_from {A} `{EqDecision A} (l : list A) (x : A) (i : Z) : Z :=
  match l with
  | [] => -1
  | y :: l' => if decide (y = x) then i else indexOf_from l' x (i + 1)
  end.

Definition indexOf {A} `{EqDecision A} (l : list A) (x : A) : Z :=
  indexOf_from l x 0.

(** [indexOf] when the array holds objects only and the searched value may be
    [undefined] or [null]: those are never found. *)
Definition indexOf_slot {A} `{EqDecision A} (l : list A) (x : maybe A) : Z :=
  match x with
  | defined a => indexOf l a
  | undefined | null => -1
  end.

(** [Array.prototype.splice(start, deleteCount)] without inserted items: a
    negative [start] counts from the end of the array. *)
Definition splice {A} (l : list A) (start deleteCount : Z) : list A :=
  let len := Z.of_nat (length l) in
  let actualStart :=
    if start <? 0 then Z.max (len + start) 0 else Z.min start len in
  let actualDeleteCount := Z.min (Z.max deleteCount 0) (len - actualStart) in
  take (Z.to_nat actualStart) l
    ++ drop (Z.to_nat (actualStart + actualDeleteCount)) l.

(** [array[i]] for a numeric index: [undefined] (here [None]) outside the
    array and for [NaN]. *)
Definition at_index {A} (l : list A) (i : maybe number) : option A :=
  match i with
  | defined (Num z) => if z <? 0 then None else l !! Z.to_nat z
  | _ => None
  end.

Definition is_ws (c : ascii) : bool :=
  let n := nat_of_ascii c in
  ((n =? 32) || (n =? 9) || (n =? 10) || (n =? 11) || (n =? 12) || (n =? 13))%nat.

Definition digit_of (c : ascii) : option Z :=
  let n := nat_of_ascii c in
  if ((48 <=? n) && (n <=? 57))%nat then Some (Z.of_nat n - 48) else None.

Fixpoint skip_ws (s : string) : string :=
  match s with
  | String c s' => if is_ws c then skip_ws s' else s
  | EmptyString => s
  end.

(** The longest prefix of decimal digits, as a number; [None] without one. *)
Fixpoint digits (s : string) (acc : option Z) : option Z :=
  match s with
  | String c s' =>
      match digit_of c with
      | Some d => digits s' (Some (10 * default 0 acc + d))
      | None => acc
      end
  | EmptyString => acc
  end.

(** [parseInt(s, 10)]: leading white space, an optional sign, then the
    longest run of digits; [NaN] when there is none. A missing argument is
    [undefined], whose string form has no digits. Values are kept as
    mathematical integers (no rounding to a double). *)
Definition parseInt (arg : maybe string) : number :=
  match arg with
  | defined s =>
      let s := skip_ws s in
      let '(sign, s) :=
        match s with
        | String "-"%char r => (-1, r)
        | String "+"%char r => (1, r)
        | _ => (1, s)
        end in
      match digits s None with
      | Some n => Num (sign * n)
      | None => NaN
      end
  | undefined | null => NaN
  end.

(** The i-th actual argument of a call made with the spread of [args]. *)
Definition arg (args : list string) (i : nat) : maybe string :=
  match args !! i with
  | Some s => defined s
  | None => undefined
  end.

End JS.
Export JS.

(** ** Node timers: the queue behind [setInterval], [setTimeout] and their
    [clear] counterparts *)
Module Node.

(** A [NodeJS.Timeout] object, identified by allocation order. *)
Definition Timeout : Type := nat.

Section Timers.
(** The code to run when a timer expires. *)
Context {callback : Type}.

Record Timer : Type := mkTimer {
  handle : Timeout;
  due : Z;                  (* virtual time of the next expiry, in ms *)
  repeat : option Z;        (* the period of an interval *)
  action : callback;
}.

Record Loop : Type := mkLoop {
  now : Z;
  fresh : Timeout;
  pending : list Timer;
}.

Definition start : Loop := mkLoop 0 0%nat [].

Definition setInterval (cb : callback) (ms : Z) (l : Loop) : Timeout * Loop :=
  (fresh l,
   mkLoop (now l) (S (fresh l))
          (pending l ++ [mkTimer (fresh l) (now l + ms) (Some ms) cb])).

Definition setTimeout (cb : callback) (ms : Z) (l : Loop) : Timeout * Loop :=
  (fresh l,
   mkLoop (now l) (S (fresh l))
          (pending l ++ [mkTimer (fresh l) (now l + ms) None cb])).

(** The global [clearInterval] / [clearTimeout]: cancels the timer with
    that identity, and does nothing for [undefined], [null] or a timer that
    is no longer pending. *)
Definition clear (t : maybe Timeout) (l : Loop) : Loop :=
  match t with
  | defined h =>
      mkLoop (now l) (fresh l)
             (filter (λ x, handle x ≠ h) (pending l))
  | undefined | null => l
  end.

Definition is_pending (h : Timeout) (l : Loop) : bool :=
  existsb (λ x, Nat.eqb (handle x) h) (pending l).

(** The pending timer that expires first (the earliest registered one
    among equals). *)
Fixpoint earliest (ts : list Timer) : option Timer :=
  match ts with
  | [] => None
  | t :: ts' =>
      match earliest ts' with
      | Some u => if due u <? due t then Some u else Some t
      | None => Some t
      end
  end.

(** Take the next expiry out of the queue: the clock moves to its due
    time, a timeout leaves the queue and an interval is re-armed one period
    later. *)
Definition expire (t : Timer) (l : Loop) : Loop :=
  let rest := filter (λ x, handle x ≠ handle t) (pending l) in
  mkLoop (Z.max (now l) (due t)) (fresh l)
         match repeat t with
         | Some p => rest ++ [mkTimer (handle t) (due t + p) (Some p) (action t)]
         | None => rest
         end.
End Timers.
Arguments Timer : clear implicits.
Arguments Loop : clear implicits.

End Node.


(** ** Methods as state transformers that can throw *)
Module Eff.

Inductive Result (E A : Type) : Type :=
| Ok (a : A)
| Throw (e : E).
Arguments Ok {E A} a.
Arguments Throw {E A} e.

(** A method body: it runs on a state [W], may change it, and either returns
    or throws; what it changed before throwing stays changed. *)
Definition M (W E A : Type) : Type := W → Result E A * W.

Section Ops.
Context {W E : Type}.

Definition ret {A} (a : A) : M W E A := λ w, (Ok a, w).
Definition throw {A} (e : E) : M W E A := λ w, (Throw e, w).
Definition bind {A B} (m : M W E A) (k : A → M W E B) : M W E B :=
  λ w, match m w with
       | (Ok a, w') => k a w'
       | (Throw e, w') => (Throw e, w')
       end.

(** [array.forEach((x, index) => …)] *)
Fixpoint forEach_from {A} (l : list A) (i : nat) (f : A → nat → M W E unit)
  : M W E unit :=
  match l with
  | [] => ret tt
  | x :: l' => bind (f x i) (λ _, forEach_from l' (S i) f)
  end.
Definition forEach {A} (l : list A) (f : A → nat → M W E unit) : M W E unit :=
  forEach_from l 0 f.
End Ops.

Declare Scope eff_scope.
Delimit Scope eff_scope with eff.
Notation "x <- m ;; k" := (bind m (λ x, k))
  (at level 100, m at next level, right associativity) : eff_scope.
Notation "m ;; k" := (bind m (λ _, k))
  (at level 100, right associativity) : eff_scope.

End Eff.

(** ** The firmata library, as far as the sources call it

    The library is an external collaborator: its board object is modelled by
    the fields the sources read ([pins], [analogPins]), its event-emitter
    registry, and the calls made on it, which are recorded in order. *)
Module Firmata.

(** [FirmataBoard.PIN_MODE.ANALOG] and [FirmataBoard.PIN_STATE]. *)
Definition PIN_MODE_ANALOG : Z := 2.
Definition HIGH : number := Num 1.
Definition LOW : number := Num 0.

(** [FirmataBoard.SERIAL_PORT_IDs]. *)
Inductive SERIAL_PORT_ID : Type :=
| HW_SERIAL0 | HW_SERIAL1 | HW_SERIAL2 | HW_SERIAL3
| SW_SERIAL0 | SW_SERIAL1 | SW_SERIAL2 | SW_SERIAL3.

(** [FirmataBoard.Pins]: one entry of the pin table. *)
Record Pins : Type := mkPins {
  supportedModes : list Z;
  mode : maybe Z;
  value : maybe number;
  report : Z;
  analogChannel : Z;
}.

(** Event names. The sources build the per-pin names with template
    literals ([`digital-read-${index}`]); the index is kept as an argument. *)
Inductive Event : Type :=
| digital_read (index : nat)
| analog_read (index : nat)
| queryfirmware
| ready
| disconnect
| close
| update.

#[global] Instance Event_eq_dec : EqDecision Event.
Proof. solve_decision. Defined.

Section Emitter.
(** The functions the client registers. *)
Context {L : Type} `{EqDecision L}.

Record Registration : Type := mkReg {
  event : Event;
  once : bool;
  listener : L;
}.

Record FirmataBoard : Type := mkFirmataBoard {
  pins : list Pins;
  analogPins : list nat;
  listeners : list Registration;
}.

Definition addListener (e : Event) (f : L) (b : FirmataBoard) : FirmataBoard :=
  mkFirmataBoard (pins b) (analogPins b) (listeners b ++ [mkReg e false f]).

Definition addOnce (e : Event) (f : L) (b : FirmataBoard) : FirmataBoard :=
  mkFirmataBoard (pins b) (analogPins b) (listeners b ++ [mkReg e true f]).

(** Node's [removeListener] removes the most recently added registration
    of that function for that event, if there is one. *)
Fixpoint remove_first (e : Event) (f : L) (rs : list Registration)
  : list Registration :=
  match rs with
  | [] => []
  | r :: rs' =>
      if decide (event r = e ∧ listener r = f) then rs'
      else r :: remove_first e f rs'
  end.

Definition removeListener (e : Event) (f : L) (b : FirmataBoard) : FirmataBoard :=
  mkFirmataBoard (pins b) (analogPins b)
                 (rev (remove_first e f (rev (listeners b)))).

Definition removeAllListeners (b : FirmataBoard) : FirmataBoard :=
  mkFirmataBoard (pins b) (analogPins b) [].

(** What [emit] calls for an event, in registration order; the [once]
    registrations among them leave the registry. *)
Definition listening (e : Event) (b : FirmataBoard) : list L :=
  listener <$> filter (λ r, event r = e) (listeners b).

Definition consume_once (e : Event) (b : FirmataBoard) : FirmataBoard :=
  mkFirmataBoard (pins b) (analogPins b)
                 (filter (λ r, ¬ (event r = e ∧ once r = true)) (listeners b)).

(** [pins[pin].value = value], the bookkeeping of [digitalWrite] and
    [analogWrite]. *)
Definition store_value (pin : nat) (v : maybe number) (b : FirmataBoard)
  : FirmataBoard :=
  mkFirmataBoard
    (alter (λ p, mkPins (supportedModes p) (mode p) v (report p)
                        (analogChannel p)) pin (pins b))
    (analogPins b) (listeners b).

(** [pins[pin].report = 1], the bookkeeping of [reportDigitalPin(pin, 1)]
    and, for the pin of a channel, of [reportAnalogPin(channel, 1)]. *)
Definition report_on (pin : nat) (b : FirmataBoard) : FirmataBoard :=
  mkFirmataBoard
    (alter (λ p, mkPins (supportedModes p) (mode p) (value p) 1
                        (analogChannel p)) pin (pins b))
    (analogPins b) (listeners b).

Definition report_channel (channel : nat) (b : FirmataBoard) : FirmataBoard :=
  match analogPins b !! channel with
  | Some pin => report_on pin b
  | None => b
  end.
End Emitter.
Arguments Registration : clear implicits.
Arguments FirmataBoard : clear implicits.

End Firmata.
Export Firmata.

(** ** [src/domain/board.ts]: the device session *)
Module Board.
Import Node Eff.
Local Open Scope eff_scope.

(** The functions of the instance that are registered as listeners. *)
Inductive Listener : Type :=
| emitUpdate_fn
| resetHeartbeatTimeout_fn.

#[global] Instance Listener_eq_dec : EqDecision Listener.
Proof. solve_decision. Defined.

(** The functions handed to [setInterval] and [setTimeout]. A timer passes
    its own identity to its callback when it expires; the closure created in
    [startHeartbeat] for the deadline captures [heartbeat]. *)
Inductive Callback : Type :=
| heartbeat_tick
| heartbeat_expired (heartbeat : Timeout)
| toggleLED_bound.

(** The handlers the action table can name. *)
Inductive Method : Type :=
| BLINKON_handler
| BLINKOFF_handler
| TOGGLELED_handler
| SETPINVALUE_handler.

Inductive Exception : Type :=
| CommandUnavailable (action : string) (id : maybe string)
| CommandMalformed (message : string)
| TypeError.

Record IPinout : Type := mkPinout { LED : Z; RX : Z; TX : Z }.

(** A pin of the snapshot: [{ pinNumber, analog }] with the properties of
    the pin copied over by [Object.assign]. *)
Record IPin : Type := mkIPin {
  pinNumber : nat;
  analog : bool;
  pin : Pins;
}.

Record IBoard : Type := mkIBoard {
  d_id : maybe string;
  d_name : maybe string;
  d_vendorId : maybe string;
  d_productId : maybe string;
  d_type : maybe string;
  d_currentProgram : string;
  d_online : bool;
  d_commands : list string;
  d_pins : option (list IPin);      (* absent without a firmataBoard *)
}.

Definition IDLE : string := "idle".

Record Board : Type := mkBoard {
  id : maybe string;
  name : maybe string;
  type : maybe string;
  online : bool;
  vendorId : maybe string;
  productId : maybe string;
  currentProgram : string;
  availableActions : list (string * Method);
  firmataBoard : option (FirmataBoard Listener);
  intervals : list Timeout;
  timeouts : list Timeout;
  pinout : IPinout;
  blinkInterval : maybe Timeout;
  heartbeatTimeout : maybe Timeout;
  previousAnalogValue : gmap nat number;
}.

Definition heartbeatInterval : Z := 5000.

(** The delay of the deadline armed by [startHeartbeat] (a literal there). *)
Definition heartbeat_deadline : Z := 3000.

Inductive Message : Type :=
| Executing_method (action : string)
| LED_blink_is_already_enabled
| Heartbeat_timeout
| Tried_to_write (value pin : maybe number).

(** What the session does to the outside, in order: calls on the firmata
    board and on the logger. *)
Inductive Output : Type :=
| log_debug (m : Message)
| log_warn (m : Message)
| setSamplingInterval (ms : Z)
| analogRead (index : nat)
| digitalRead (index : nat)
| analogWrite (pin value : maybe number)
| digitalWrite (pin value : maybe number)
| queryFirmware
| emit (e : Event) (payload : option IBoard).

(** The instance, the timer queue it shares with the process, and the
    outputs so far, each stamped with the time of the queue's clock. *)
Record World : Type := mkWorld {
  this : Board;
  loop : Loop Callback;
  out : list (Z * Output);
}.

(** *** Field updates *)
Definition set_online (v : bool) (b : Board) : Board :=
  mkBoard (id b) (name b) (type b) v (vendorId b) (productId b)
          (currentProgram b) (availableActions b) (firmataBoard b)
          (intervals b) (timeouts b) (pinout b) (blinkInterval b)
          (heartbeatTimeout b) (previousAnalogValue b).
Definition set_currentProgram (v : string) (b : Board) : Board :=
  mkBoard (id b) (name b) (type b) (online b) (vendorId b) (productId b)
          v (availableActions b) (firmataBoard b)
          (intervals b) (timeouts b) (pinout b) (blinkInterval b)
          (heartbeatTimeout b) (previousAnalogValue b).
Definition set_firmataBoard (v : option (FirmataBoard Listener)) (b : Board) : Board :=
  mkBoard (id b) (name b) (type b) (online b) (vendorId b) (productId b)
          (currentProgram b) (availableActions b) v
          (intervals b) (timeouts b) (pinout b) (blinkInterval b)
          (heartbeatTimeout b) (previousAnalogValue b).
Definition set_intervals (v : list Timeout) (b : Board) : Board :=
  mkBoard (id b) (name b) (type b) (online b) (vendorId b) (productId b)
          (currentProgram b) (availableActions b) (firmataBoard b)
          v (timeouts b) (pinout b) (blinkInterval b)
          (heartbeatTimeout b) (previousAnalogValue b).
Definition set_timeouts (v : list Timeout) (b : Board) : Board :=
  mkBoard (id b) (name b) (type b) (online b) (vendorId b) (productId b)
          (currentProgram b) (availableActions b) (firmataBoard b)
          (intervals b) v (pinout b) (blinkInterval b)
          (heartbeatTimeout b) (previousAnalogValue b).
Definition set_blinkInterval (v : maybe Timeout) (b : Board) : Board :=
  mkBoard (id b) (name b) (type b) (online b) (vendorId b) (productId b)
          (currentProgram b) (availableActions b) (firmataBoard b)
          (intervals b) (timeouts b) (pinout b) v
          (heartbeatTimeout b) (previousAnalogValue b).
Definition set_heartbeatTimeout (v : maybe Timeout) (b : Board) : Board :=
  mkBoard (id b) (name b) (type b) (online b) (vendorId b) (productId b)
          (currentProgram b) (availableActions b) (firmataBoard b)
          (intervals b) (timeouts b) (pinout b) (blinkInterval b)
          v (previousAnalogValue b).
Definition set_previousAnalogValue (v : gmap nat number) (b : Board) : Board :=
  mkBoard (id b) (name b) (type b) (online b) (vendorId b) (productId b)
          (currentProgram b) (availableActions b) (firmataBoard b)
          (intervals b) (timeouts b) (pinout b) (blinkInterval b)
          (heartbeatTimeout b) v.

(** *** Methods run in the state monad over [World], throwing [Exception] *)
Definition M (A : Type) : Type := Eff.M World Exception A.
Definition Result (A : Type) : Type := Eff.Result Exception A.

Definition get_this : M Board := λ w, (Ok (this w), w).
Definition update_this (f : Board → Board) : M unit :=
  λ w, (Ok tt, mkWorld (f (this w)) (loop w) (out w)).
Definition tell (o : Output) : M unit :=
  λ w, (Ok tt, mkWorld (this w) (loop w) (out w ++ [(now (loop w), o)])).

(** [this.firmataBoard.…]: a [TypeError] when the session has no board. *)
Definition fb : M (FirmataBoard Listener) :=
  b <- get_this ;;
  match firmataBoard b with
  | Some f => ret f
  | None => throw TypeError
  end.
Definition update_fb (g : FirmataBoard Listener → FirmataBoard Listener) : M unit :=
  f <- fb ;; update_this (set_firmataBoard (Some (g f))).

(** The global timer functions, acting on the Node queue. *)
Definition global_setInterval (cb : Callback) (ms : Z) : M Timeout :=
  λ w, let '(h, l) := Node.setInterval cb ms (loop w) in
       (Ok h, mkWorld (this w) l (out w)).
Definition global_setTimeout (cb : Callback) (ms : Z) : M Timeout :=
  λ w, let '(h, l) := Node.setTimeout cb ms (loop w) in
       (Ok h, mkWorld (this w) l (out w)).
Definition global_clear (t : maybe Timeout) : M unit :=
  λ w, (Ok tt, mkWorld (this w) (Node.clear t (loop w)) (out w)).

Definition index (i : nat) : maybe number := defined (Num (Z.of_nat i)).

Definition getAvailableActions (b : Board) : list string :=
  (availableActions b).*1.

Definition setIdle : M unit := update_this (set_currentProgram IDLE).

Definition toDiscrete (board : maybe Board) : Result IBoard :=
  match board with
  | defined board =>
      Ok (mkIBoard (id board) (name board) (vendorId board) (productId board)
            (type board) (currentProgram board) (online board)
            (getAvailableActions board)
            (match firmataBoard board with
             | Some f =>
                 Some (filter (λ p : IPin, (0 < length (supportedModes (pin p)))%nat)
                         (imap (λ index p,
                                  mkIPin index
                                    (negb (analogChannel p =? 127)) p)
                               (pins f)))
             | None => None
             end))
  | undefined | null => Throw TypeError
  end.

Definition isAvailableAction (action : string) : M bool :=
  b <- get_this ;;
  ret (0 <=? indexOf (getAvailableActions b) action).

Definition isDigitalPin (pinIndex : maybe number) : M bool :=
  f <- fb ;;
  match at_index (pins f) pinIndex with
  | Some pin =>
      ret ((analogChannel pin =? 127)
           && (0 <? Z.of_nat (length (supportedModes pin)))
           && negb (bool_decide (PIN_MODE_ANALOG ∈ supportedModes pin)))
  | None => throw TypeError
  end.

Definition isAnalogPin (pinIndex : maybe number) : M bool :=
  f <- fb ;;
  match at_index (pins f) pinIndex with
  | Some pin => ret (bool_decide (PIN_MODE_ANALOG ∈ supportedModes pin))
  | None => throw TypeError
  end.

Definition emitUpdate : M unit :=
  _ <- fb ;;
  b <- get_this ;;
  match toDiscrete (defined b) with
  | Ok d => tell (emit update (Some d))
  | Throw e => throw e
  end.

Definition clearInterval (interval : maybe Timeout) : M unit :=
  update_this (λ b, set_intervals
                      (splice (intervals b) (indexOf_slot (intervals b) interval) 1) b) ;;
  global_clear interval.

Definition clearTimeout (timeout : maybe Timeout) : M unit :=
  update_this (λ b, set_timeouts
                      (splice (timeouts b) (indexOf_slot (timeouts b) timeout) 1) b) ;;
  global_clear timeout.

(** The pin index a checked [pin] argument denotes in the pin table. *)
Definition pin_slot (pin : maybe number) : nat :=
  match pin with
  | defined (Num z) => Z.to_nat z
  | _ => 0%nat
  end.

(** [firmataBoard.analogWrite] and [firmataBoard.digitalWrite]: the call, and
    the value firmata stores in its pin table. *)
Definition fb_analogWrite (pin value : maybe number) : M unit :=
  tell (analogWrite pin value) ;;
  update_fb (store_value (pin_slot pin) value).

Definition fb_digitalWrite (pin value : maybe number) : M unit :=
  tell (digitalWrite pin value) ;;
  update_fb (store_value (pin_slot pin) value).

(** [firmataBoard.analogRead] and [firmataBoard.digitalRead]: reporting is
    switched on, which firmata notes in the [report] field of the pin (for an
    analog read the pin [analogPins[index]] of the channel), and the callback
    is registered for the event of the pin. The sessions call these with the
    indices of [analogPins] and of [pins]. Where the pin table has no entry
    for the pin of a channel, firmata fails with a TypeError on that field;
    here the table is then left as it is, and what is stated about the pin
    table after the constructor asks for the pins of the analog channels to
    be in the table, as firmata builds them. *)
Definition fb_analogRead (index : nat) (callback : Listener) : M unit :=
  tell (analogRead index) ;;
  update_fb (report_channel index) ;;
  update_fb (addListener (analog_read index) callback).

Definition fb_digitalRead (index : nat) (callback : Listener) : M unit :=
  tell (digitalRead index) ;;
  update_fb (report_on index) ;;
  update_fb (addListener (digital_read index) callback).

Definition setPinValue (pin value : maybe number) : M unit :=
  (if decide (pin = null)
   then throw (CommandMalformed "Method setPinValue requires 'pin' argument.")
   else ret tt) ;;
  (if decide (value = null)
   then throw (CommandMalformed "Method setPinValue requires 'value' argument.")
   else ret tt) ;;
  a <- isAnalogPin pin ;;
  (if a then fb_analogWrite pin value
   else
     d <- isDigitalPin pin ;;
     if d then
       if negb (strict_eq_slot value (defined HIGH))
          && negb (strict_eq_slot value (defined LOW))
       then tell (log_warn (Tried_to_write value pin))
       else fb_digitalWrite pin value
     else ret tt) ;;
  emitUpdate.

Definition toggleLED : M unit :=
  b <- get_this ;;
  let led := defined (Num (LED (pinout b))) in
  f <- fb ;;
  match at_index (pins f) led with
  | Some p =>
      setPinValue led
        (defined (if strict_eq_slot (value p) (defined HIGH) then LOW else HIGH))
  | None => throw TypeError
  end.

Definition enableBlinkLed (enable : bool) : M unit :=
  if enable then
    b <- get_this ;;
    if truthy (blinkInterval b) then
      tell (log_warn LED_blink_is_already_enabled)
    else
      h <- global_setInterval toggleLED_bound 500 ;;
      update_this (set_blinkInterval (defined h)) ;;
      update_this (λ b, set_intervals (intervals b ++ [h]) b)
  else
    setIdle ;;
    b <- get_this ;;
    clearInterval (blinkInterval b) ;;
    update_this (set_blinkInterval null).

Definition resetHeartbeatTimeout : M unit :=
  b <- get_this ;;
  clearTimeout (heartbeatTimeout b) ;;
  update_this (set_heartbeatTimeout null).

(** [firmataBoard.queryFirmware(callback)]: the callback is registered
    once for the reply, then the request is written. *)
Definition fb_queryFirmware (callback : Listener) : M unit :=
  update_fb (addOnce queryfirmware callback) ;;
  tell queryFirmware.

Definition startHeartbeat : M unit :=
  heartbeat <- global_setInterval heartbeat_tick heartbeatInterval ;;
  update_this (λ b, set_intervals (intervals b ++ [heartbeat]) b).

(** The bodies of the timer callbacks; [self] is the expiring timer. *)
Definition run_callback (self : Timeout) (cb : Callback) : M unit :=
  match cb with
  | heartbeat_tick =>
      t <- global_setTimeout (heartbeat_expired self) heartbeat_deadline ;;
      update_this (set_heartbeatTimeout (defined t)) ;;
      update_this (λ b, set_timeouts (timeouts b ++ [t]) b) ;;
      fb_queryFirmware resetHeartbeatTimeout_fn
  | heartbeat_expired heartbeat =>
      tell (log_debug Heartbeat_timeout) ;;
      _ <- fb ;;
      tell (emit disconnect None) ;;
      clearInterval (defined heartbeat) ;;
      resetHeartbeatTimeout
  | toggleLED_bound => toggleLED
  end.

Definition run_listener (f : Listener) : M unit :=
  match f with
  | emitUpdate_fn => emitUpdate
  | resetHeartbeatTimeout_fn => resetHeartbeatTimeout
  end.

Definition invoke (m : Method) (parameters : list string) : M unit :=
  match m with
  | BLINKON_handler => enableBlinkLed true
  | BLINKOFF_handler => enableBlinkLed false
  | TOGGLELED_handler => toggleLED
  | SETPINVALUE_handler =>
      setPinValue (defined (parseInt (arg parameters 0)))
                  (defined (parseInt (arg parameters 1)))
  end.

(** [this.availableActions[action]] *)
Fixpoint property (table : list (string * Method)) (key : string) : option Method :=
  match table with
  | [] => None
  | (k, m) :: table' => if decide (k = key) then Some m else property table' key
  end.

Definition executeAction (action : string) (parameters : maybe (list string)) : M unit :=
  available <- isAvailableAction action ;;
  (if negb available
   then b <- get_this ;; throw (CommandUnavailable action (id b))
   else ret tt) ;;
  tell (log_debug (Executing_method action)) ;;
  b <- get_this ;;
  match property (availableActions b) action with
  | Some _action =>
      match parameters with
      | defined (p :: ps) => invoke _action (p :: ps)
      | _ => invoke _action []
      end
  | None => throw TypeError
  end ;;
  emitUpdate.

Definition attachDigitalPinListeners : M unit :=
  f <- fb ;;
  forEach (pins f) (λ _ i,
    d <- isDigitalPin (index i) ;;
    if d then fb_digitalRead i emitUpdate_fn
    else ret tt).

Definition attachAnalogPinListeners : M unit :=
  f <- fb ;;
  forEach (analogPins f) (λ _ i, fb_analogRead i emitUpdate_fn).

(** Defined by the class, called from nowhere in this revision. *)
Definition compareAnalogReadout (pinIndex : nat) (value : number) : M unit :=
  b <- get_this ;;
  if match previousAnalogValue b !! pinIndex with
     | Some previous => strict_eq previous value
     | None => false
     end
  then ret tt
  else
    update_this (λ b, set_previousAnalogValue
                        (<[pinIndex := value]> (previousAnalogValue b)) b) ;;
    emitUpdate.

Definition clearAllIntervals : M unit :=
  b <- get_this ;;
  forEach (intervals b) (λ interval _, global_clear (defined interval)) ;;
  update_this (set_intervals []).

Definition clearAllTimeouts : M unit :=
  b <- get_this ;;
  forEach (timeouts b) (λ timeout _, global_clear (defined timeout)) ;;
  update_this (set_timeouts []).

Definition clearListeners : M unit :=
  f <- fb ;;
  forEach (pins f) (λ _ i,
    d <- isDigitalPin (index i) ;;
    if d then update_fb (removeListener (digital_read i) emitUpdate_fn)
    else ret tt) ;;
  f <- fb ;;
  forEach (analogPins f) (λ _ i,
    update_fb (removeListener (analog_read i) emitUpdate_fn)) ;;
  update_fb (removeListener queryfirmware resetHeartbeatTimeout_fn).

Definition clearAllTimers : M unit :=
  clearAllIntervals ;;
  clearAllTimeouts ;;
  clearListeners.

Definition disconnect : M unit :=
  clearAllTimers ;;
  update_this (set_online false) ;;
  update_fb removeAllListeners.

(** The table every instance starts with. *)
Definition default_actions : list (string * Method) :=
  [("BLINKON", BLINKON_handler); ("BLINKOFF", BLINKOFF_handler);
   ("TOGGLELED", TOGGLELED_handler); ("SETPINVALUE", SETPINVALUE_handler)].

(** The field initialisers of the class, with the columns [name] and [type]
    taken from the persisted model. *)
Definition fields (name type id : maybe string) : Board :=
  mkBoard id name type false undefined undefined IDLE default_actions None
          [] [] (mkPinout 2 13 15) undefined undefined ∅.

(** [new Board(model, buildOptions, firmataBoard, id)] in a process whose
    timer queue is [l]. *)
Definition constructor (name type : maybe string)
    (firmataBoard : option (FirmataBoard Listener)) (id : maybe string)
    (l : Loop Callback) : Result unit * World :=
  let w := mkWorld (fields name type id) l [] in
  match firmataBoard with
  | Some f =>
      (update_this (set_online true) ;;
       update_this (set_firmataBoard (Some f)) ;;
       tell (setSamplingInterval 1000) ;;
       attachAnalogPinListeners ;;
       attachDigitalPinListeners ;;
       startHeartbeat) w
  | None => (Ok tt, w)
  end.

(** *** The event loop: timers expiring and events arriving from the device *)

(** The firmata board emits [e]: the listeners of the session registered for
    it run in registration order. *)
Fixpoint run_listeners (fs : list Listener) : M unit :=
  match fs with
  | [] => ret tt
  | f :: fs' => run_listener f ;; run_listeners fs'
  end.

Definition deliver (e : Event) : M unit :=
  f <- fb ;;
  update_fb (consume_once e) ;;
  run_listeners (listening e f).

(** A report from the device: firmata stores the value in its pin table and
    then emits the event of that pin (an analog report names the channel). *)
Definition analog_message (channel : nat) (value : number) : M unit :=
  f <- fb ;;
  match analogPins f !! channel with
  | Some pin => update_fb (store_value pin (defined value))
  | None => ret tt
  end ;;
  deliver (analog_read channel).

Definition digital_message (pin : nat) (value : number) : M unit :=
  update_fb (store_value pin (defined value)) ;;
  deliver (digital_read pin).

Definition fire (t : Timer Callback) : M unit :=
  λ w, run_callback (handle t) (action t)
                    (mkWorld (this w) (expire t (loop w)) (out w)).

Definition sleep_until (time : Z) : M unit :=
  λ w, (Ok tt, mkWorld (this w)
                 (mkLoop (Z.max (now (loop w)) time) (fresh (loop w))
                         (pending (loop w)))
                 (out w)).

(** Run every timer that expires up to [time], in order of expiry, then
    let the clock reach [time]. [fuel] bounds the number of expiries; the
    result tells whether the queue was drained up to [time]. *)
Fixpoint run_until (fuel : nat) (time : Z) : M bool :=
  λ w,
    match earliest (pending (loop w)) with
    | Some t =>
        if due t <=? time then
          match fuel with
          | O => (Ok false, w)
          | S fuel' => (fire t ;; run_until fuel' time) w
          end
        else (sleep_until time ;; ret true) w
    | None => (sleep_until time ;; ret true) w
    end.

(** A device event arriving at a given time. *)
Definition arrive (fuel : nat) (time : Z) (e : Event) : M bool :=
  done <- run_until fuel time ;;
  if done then deliver e ;; ret true else ret false.
(** A device that answers every heartbeat: the reply to the request sent at
    the k-th beat after [t0] arrives [latency] ms after it. *)
Fixpoint healthy (t0 : Z) (latencies : list Z) : M bool :=
  match latencies with
  | [] => ret true
  | latency :: rest =>
      replied <- arrive 1 (t0 + heartbeatInterval + latency) queryfirmware ;;
      if replied then healthy (t0 + heartbeatInterval) rest else ret false
  end.

(** *** Observing a trace *)
Definition is_emit (e : Event) (o : Output) : bool :=
  match o with
  | emit e' _ => bool_decide (e' = e)
  | _ => false
  end.

Definition is_queryFirmware (o : Output) : bool :=
  match o with
  | queryFirmware => true
  | _ => false
  end.

(** The times at which [e] was emitted, and at which the firmware was
    queried. *)
Definition emitted (e : Event) (trace : list (Z * Output)) : list Z :=
  (filter (λ x, is_emit e x.2 = true) trace).*1.

Definition queried (trace : list (Z * Output)) : list Z :=
  (filter (λ x, is_queryFirmware x.2 = true) trace).*1.
(** *** Vocabulary of the statements *)

(** The three tests of [isDigitalPin], on a pin of the table. *)
Definition digital_pin (p : Pins) : Prop :=
  analogChannel p = 127 ∧ supportedModes p ≠ [] ∧ PIN_MODE_ANALOG ∉ supportedModes p.

(** The arguments the handler is called with: the spread of [parameters], or
    none when the array is missing or empty. *)
Definition spread (parameters : maybe (list string)) : list string :=
  match parameters with
  | defined ps => ps
  | undefined | null => []
  end.

Definition is_malformed {A} (r : Result A) : bool :=
  match r with
  | Throw (CommandMalformed _) => true
  | _ => false
  end.

(** The payload of an [update] event for a session. *)
Definition payload (b : Board) : option IBoard :=
  match toDiscrete (defined b) with
  | Ok d => Some d
  | Throw _ => None
  end.

(** A method body that never throws [CommandMalformed]. *)
Definition never_malformed {A} (m : M A) : Prop :=
  ∀ w, is_malformed (m w).1 = false.

(** What [disconnect] leaves of the firmata board's listeners. *)
Definition listeners_left (w : World) : list (Registration Listener) :=
  match firmataBoard (this w) with
  | Some f => listeners f
  | None => []
  end.

(** The registrations waiting for a firmware reply. *)
Definition replies (f : FirmataBoard Listener) : list (Registration Listener) :=
  filter (λ r, event r = queryfirmware) (listeners f).

(** The heartbeat of a session with a firmata board is armed and nothing else
    is pending: the next request is due one interval after [t0]. *)
Record beating (w : World) (heartbeat : Timeout) (t0 : Z) : Prop := {
  beating_pending :
    pending (loop w)
    = [mkTimer heartbeat (t0 + heartbeatInterval) (Some heartbeatInterval) heartbeat_tick];
  beating_now : now (loop w) ≤ t0 + heartbeatInterval;
  beating_fresh : (heartbeat < fresh (loop w))%nat;
  beating_timeouts : timeouts (this w) = [];
  beating_replies : ∃ f, firmataBoard (this w) = Some f ∧ replies f = [];
}.

(** The times of the first [n] requests after [t0]. *)
Definition requests (t0 : Z) (n : nat) : list Z :=
  (λ k, t0 + heartbeatInterval * Z.of_nat (S k)) <$> seq 0 n.

(** A world that differs from [w] in the listeners of its firmata board only. *)
Definition same_but_listeners (w : World) (f : FirmataBoard Listener) (w' : World) : Prop :=
  ∃ ls, w' = mkWorld (set_firmataBoard
                        (Some (mkFirmataBoard (pins f) (analogPins f) ls)) (this w))
                     (loop w) (out w).

(** The test of [isAnalogPin], on a pin of the table. *)
Definition analog_pin (p : Pins) : Prop := PIN_MODE_ANALOG ∈ supportedModes p.

(** The indices of a pin table that [isDigitalPin] accepts, in order. *)
Definition digital_at (ps : list Pins) (i : nat) : Prop :=
  ∃ p, ps !! i = Some p ∧ digital_pin p.

#[global] Instance digital_at_dec (ps : list Pins) (i : nat) : Decision (digital_at ps i).
Proof.
  unfold digital_at. destruct (ps !! i) as [p|].
  - destruct (decide (digital_pin p)) as [Hd|Hd].
    + left. by exists p.
    + right. intros (q & [= <-] & Hq). done.
  - right. intros (q & [=] & _).
Defined.

Definition digital_pins (ps : list Pins) : list nat :=
  filter (digital_at ps) (seq 0 (length ps)).

(** The registrations [analogRead] and [digitalRead] make for [emitUpdate]. *)
Definition on_analog (i : nat) : Registration Listener :=
  mkReg (analog_read i) false emitUpdate_fn.
Definition on_digital (i : nat) : Registration Listener :=
  mkReg (digital_read i) false emitUpdate_fn.

(** A firmata board with further registrations, in order. *)
Definition with_listeners (ls : list (Registration Listener)) (f : FirmataBoard Listener)
  : FirmataBoard Listener :=
  mkFirmataBoard (pins f) (analogPins f) (listeners f ++ ls).

(** A pin whose reporting is switched on. *)
Definition with_report (p : Pins) : Pins :=
  mkPins (supportedModes p) (mode p) (value p) 1 (analogChannel p).

(** Reporting switched on for the pins of a list, one after the other. *)
Definition report_all (ps : list nat) (f : FirmataBoard Listener) : FirmataBoard Listener :=
  foldl (λ g pin, report_on pin g) f ps.

(** The firmata board after the constructor's [analogRead] and [digitalRead]
    calls, listeners apart: reporting is on for the pins of the analog
    channels and for the digital pins. *)
Definition reported (f : FirmataBoard Listener) : FirmataBoard Listener :=
  report_all (analogPins f ++ digital_pins (pins f)) f.

(** Outputs made at one time. *)
Definition stamped (t : Z) (os : list Output) : list (Z * Output) := (λ o, (t, o)) <$> os.

(** [this.firmataBoard.pins[ this.pinout.LED ]] *)
Definition LED_pin (w : World) : option Pins :=
  match firmataBoard (this w) with
  | Some f => at_index (pins f) (defined (Num (LED (pinout (this w)))))
  | None => None
  end.

(** A pin of the table holding another value. *)
Definition with_value (v : maybe number) (p : Pins) : Pins :=
  mkPins (supportedModes p) (mode p) v (report p) (analogChannel p).

(** The level [toggleLED] writes when the LED holds [v]. *)
Definition toggled (v : maybe number) : number :=
  if decide (v = defined HIGH) then LOW else HIGH.

(** The session as [enableBlinkLed(true)] leaves it when it was not blinking:
    a 500 ms interval calling [toggleLED], held in [blinkInterval] and listed
    last in [intervals]. *)
Definition blinking (w : World) : World :=
  mkWorld (set_intervals (intervals (this w) ++ [fresh (loop w)])
             (set_blinkInterval (defined (fresh (loop w))) (this w)))
          (mkLoop (now (loop w)) (S (fresh (loop w)))
                  (pending (loop w)
                     ++ [mkTimer (fresh (loop w)) (now (loop w) + 500) (Some 500)
                                 toggleLED_bound]))
          (out w).

End Board.

(** ** [unnamed/part_000]: the earlier revision of the session class *)
Module Board0.
Import Node Eff.
Local Open Scope eff_scope.

(** The functions registered as listeners: the bound [emitUpdate], the arrow
    of [attachAnalogPinListeners] (which captures [pin]) and the arrow handed
    to [queryFirmware] (which captures [heartbeatTimeout]). *)
Inductive Listener : Type :=
| emitUpdate_bound
| analog_listener (pin : nat)
| heartbeat_reply (heartbeatTimeout : Timeout).

#[global] Instance Listener_eq_dec : EqDecision Listener.
Proof. solve_decision. Defined.

(** The functions handed to [setInterval] and [setTimeout]; the deadline
    closure captures [heartbeat] and refers to itself as [heartbeatTimeout]. *)
Inductive Callback : Type :=
| heartbeat_tick
| heartbeat_expired (heartbeat : Timeout)
| toggleLED_bound.

Inductive Method : Type :=
| BLINKON_handler
| BLINKOFF_handler
| TOGGLELED_handler
| SETPINVALUE_handler.

Inductive Exception : Type :=
| CommandError (action : string)
| TypeError.

Record IPinout : Type := mkPinout { LED : Z; RX : Z; TX : Z }.

Record IPin : Type := mkIPin {
  pinNumber : nat;
  analog : bool;
  pin : Pins;
}.

Record IBoard : Type := mkIBoard {
  d_id : maybe string;
  d_vendorId : maybe string;
  d_productId : maybe string;
  d_type : string;
  d_currentJob : string;
  d_commands : list string;
  d_pins : list IPin;
}.

Record Board : Type := mkBoard {
  id : maybe string;
  vendorId : maybe string;
  productId : maybe string;
  type : string;
  currentJob : string;
  availableActions : list (string * Method);
  firmataBoard : FirmataBoard Listener;
  intervals : list Timeout;
  timeouts : list Timeout;
  pinout : IPinout;
  blinkInterval : maybe Timeout;
  previousAnalogValue : gmap nat number;
}.

Definition heartbeatInterval : Z := 3000.

(** The delay of the deadline armed by [startHeartbeat] (a literal there). *)
Definition heartbeat_deadline : Z := 2000.

Inductive Message : Type :=
| Executing_method (action : string)
| LED_blink_is_already_enabled
| Heartbeat_timeout
| Tried_to_write (value pin : number).

Inductive Output : Type :=
| log_debug (m : Message)
| log_warn (m : Message)
| setSamplingInterval (ms : Z)
| analogRead (index : nat)
| digitalRead (index : nat)
| analogWrite (pin value : number)
| digitalWrite (pin value : number)
| queryFirmware
| emit (e : Event).

Record World : Type := mkWorld {
  this : Board;
  loop : Loop Callback;
  out : list (Z * Output);
}.

Definition set_currentJob (v : string) (b : Board) : Board :=
  mkBoard (id b) (vendorId b) (productId b) (type b) v (availableActions b)
          (firmataBoard b) (intervals b) (timeouts b) (pinout b)
          (blinkInterval b) (previousAnalogValue b).
Definition set_firmataBoard (v : FirmataBoard Listener) (b : Board) : Board :=
  mkBoard (id b) (vendorId b) (productId b) (type b) (currentJob b)
          (availableActions b) v (intervals b) (timeouts b) (pinout b)
          (blinkInterval b) (previousAnalogValue b).
Definition set_intervals (v : list Timeout) (b : Board) : Board :=
  mkBoard (id b) (vendorId b) (productId b) (type b) (currentJob b)
          (availableActions b) (firmataBoard b) v (timeouts b) (pinout b)
          (blinkInterval b) (previousAnalogValue b).
Definition set_timeouts (v : list Timeout) (b : Board) : Board :=
  mkBoard (id b) (vendorId b) (productId b) (type b) (currentJob b)
          (availableActions b) (firmataBoard b) (intervals b) v (pinout b)
          (blinkInterval b) (previousAnalogValue b).
Definition set_blinkInterval (v : maybe Timeout) (b : Board) : Board :=
  mkBoard (id b) (vendorId b) (productId b) (type b) (currentJob b)
          (availableActions b) (firmataBoard b) (intervals b) (timeouts b)
          (pinout b) v (previousAnalogValue b).
Definition set_previousAnalogValue (v : gmap nat number) (b : Board) : Board :=
  mkBoard (id b) (vendorId b) (productId b) (type b) (currentJob b)
          (availableActions b) (firmataBoard b) (intervals b) (timeouts b)
          (pinout b) (blinkInterval b) v.

Definition M (A : Type) : Type := Eff.M World Exception A.

Definition get_this : M Board := λ w, (Ok (this w), w).
Definition update_this (f : Board → Board) : M unit :=
  λ w, (Ok tt, mkWorld (f (this w)) (loop w) (out w)).
Definition tell (o : Output) : M unit :=
  λ w, (Ok tt, mkWorld (this w) (loop w) (out w ++ [(now (loop w), o)])).
Definition fb : M (FirmataBoard Listener) :=
  b <- get_this ;; ret (firmataBoard b).
Definition update_fb (g : FirmataBoard Listener → FirmataBoard Listener) : M unit :=
  update_this (λ b, set_firmataBoard (g (firmataBoard b)) b).

Definition global_setInterval (cb : Callback) (ms : Z) : M Timeout :=
  λ w, let '(h, l) := Node.setInterval cb ms (loop w) in
       (Ok h, mkWorld (this w) l (out w)).
Definition global_setTimeout (cb : Callback) (ms : Z) : M Timeout :=
  λ w, let '(h, l) := Node.setTimeout cb ms (loop w) in
       (Ok h, mkWorld (this w) l (out w)).
Definition global_clear (t : maybe Timeout) : M unit :=
  λ w, (Ok tt, mkWorld (this w) (Node.clear t (loop w)) (out w)).

Definition index (i : nat) : number := Num (Z.of_nat i).

Definition getAvailableActions (b : Board) : list string :=
  (availableActions b).*1.

Definition toDiscrete (board : Board) : IBoard :=
  mkIBoard (id board) (vendorId board) (productId board) (type board)
    (currentJob board) (getAvailableActions board)
    (filter (λ p : IPin, (0 < length (supportedModes (pin p)))%nat)
       (imap (λ index p, mkIPin index (negb (analogChannel p =? 127)) p)
             (pins (firmataBoard board)))).

Definition isAvailableAction (action : string) : M bool :=
  b <- get_this ;;
  ret (0 <=? indexOf (getAvailableActions b) action).

Definition isDigitalPin (pinIndex : number) : M bool :=
  f <- fb ;;
  match at_index (pins f) (defined pinIndex) with
  | Some pin =>
      ret ((analogChannel pin =? 127)
           && (0 <? Z.of_nat (length (supportedModes pin)))
           && negb (bool_decide (PIN_MODE_ANALOG ∈ supportedModes pin)))
  | None => throw TypeError
  end.

Definition isAnalogPin (pinIndex : number) : M bool :=
  f <- fb ;;
  match at_index (pins f) (defined pinIndex) with
  | Some pin => ret (bool_decide (PIN_MODE_ANALOG ∈ supportedModes pin))
  | None => throw TypeError
  end.

Definition emitUpdate : M unit := tell (emit update).

Definition resetCurrentJob : M unit := update_this (set_currentJob "IDLE").

Definition clearInterval (interval : maybe Timeout) : M unit :=
  update_this (λ b, set_intervals
                      (splice (intervals b) (indexOf_slot (intervals b) interval) 1) b) ;;
  global_clear interval.

Definition clearTimeout (timeout : maybe Timeout) : M unit :=
  update_this (λ b, set_timeouts
                      (splice (timeouts b) (indexOf_slot (timeouts b) timeout) 1) b) ;;
  global_clear timeout.

Definition pin_slot (pin : number) : nat :=
  match pin with
  | Num z => Z.to_nat z
  | NaN => 0%nat
  end.

(** [firmataBoard.analogWrite] and [firmataBoard.digitalWrite]: the call, and
    the value firmata stores in its pin table. *)
Definition fb_analogWrite (pin value : number) : M unit :=
  tell (analogWrite pin value) ;;
  update_fb (store_value (pin_slot pin) (defined value)).

Definition fb_digitalWrite (pin value : number) : M unit :=
  tell (digitalWrite pin value) ;;
  update_fb (store_value (pin_slot pin) (defined value)).

(** [firmataBoard.analogRead] and [firmataBoard.digitalRead]: reporting is
    switched on, which firmata notes in the [report] field of the pin (for an
    analog read the pin [analogPins[index]] of the channel), and the callback
    is registered for the event of the pin. The sessions call these with the
    indices of [analogPins] and of [pins]. Where the pin table has no entry
    for the pin of a channel, firmata fails with a TypeError on that field;
    here the table is then left as it is, and what is stated about the pin
    table after the constructor asks for the pins of the analog channels to
    be in the table, as firmata builds them. *)
Definition fb_analogRead (index : nat) (callback : Listener) : M unit :=
  tell (analogRead index) ;;
  update_fb (report_channel index) ;;
  update_fb (addListener (analog_read index) callback).

Definition fb_digitalRead (index : nat) (callback : Listener) : M unit :=
  tell (digitalRead index) ;;
  update_fb (report_on index) ;;
  update_fb (addListener (digital_read index) callback).

Definition setPinValue (pin value : number) : M unit :=
  a <- isAnalogPin pin ;;
  (if a then fb_analogWrite pin value
   else
     d <- isDigitalPin pin ;;
     if d then
       if negb (strict_eq value HIGH) && negb (strict_eq value LOW)
       then tell (log_warn (Tried_to_write value pin))
       else fb_digitalWrite pin value
     else ret tt) ;;
  emitUpdate.

Definition toggleLED : M unit :=
  b <- get_this ;;
  let led := Num (LED (pinout b)) in
  match at_index (pins (firmataBoard b)) (defined led) with
  | Some p =>
      setPinValue led
        (if strict_eq_slot (value p) (defined HIGH) then LOW else HIGH)
  | None => throw TypeError
  end.

Definition enableBlinkLed (enable : bool) : M unit :=
  if enable then
    b <- get_this ;;
    if truthy (blinkInterval b) then
      tell (log_warn LED_blink_is_already_enabled)
    else
      update_this (set_currentJob "BLINKON") ;;
      h <- global_setInterval toggleLED_bound 500 ;;
      update_this (set_blinkInterval (defined h)) ;;
      update_this (λ b, set_intervals (intervals b ++ [h]) b)
  else
    resetCurrentJob ;;
    b <- get_this ;;
    clearInterval (blinkInterval b) ;;
    update_this (set_blinkInterval null).

Definition fb_queryFirmware (callback : Listener) : M unit :=
  update_fb (addOnce queryfirmware callback) ;;
  tell queryFirmware.

Definition startHeartbeat : M unit :=
  heartbeat <- global_setInterval heartbeat_tick heartbeatInterval ;;
  update_this (λ b, set_intervals (intervals b ++ [heartbeat]) b).

Definition run_callback (self : Timeout) (cb : Callback) : M unit :=
  match cb with
  | heartbeat_tick =>
      heartbeatTimeout <- global_setTimeout (heartbeat_expired self) heartbeat_deadline ;;
      update_this (λ b, set_timeouts (timeouts b ++ [heartbeatTimeout]) b) ;;
      fb_queryFirmware (heartbeat_reply heartbeatTimeout)
  | heartbeat_expired heartbeat =>
      tell (log_warn Heartbeat_timeout) ;;
      tell (emit disconnect) ;;
      clearInterval (defined heartbeat) ;;
      clearTimeout (defined self)
  | toggleLED_bound => toggleLED
  end.

Definition compareAnalogReadout (pinIndex : nat) (value : number) : M unit :=
  b <- get_this ;;
  if match previousAnalogValue b !! pinIndex with
     | Some previous => strict_eq previous value
     | None => false
     end
  then ret tt
  else
    update_this (λ b, set_previousAnalogValue
                        (<[pinIndex := value]> (previousAnalogValue b)) b) ;;
    emitUpdate.

(** A listener called with the value the event carries. *)
Definition run_listener (f : Listener) (value : number) : M unit :=
  match f with
  | emitUpdate_bound => emitUpdate
  | analog_listener pin => compareAnalogReadout pin value
  | heartbeat_reply heartbeatTimeout => clearTimeout (defined heartbeatTimeout)
  end.

Definition attachDigitalPinListeners : M unit :=
  f <- fb ;;
  forEach (pins f) (λ _ i,
    d <- isDigitalPin (index i) ;;
    if d then fb_digitalRead i emitUpdate_bound
    else ret tt).

Definition attachAnalogPinListeners : M unit :=
  f <- fb ;;
  forEach (analogPins f) (λ pin i, fb_analogRead i (analog_listener pin)).

Definition clearAllIntervals : M unit :=
  b <- get_this ;;
  forEach (intervals b) (λ interval _, global_clear (defined interval)) ;;
  update_this (set_intervals []).

Definition clearAllTimeouts : M unit :=
  b <- get_this ;;
  forEach (timeouts b) (λ timeout _, global_clear (defined timeout)) ;;
  update_this (set_timeouts []).

Definition clearAllTimers : M unit :=
  clearAllIntervals ;;
  clearAllTimeouts ;;
  update_fb removeAllListeners.

(** Each handler is called with the rest-parameter array as its only
    argument: [pin] is that array, converted to a string by [parseInt], and
    [value] is [undefined]. *)
Definition invoke (m : Method) (parameter : list string) : M unit :=
  match m with
  | BLINKON_handler => enableBlinkLed true
  | BLINKOFF_handler => enableBlinkLed false
  | TOGGLELED_handler => toggleLED
  | SETPINVALUE_handler =>
      setPinValue (parseInt (defined (String.concat "," parameter)))
                  (parseInt undefined)
  end.

Fixpoint property (table : list (string * Method)) (key : string) : option Method :=
  match table with
  | [] => None
  | (k, m) :: table' => if decide (k = key) then Some m else property table' key
  end.

Definition executeAction (action : string) (parameter : list string) : M unit :=
  available <- isAvailableAction action ;;
  (if negb available then throw (CommandError action) else ret tt) ;;
  tell (log_debug (Executing_method action)) ;;
  b <- get_this ;;
  match property (availableActions b) action with
  | Some _action => invoke _action parameter
  | None => throw TypeError
  end ;;
  tell (emit update).

Definition default_actions : list (string * Method) :=
  [("BLINKON", BLINKON_handler); ("BLINKOFF", BLINKOFF_handler);
   ("TOGGLELED", TOGGLELED_handler); ("SETPINVALUE", SETPINVALUE_handler)].

(** [new Board(firmataBoard, id)], for the class called [class_name]. *)
Definition constructor (class_name : string) (firmataBoard : FirmataBoard Listener)
    (id : maybe string) (l : Loop Callback) : Eff.Result Exception unit * World :=
  (tell (setSamplingInterval 1000) ;;
   attachAnalogPinListeners ;;
   attachDigitalPinListeners ;;
   startHeartbeat)
    (mkWorld
       (mkBoard id undefined undefined class_name "IDLE" default_actions
                firmataBoard [] [] (mkPinout 2 13 15) undefined ∅)
       l []).

(** *** The event loop *)
Fixpoint run_listeners (fs : list Listener) (value : number) : M unit :=
  match fs with
  | [] => ret tt
  | f :: fs' => run_listener f value ;; run_listeners fs' value
  end.

Definition deliver (e : Event) (value : number) : M unit :=
  f <- fb ;;
  update_fb (consume_once e) ;;
  run_listeners (listening e f) value.

(** A report from the device: firmata stores the value in its pin table and
    then emits the event of that pin with the value. *)
Definition analog_message (channel : nat) (value : number) : M unit :=
  f <- fb ;;
  match analogPins f !! channel with
  | Some pin => update_fb (store_value pin (defined value))
  | None => ret tt
  end ;;
  deliver (analog_read channel) value.

Definition digital_message (pin : nat) (value : number) : M unit :=
  update_fb (store_value pin (defined value)) ;;
  deliver (digital_read pin) value.

Definition fire (t : Timer Callback) : M unit :=
  λ w, run_callback (handle t) (action t)
                    (mkWorld (this w) (expire t (loop w)) (out w)).

Definition sleep_until (time : Z) : M unit :=
  λ w, (Ok tt, mkWorld (this w)
                 (mkLoop (Z.max (now (loop w)) time) (fresh (loop w))
                         (pending (loop w)))
                 (out w)).

Fixpoint run_until (fuel : nat) (time : Z) : M bool :=
  λ w,
    match earliest (pending (loop w)) with
    | Some t =>
        if due t <=? time then
          match fuel with
          | O => (Ok false, w)
          | S fuel' => (fire t ;; run_until fuel' time) w
          end
        else (sleep_until time ;; ret true) w
    | None => (sleep_until time ;; ret true) w
    end.

Definition arrive (fuel : nat) (time : Z) (e : Event) (value : number) : M bool :=
  done <- run_until fuel time ;;
  if done then deliver e value ;; ret true else ret false.
(** A device that answers every heartbeat: the reply to the request sent at
    the k-th beat after [t0] arrives [latency] ms after it. *)
Fixpoint healthy (t0 : Z) (latencies : list Z) : M bool :=
  match latencies with
  | [] => ret true
  | latency :: rest =>
      replied <- arrive 1 (t0 + heartbeatInterval + latency) queryfirmware NaN ;;
      if replied then healthy (t0 + heartbeatInterval) rest else ret false
  end.

(** *** Observing a trace *)
Definition is_emit (e : Event) (o : Output) : bool :=
  match o with
  | emit e' => bool_decide (e' = e)
  | _ => false
  end.

Definition is_queryFirmware (o : Output) : bool :=
  match o with
  | queryFirmware => true
  | _ => false
  end.

(** The times at which [e] was emitted, and at which the firmware was
    queried. *)
Definition emitted (e : Event) (trace : list (Z * Output)) : list Z :=
  (filter (λ x, is_emit e x.2 = true) trace).*1.

Definition queried (trace : list (Z * Output)) : list Z :=
  (filter (λ x, is_queryFirmware x.2 = true) trace).*1.
(** *** Vocabulary of the statements *)

(** The registrations waiting for a firmware reply. *)
Definition replies (f : FirmataBoard Listener) : list (Registration Listener) :=
  filter (λ r, event r = queryfirmware) (listeners f).

Record beating (w : World) (heartbeat : Timeout) (t0 : Z) : Prop := {
  beating_pending :
    pending (loop w)
    = [mkTimer heartbeat (t0 + heartbeatInterval) (Some heartbeatInterval) heartbeat_tick];
  beating_now : now (loop w) ≤ t0 + heartbeatInterval;
  beating_fresh : (heartbeat < fresh (loop w))%nat;
  beating_timeouts : timeouts (this w) = [];
  beating_replies : replies (firmataBoard (this w)) = [];
}.

(** The times of the first [n] requests after [t0]. *)
Definition requests (t0 : Z) (n : nat) : list Z :=
  (λ k, t0 + heartbeatInterval * Z.of_nat (S k)) <$> seq 0 n.

(** The analog listener of [pin] called with each reading in turn. *)
Fixpoint read_all (pin : nat) (readings : list number) : M unit :=
  match readings with
  | [] => ret tt
  | value :: rest => compareAnalogReadout pin value ;; read_all pin rest
  end.

(** How many readings of a sequence differ ([!==]) from the one before them,
    [previous] being the value stored before the first. *)
Fixpoint changes (previous : option number) (readings : list number) : nat :=
  match readings with
  | [] => 0
  | value :: rest =>
      (if match previous with
          | Some p => strict_eq p value
          | None => false
          end
       then 0 else 1)%nat
      + changes (Some value) rest
  end.
(** Outputs made at one time. *)
Definition stamped (t : Z) (os : list Output) : list (Z * Output) := (λ o, (t, o)) <$> os.

End Board0.

(** ** [unnamed/part_001]: the LED-controller variant

    The class extends a revision of [Board] that is not among the sources: its
    table entries are [{ requiresParams, method }] records and it calls
    [Board.is8BitNumber] and [this.serialWriteBytes], which neither revision
    above defines. Those three pieces are modelled from the specification and
    marked as such; everything else follows the file. *)
Module LedController.
Import Eff.
Local Open Scope eff_scope.

Definition SERIAL_BAUD_RATE : Z := 9600.
Definition PAYLOAD_HEADER : string := "[".
Definition PAYLOAD_FOOTER : string := "]".

Inductive LED_COMMAND : Type :=
| SETCOLOR | PULSECOLOR | SETBRIGHTNESS | RAINBOW | RETRO | KITT.

(** [LedController.LED_COMMANDS]: the letter of each command. *)
Definition LED_COMMANDS (c : LED_COMMAND) : string :=
  match c with
  | SETCOLOR => "C"
  | PULSECOLOR => "P"
  | SETBRIGHTNESS => "B"
  | RAINBOW => "R"
  | RETRO => "8"
  | KITT => "K"
  end.

(** An element of a payload array: the header, letter and footer are
    strings, the parameters are numbers. *)
Inductive Item : Type :=
| text (s : string)
| num (n : number).

Inductive Exception : Type :=
| CommandUnavailable (action : string)
| CommandMalformed (message : string)
| Error (message : string)
| TypeError.

Inductive Method : Type :=
| RAINBOW_method
| KITT_method
| PULSECOLOR_method
| SETCOLOR_method.

Record Action : Type := mkAction {
  requiresParams : bool;
  method : Method;
}.

Record SerialOptions : Type := mkSerialOptions {
  portId : SERIAL_PORT_ID;
  baud : Z;
  rxPin : Z;
  txPin : Z;
}.

Inductive Output : Type :=
| serialConfig (options : SerialOptions)
| serialWrite (port : SERIAL_PORT_ID) (payload : list Item)
| emit_update.

(** [SupportedBoards.ESP_8266.pinMap], as the class comment gives it. *)
Record IPinMapping : Type := mkPinMapping { LED : Z; RX : Z; TX : Z }.
Definition ESP_8266 : IPinMapping := mkPinMapping 2 4 5.

Record World : Type := mkWorld {
  connected : bool;                       (* a firmataBoard was given *)
  availableActions : list (string * Action);
  out : list Output;
}.

Definition M (A : Type) : Type := Eff.M World Exception A.

Definition tell (o : Output) : M unit :=
  λ w, (Ok tt, mkWorld (connected w) (availableActions w) (out w ++ [o])).

(** [this.firmataBoard.SERIAL_PORT_IDs.SW_SERIAL0] *)
Definition SW_SERIAL0_of_board : M SERIAL_PORT_ID :=
  λ w, if connected w then (Ok SW_SERIAL0, w) else (Throw TypeError, w).

(** Modelled from the spec: [Board.is8BitNumber] is not among the sources;
    "Parameters must each fit in 8 bits", "8-bit ints in [0,255]". *)
Definition is8BitNumber (n : number) : bool :=
  match n with
  | Num z => (0 <=? z) && (z <=? 255)
  | NaN => false
  end.

(** Modelled from the spec: [serialWriteBytes] is not among the sources; the
    payload is written "through the Firmata SERIAL_WRITE passthrough". *)
Definition serialWriteBytes (port : SERIAL_PORT_ID) (payload : list Item) : M unit :=
  tell (serialWrite port payload).

Definition buildPayload (command : string) (parameters : list number) : list Item :=
  [text PAYLOAD_HEADER; text command] ++ (num <$> parameters) ++ [text PAYLOAD_FOOTER].

Definition parametersAreValid (args : list number) : bool :=
  negb (bool_decide (false ∈ (is8BitNumber <$> args))).

Definition invalid : Exception := Error "Parameters should be 8 bit numbers (0-255).".

Definition pulseColor (hue saturation : number) : M unit :=
  (if negb (parametersAreValid [hue; saturation]) then throw invalid else ret tt) ;;
  port <- SW_SERIAL0_of_board ;;
  serialWriteBytes port (buildPayload (LED_COMMANDS PULSECOLOR) [hue; saturation]).

Definition setColor (hue saturation value : number) : M unit :=
  (if negb (parametersAreValid [hue; saturation; value]) then throw invalid else ret tt) ;;
  port <- SW_SERIAL0_of_board ;;
  serialWriteBytes port (buildPayload (LED_COMMANDS SETCOLOR) [hue; saturation; value]).

Definition rainbow : M unit :=
  port <- SW_SERIAL0_of_board ;;
  serialWriteBytes port (buildPayload (LED_COMMANDS RAINBOW) []).

Definition kitt (hue saturation value : number) : M unit :=
  (if negb (parametersAreValid [hue; saturation; value]) then throw invalid else ret tt) ;;
  port <- SW_SERIAL0_of_board ;;
  serialWriteBytes port (buildPayload (LED_COMMANDS KITT) [hue; saturation; value]).

(** The [method] arrows of the table built by the constructor. *)
Definition call (m : Method) (parameters : list string) : M unit :=
  match m with
  | RAINBOW_method => rainbow
  | KITT_method =>
      kitt (parseInt (arg parameters 0)) (parseInt (arg parameters 1))
           (parseInt (arg parameters 2))
  | PULSECOLOR_method =>
      pulseColor (parseInt (arg parameters 0)) (parseInt (arg parameters 1))
  | SETCOLOR_method =>
      setColor (parseInt (arg parameters 0)) (parseInt (arg parameters 1))
               (parseInt (arg parameters 2))
  end.

Definition table : list (string * Action) :=
  [("RAINBOW", mkAction false RAINBOW_method);
   ("KITT", mkAction true KITT_method);
   ("PULSECOLOR", mkAction true PULSECOLOR_method);
   ("SETCOLOR", mkAction true SETCOLOR_method)].

(** The part of the constructor that is the class's own: the table and the
    serial configuration of software serial port 0. *)
Definition constructor (firmataBoard : bool) : Result Exception unit * World :=
  let w := mkWorld firmataBoard table [] in
  if firmataBoard then
    tell (serialConfig (mkSerialOptions SW_SERIAL0 SERIAL_BAUD_RATE
                          (RX ESP_8266) (TX ESP_8266))) w
  else (Ok tt, w).

Fixpoint property (t : list (string * Action)) (key : string) : option Action :=
  match t with
  | [] => None
  | (k, a) :: t' => if decide (k = key) then Some a else property t' key
  end.

(** Modelled from the spec: the [executeAction] of the revision of [Board]
    this class extends is not among the sources. Sections 4.4 and 7: it fails
    with ActionUnavailable when the name is not in the table, and with
    ActionMalformed when a required parameter is missing, not parseable or,
    for the actions of this class, not an 8-bit integer in [0, 255]; both are
    surfaced to the caller with the session unaffected; otherwise it routes to
    the handler and, after dispatch, emits [update]. The handlers of this
    class refuse such parameters themselves, by throwing their [Error]: that
    refusal is what the dispatch surfaces as ActionMalformed. Anything else a
    handler throws reaches the caller as thrown. *)
Definition executeAction (action : string) (parameters : list string) : M unit :=
  λ w,
    match property (availableActions w) action with
    | None => (Throw (CommandUnavailable action), w)
    | Some a =>
        if requiresParams a && bool_decide (parameters = [])
        then (Throw (CommandMalformed action), w)
        else
          match call (method a) parameters w with
          | (Ok _, w') => tell emit_update w'
          | (Throw (Error _), _) => (Throw (CommandMalformed action), w)
          | (Throw e, w') => (Throw e, w')
          end
    end.
(** *** Vocabulary of the statements *)

(** A parameter that fits in 8 bits. *)
Definition in_range (n : number) : Prop :=
  match n with
  | Num z => 0 ≤ z ≤ 255
  | NaN => False
  end.

#[global] Instance in_range_dec (n : number) : Decision (in_range n).
Proof. destruct n; simpl; apply _. Defined.

End LedController.

(** ** [src/service/board-service.ts]: connecting to a device *)
Module BoardService.
Import Node Eff.
Local Open Scope eff_scope.

(** The classes [connectToBoard] instantiates. *)
Inductive Class : Type := MajorTom | Board.

(** A constructed session, as the service holds it: which class, for which
    id, and which construction it was. *)
Record Instance : Type := mkInstance {
  class : Class;
  id : maybe string;
  serial : nat;
}.

(** The listeners on the firmata board: the four arrows of
    [connectToBoard], and whatever a constructed session registers. *)
Inductive Listener : Type :=
| on_queryfirmware
| on_ready
| on_disconnect
| on_close
| of_instance (serial : nat) (tag : nat).

#[global] Instance Listener_eq_dec : EqDecision Listener.
Proof. solve_decision. Defined.

Inductive Callback : Type := connection_timed_out.

(** The argument of [boardConnectedCallback]: [false] or the board. *)
Inductive Outcome : Type :=
| failure
| connected (board : maybe Instance).

Inductive Output : Type :=
| Logger_warn (message : string)
| addBoard (board : maybe Instance)
| removeBoard (board : maybe Instance)
| boardConnectedCallback (outcome : Outcome)
| boardDisconnectedCallback.

Inductive Exception : Type := TypeError.

Record World : Type := mkWorld {
  board : maybe Instance;                 (* the local variable [board] *)
  firmataBoard : FirmataBoard Listener;
  connectionTimeout : maybe Timeout;      (* the constant of that name *)
  constructed : nat;                      (* sessions constructed so far *)
  loop : Loop Callback;
  out : list (Z * Output);
}.

Definition M (A : Type) : Type := Eff.M World Exception A.

Definition tell (o : Output) : M unit :=
  λ w, (Ok tt, mkWorld (board w) (firmataBoard w)
                 (connectionTimeout w) (constructed w) (loop w)
                 (out w ++ [(now (loop w), o)])).
Definition set_board (b : maybe Instance) : M unit :=
  λ w, (Ok tt, mkWorld b (firmataBoard w)
                 (connectionTimeout w) (constructed w) (loop w) (out w)).
Definition update_fb (g : FirmataBoard Listener → FirmataBoard Listener) : M unit :=
  λ w, (Ok tt, mkWorld (board w) (g (firmataBoard w))
                 (connectionTimeout w) (constructed w) (loop w) (out w)).
Definition get : M World := λ w, (Ok w, w).

(** [name.replace('.ino', '')]: the first occurrence is removed. *)
Fixpoint remove_first_ino (s : string) : string :=
  match s with
  | EmptyString => EmptyString
  | String c s' =>
      if String.prefix ".ino" s then String.substring 4 (String.length s - 4) s
      else String c (remove_first_ino s')
  end.

Section Service.
(** The sessions share the firmata board and Node's timer queue with
    [connectToBoard]. Of the constructor of a session ([Board.constructor]
    above; the constructor of [MajorTom] is not among the sources) this model
    keeps what [connectToBoard] can meet again: the listeners the session
    registers on the firmata board, for the events [attaches] names. The
    calls the constructor makes on the firmata board, the heartbeat interval
    it starts and the listener each beat registers are not modelled here:
    [loop] holds the timers of [connectToBoard] only, and [out] its own calls
    on the logger, the model and the callbacks. When a timer of a session
    expires, the session emits an event on the firmata board, which is an
    event of the schedule here, or registers a listener of its own, which
    [connectToBoard] never calls. The statements about [connectToBoard] are
    therefore about the arrows, [board], the deadline, and the calls on the
    logger, the model and the callbacks, which nothing in a session touches;
    they do not say which timers of a session are pending or which listeners
    it holds. The model and the two callbacks are the caller's: the calls on
    them are recorded in [out], and what they do in turn is not among the
    sources. *)
Variable attaches : Class → FirmataBoard Listener → list Event.

Definition construct (c : Class) (serial : nat) (f : FirmataBoard Listener)
  : FirmataBoard Listener :=
  mkFirmataBoard (pins f) (analogPins f)
    (listeners f ++ imap (λ tag e, mkReg e false (of_instance serial tag)) (attaches c f)).

Definition new (c : Class) (id : maybe string) : M Instance :=
  λ w, (Ok (mkInstance c id (constructed w)),
        mkWorld (board w) (construct c (constructed w) (firmataBoard w)) (connectionTimeout w)
                (S (constructed w)) (loop w) (out w)).

(** The bodies of the listeners; [name] is [firmataBoard.firmware.name]
    and [id] the identity computed from the port. *)
Definition run_listener (id : maybe string) (name : string) (f : Listener) : M unit :=
  match f with
  | on_queryfirmware =>
      let type := remove_first_ino name in
      b <- (if decide (type = "MajorTom") then new MajorTom id else new Board id) ;;
      set_board (defined b)
  | on_ready =>
      w <- get ;;
      tell (addBoard (board w)) ;;
      tell (boardConnectedCallback (connected (board w))) ;;
      (λ w, (Ok tt, mkWorld (board w) (firmataBoard w)
                      (connectionTimeout w) (constructed w)
                      (Node.clear (connectionTimeout w) (loop w)) (out w)))
  | on_disconnect | on_close =>
      w <- get ;;
      tell (removeBoard (board w)) ;;
      tell boardDisconnectedCallback
  | of_instance _ _ => ret tt
  end.

Definition run_callback (cb : Callback) : M unit :=
  match cb with
  | connection_timed_out =>
      tell (Logger_warn "Timeout connecting to board") ;;
      set_board null ;;
      update_fb removeAllListeners ;;
      tell (boardConnectedCallback failure)
  end.

(** [connectToBoard(port, boardConnectedCallback, boardDisconnectedCallback)]
    on a freshly created firmata board. *)
Definition connectToBoard : M unit :=
  (λ w, let '(h, l) := Node.setTimeout connection_timed_out 10000 (loop w) in
        (Ok tt, mkWorld (board w) (firmataBoard w)
                  (defined h) (constructed w) l (out w))) ;;
  update_fb (addListener queryfirmware on_queryfirmware) ;;
  update_fb (addListener ready on_ready) ;;
  update_fb (addListener disconnect on_disconnect) ;;
  update_fb (addListener close on_close).

(** The state in which [connectToBoard] starts, in a process whose timer
    queue is [l]: [board] is declared and not assigned, and the firmata board
    is new. *)
Definition initial (l : Loop Callback) : World :=
  mkWorld undefined (mkFirmataBoard [] [] []) undefined 0%nat l [].

Fixpoint run_listeners (id : maybe string) (name : string) (fs : list Listener) : M unit :=
  match fs with
  | [] => ret tt
  | f :: fs' => run_listener id name f ;; run_listeners id name fs'
  end.

(** The firmata board emits [e]. *)
Definition deliver (id : maybe string) (name : string) (e : Event) : M unit :=
  w <- get ;;
  update_fb (consume_once e) ;;
  run_listeners id name (listening e (firmataBoard w)).

Definition fire (t : Timer Callback) : M unit :=
  λ w, run_callback (action t)
         (mkWorld (board w) (firmataBoard w)
                  (connectionTimeout w) (constructed w)
                  (expire t (loop w)) (out w)).

Definition sleep_until (time : Z) : M unit :=
  λ w, (Ok tt, mkWorld (board w) (firmataBoard w)
                 (connectionTimeout w) (constructed w)
                 (mkLoop (Z.max (now (loop w)) time) (fresh (loop w))
                         (pending (loop w)))
                 (out w)).

Fixpoint run_until (fuel : nat) (time : Z) : M bool :=
  λ w,
    match earliest (pending (loop w)) with
    | Some t =>
        if due t <=? time then
          match fuel with
          | O => (Ok false, w)
          | S fuel' => (fire t ;; run_until fuel' time) w
          end
        else (sleep_until time ;; ret true) w
    | None => (sleep_until time ;; ret true) w
    end.

(** Events emitted by the firmata board at given times, in order; each
    carries the firmware name known at that time. *)
Fixpoint play (id : maybe string) (schedule : list (Z * Event * string)) : M bool :=
  match schedule with
  | [] => ret true
  | (time, e, name) :: rest =>
      drained <- run_until 1 time ;;
      if drained then deliver id name e ;; play id rest else ret false
  end.

(** *** Observing a trace *)
Definition connect_callbacks (trace : list (Z * Output)) : list (Z * Outcome) :=
  omap (λ x, match x.2 with
             | boardConnectedCallback o => Some (x.1, o)
             | _ => None
             end) trace.

Definition added (trace : list (Z * Output)) : list (Z * maybe Instance) :=
  omap (λ x, match x.2 with
             | addBoard b => Some (x.1, b)
             | _ => None
             end) trace.

Definition warnings (trace : list (Z * Output)) : list (Z * string) :=
  omap (λ x, match x.2 with
             | Logger_warn message => Some (x.1, message)
             | _ => None
             end) trace.
End Service.
(** *** Vocabulary of the statements *)

(** The timer armed by [connectToBoard] in a process whose timer queue was
    [l0] when it was called: it is due 10 s later. *)
Definition deadline (l0 : Loop Callback) : Timer Callback :=
  mkTimer (fresh l0) (now l0 + 10000) None connection_timed_out.

(** The connection is still waiting for READY: the deadline is pending and
    held in [connectionTimeout], [on_ready] is registered for [ready] only,
    and nothing was reported. *)
Record waiting (l0 : Loop Callback) (w : World) : Prop := {
  waiting_pending : pending (loop w) = [deadline l0];
  waiting_now : now (loop w) ≤ now l0 + 10000;
  waiting_ready : ∀ r, r ∈ listeners (firmataBoard w) → listener r = on_ready → event r = ready;
  waiting_callbacks : connect_callbacks (out w) = [];
  waiting_added : added (out w) = [];
  waiting_warnings : warnings (out w) = [];
}.

(** The deadline has expired. *)
Record timed_out (l0 : Loop Callback) (w : World) : Prop := {
  timed_out_pending : pending (loop w) = [];
  timed_out_listeners : listeners (firmataBoard w) = [];
  timed_out_board : board w = null;
  timed_out_callbacks : connect_callbacks (out w) = [(now l0 + 10000, failure)];
  timed_out_added : added (out w) = [];
  timed_out_warnings :
    warnings (out w) = [(now l0 + 10000, "Timeout connecting to board")];
}.

(** No READY before the deadline: of a connection made at time 0, and of one
    made when the queue was [l0]. *)
Definition early (x : Z * Event * string) : Prop := x.1.1 < 10000 ∧ x.1.2 ≠ ready.
Definition early_from (l0 : Loop Callback) (x : Z * Event * string) : Prop :=
  x.1.1 < now l0 + 10000 ∧ x.1.2 ≠ ready.
Definition late (l0 : Loop Callback) (x : Z * Event * string) : Prop :=
  now l0 + 10000 ≤ x.1.1.

(** The class the firmware name selects in [on_queryfirmware]. *)
Definition class_of (name : string) : Class :=
  if decide (remove_first_ino name = "MajorTom") then MajorTom else Board.

(** A string without a full stop. *)
Fixpoint dotless (s : string) : bool :=
  match s with
  | EmptyString => true
  | String c s' => negb (Ascii.eqb c "."%char) && dotless s'
  end.

(** The arrows of [connectToBoard], as opposed to the listeners of a session. *)
Definition is_arrow (f : Listener) : bool :=
  match f with
  | of_instance _ _ => false
  | _ => true
  end.

Definition arrows : list (Registration Listener) :=
  [mkReg queryfirmware false on_queryfirmware; mkReg ready false on_ready;
   mkReg disconnect false on_disconnect; mkReg close false on_close].

(** The arrow the firmata board calls for an event. *)
Definition arrow_of (e : Event) : list Listener :=
  match e with
  | queryfirmware => [on_queryfirmware]
  | ready => [on_ready]
  | disconnect => [on_disconnect]
  | close => [on_close]
  | _ => []
  end.

(** The four arrows are registered, each once and for its own event, among
    whatever the sessions have registered. *)
Definition wired (w : World) : Prop :=
  filter (λ r, is_arrow (listener r) = true) (listeners (firmataBoard w)) = arrows.

(** The connection is waiting for READY with the arrows in place and the
    deadline held in [connectionTimeout]. *)
Record connecting (l0 : Loop Callback) (w : World) : Prop := {
  connecting_waiting : waiting l0 w;
  connecting_wired : wired w;
  connecting_timeout : connectionTimeout w = defined (handle (deadline l0));
}.

(** The number of sessions constructed over a schedule and the one [board]
    holds at its end, when [n] were constructed before and [b] was held:
    every [queryfirmware] event constructs one. *)
Fixpoint identify (id : maybe string) (schedule : list (Z * Event * string))
    (n : nat) (b : maybe Instance) : nat * maybe Instance :=
  match schedule with
  | [] => (n, b)
  | (_, e, name) :: rest =>
      if decide (e = queryfirmware)
      then identify id rest (S n) (defined (mkInstance (class_of name) id n))
      else identify id rest n b
  end.

(** No timer of [connectToBoard] is pending and no failure was reported. *)
Definition settled (w : World) : Prop :=
  pending (loop w) = [] ∧ Forall (λ x, x.2 ≠ failure) (connect_callbacks (out w)).

End BoardService.

(** ** A device for the worked examples

    A four-pin table in the shape firmata reports for a Wemos D1 mini: pins 0
    and 1 support nothing, pin 2 (the built-in LED) is digital, pin 3 is the
    analog input A0 on channel 0. *)
Module Sample.

Definition unsupported : Pins := mkPins [] undefined (defined (Num 0)) 0 127.
Definition digital : Pins := mkPins [0; 1; 11] undefined (defined (Num 0)) 0 127.
Definition analog : Pins := mkPins [0; 1; 2] undefined (defined (Num 0)) 0 0.

Definition wemos {L : Type} : FirmataBoard L :=
  mkFirmataBoard [unsupported; unsupported; digital; analog] [3%nat] [].

(** A session of [src/domain/board.ts] constructed at time 0. *)
Definition session : Board.World :=
  (Board.constructor undefined undefined (Some wemos) (defined "wemos-1") Node.start).2.

(** The firmata board of that session: the constructor has switched reporting
    on for the built-in LED and for the analog pin, and listens to both. *)
Definition led : Pins := mkPins [0; 1; 11] undefined (defined (Num 0)) 1 127.
Definition a0 : Pins := mkPins [0; 1; 2] undefined (defined (Num 0)) 1 0.
Definition board : FirmataBoard Board.Listener :=
  mkFirmataBoard [unsupported; unsupported; led; a0] [3%nat]
    [mkReg (analog_read 0) false Board.emitUpdate_fn;
     mkReg (digital_read 2) false Board.emitUpdate_fn].

(** A session of the earlier revision constructed at time 0. *)
Definition session0 : Board0.World :=
  (Board0.constructor "Board" wemos (defined "wemos-1") Node.start).2.


(** What reaches the outside, without the time stamps. *)
Definition outputs {O : Type} (trace : list (Z * O)) : list O := trace.*2.

End Sample.

(** [pins.map((pin, index) => …).filter(pin => pin.supportedModes.length > 0)],
    for either revision's snapshot pin: [mk] builds the pin of the snapshot from
    the index and the pin, [pin_of] reads the copied pin back; the indices
    start at [k]. *)
Definition mapped_filtered {IPin : Type} (mk : nat → Pins → IPin) (pin_of : IPin → Pins)
    (k : nat) (l : list Pins) : list IPin :=
  filter (λ p, (0 < length (supportedModes (pin_of p)))%nat) (imap (λ i, mk (k + i)%nat) l).

(** * Properties *)

(** ** Facts about [indexOf] and [splice] *)
Section ArrayFacts.
Context {A : Type} `{EqDecision A}.

Lemma indexOf_from_absent (l : list A) (x : A) (i : Z) :
  x ∉ l → indexOf_from l x i = -1.
Proof.
  revert i. induction l as [|y l IH]; intros i Hx; simpl; [done|].
  apply not_elem_of_cons in Hx as [Hne Hx].
  destruct (decide (y = x)); [congruence|]. by apply IH.
Qed.

Lemma indexOf_from_present (l : list A) (x : A) (i : Z) :
  x ∈ l →
  ∃ k : nat, indexOf_from l x i = i + Z.of_nat k
             ∧ l !! k = Some x ∧ x ∉ take k l.
Proof.
  revert i. induction l as [|y l IH]; intros i Hx; [by apply elem_of_nil in Hx|].
  simpl. destruct (decide (y = x)) as [->|Hne].
  - exists 0%nat. split; [lia|]. split; [done|]. simpl. apply not_elem_of_nil.
  - apply elem_of_cons in Hx as [Hx|Hx]; [congruence|].
    destruct (IH (i + 1) Hx) as (k & Hk & Hl & Ht).
    exists (S k). split; [lia|]. split; [done|].
    simpl. apply not_elem_of_cons. split; [congruence|done].
Qed.

Lemma indexOf_absent (l : list A) (x : A) : x ∉ l → indexOf l x = -1.
Proof. apply indexOf_from_absent. Qed.

(** [splice(-1, 1)] drops the last element, whatever it is. *)
Lemma splice_minus_one (l : list A) (x : A) :
  splice (l ++ [x]) (-1) 1 = l.
Proof.
  unfold splice. rewrite length_app. simpl.
  replace (Z.of_nat (length l + 1)) with (Z.of_nat (length l) + 1) by lia.
  replace (-1 <? 0) with true by done.
  replace (Z.max (Z.of_nat (length l) + 1 + -1) 0) with (Z.of_nat (length l)) by lia.
  replace (Z.min (Z.max 1 0) (Z.of_nat (length l) + 1 - Z.of_nat (length l)))
    with 1 by lia.
  rewrite Nat2Z.id.
  replace (Z.to_nat (Z.of_nat (length l) + 1)) with (length l + 1)%nat by lia.
  rewrite take_app_length.
  rewrite drop_app_ge by lia.
  replace (length l + 1 - length l)%nat with 1%nat by lia.
  simpl. by rewrite app_nil_r.
Qed.

Lemma splice_minus_one_nil : splice (@nil A) (-1) 1 = [].
Proof. reflexivity. Qed.

(** [splice(k, 1)] at a valid index removes exactly that element. *)
Lemma splice_at (l : list A) (k : nat) :
  (k < length l)%nat →
  splice l (Z.of_nat k) 1 = take k l ++ drop (S k) l.
Proof.
  intros Hk. unfold splice.
  replace (Z.of_nat k <? 0) with false by (symmetry; apply Z.ltb_ge; lia).
  replace (Z.min (Z.of_nat k) (Z.of_nat (length l))) with (Z.of_nat k) by lia.
  replace (Z.min (Z.max 1 0) (Z.of_nat (length l) - Z.of_nat k)) with 1 by lia.
  rewrite Nat2Z.id.
  by replace (Z.to_nat (Z.of_nat k + 1)) with (S k) by lia.
Qed.
End ArrayFacts.

(** ** The discrete snapshot *)
Section Snapshot.
Context {IPin : Type} (mk : nat → Pins → IPin) (number_of : IPin → nat) (pin_of : IPin → Pins).
Hypothesis number_mk : ∀ i p, number_of (mk i p) = i.
Hypothesis of_mk : ∀ i p, pin_of (mk i p) = p.

Lemma mapped_filtered_cons (k : nat) (x : Pins) (l : list Pins) :
  mapped_filtered mk pin_of k (x :: l)
  = (if decide (0 < length (supportedModes x))%nat then [mk k x] else [])
      ++ mapped_filtered mk pin_of (S k) l.
Proof.
  unfold mapped_filtered. rewrite imap_cons, filter_cons, of_mk, Nat.add_0_r.
  replace (imap ((λ i, mk (k + i)) ∘ S) l) with (imap (λ i, mk (S k + i)) l).
  - by destruct (decide _).
  - apply imap_ext. intros i y _. simpl. f_equal. lia.
Qed.

Lemma mapped_filtered_elem (k : nat) (l : list Pins) (p : IPin) :
  p ∈ mapped_filtered mk pin_of k l
  ↔ ∃ i x, l !! i = Some x ∧ supportedModes x ≠ [] ∧ p = mk (k + i) x.
Proof.
  unfold mapped_filtered. rewrite list_elem_of_filter, elem_of_lookup_imap. split.
  - intros (Hlen & i & x & -> & Hl). exists i, x. rewrite of_mk in Hlen.
    split; [done|]. split; [|done]. intros E. rewrite E in Hlen. simpl in Hlen. lia.
  - intros (i & x & Hl & Hne & ->). rewrite of_mk. split; [|by eauto].
    destruct (supportedModes x); [done|simpl; lia].
Qed.

Lemma mapped_filtered_bound (k : nat) (l : list Pins) (p : IPin) :
  p ∈ mapped_filtered mk pin_of k l → (k ≤ number_of p)%nat.
Proof.
  rewrite mapped_filtered_elem. intros (i & x & _ & _ & ->). rewrite number_mk. lia.
Qed.

Lemma mapped_filtered_sorted (k : nat) (l : list Pins) :
  StronglySorted lt (number_of <$> mapped_filtered mk pin_of k l).
Proof.
  revert k. induction l as [|x l IH]; intros k.
  - constructor.
  - rewrite mapped_filtered_cons. destruct (decide _); simpl; [|apply IH].
    constructor; [apply IH|]. rewrite number_mk.
    apply Forall_forall. intros n Hn.
    apply list_elem_of_fmap in Hn as (p & -> & Hp).
    apply mapped_filtered_bound in Hp. lia.
Qed.
End Snapshot.

(** C10. The snapshot built by [toDiscrete] lists, in index order, exactly the
    pins whose [supportedModes] is not empty; each carries its index in the pin
    table as [pinNumber] and [analog = (analogChannel != 127)]; [commands] is
    the list of keys of the action table. This holds for a session with a
    firmata board in [src/domain/board.ts] and for every session of the earlier
    revision. *)
Theorem toDiscrete_pins_and_commands :
  (∀ (b : Board.Board) (f : FirmataBoard Board.Listener),
      Board.firmataBoard b = Some f →
      ∃ d ps,
        Board.toDiscrete (defined b) = Eff.Ok d
        ∧ Board.d_pins d = Some ps
        ∧ Board.d_commands d = (Board.availableActions b).*1
        ∧ (∀ p, p ∈ ps ↔
                ∃ i x, pins f !! i = Some x ∧ supportedModes x ≠ []
                       ∧ p = Board.mkIPin i (bool_decide (analogChannel x ≠ 127)) x)
        ∧ StronglySorted lt (Board.pinNumber <$> ps))
  ∧ (∀ b : Board0.Board,
        let d := Board0.toDiscrete b in
        Board0.d_commands d = (Board0.availableActions b).*1
        ∧ (∀ p, p ∈ Board0.d_pins d ↔
                ∃ i x, pins (Board0.firmataBoard b) !! i = Some x ∧ supportedModes x ≠ []
                       ∧ p = Board0.mkIPin i (bool_decide (analogChannel x ≠ 127)) x)
        ∧ StronglySorted lt (Board0.pinNumber <$> Board0.d_pins d)).
Proof.
  assert (Hb : ∀ z : Z, negb (z =? 127) = bool_decide (z ≠ 127)).
  { intros z. destruct (Z.eqb_spec z 127); case_bool_decide; simpl; congruence. }
  split.
  - intros b f Hf.
    pose (mk := λ i p, Board.mkIPin i (negb (analogChannel p =? 127)) p).
    exists (Board.mkIBoard (Board.id b) (Board.name b) (Board.vendorId b)
              (Board.productId b) (Board.type b) (Board.currentProgram b)
              (Board.online b) (Board.getAvailableActions b)
              (Some (mapped_filtered mk Board.pin 0 (pins f)))),
           (mapped_filtered mk Board.pin 0 (pins f)).
    split; [unfold Board.toDiscrete; by rewrite Hf|].
    split; [done|]. split; [done|]. split.
    + intros p. rewrite (mapped_filtered_elem mk Board.pin) by done.
      unfold mk. by setoid_rewrite Hb.
    + by apply (mapped_filtered_sorted mk Board.pinNumber Board.pin).
  - intros b0 d.
    pose (mk := λ i p, Board0.mkIPin i (negb (analogChannel p =? 127)) p).
    change (Board0.d_pins d) with (mapped_filtered mk Board0.pin 0 (pins (Board0.firmataBoard b0))).
    split; [done|]. split.
    + intros p. rewrite (mapped_filtered_elem mk Board0.pin) by done.
      unfold mk. by setoid_rewrite Hb.
    + by apply (mapped_filtered_sorted mk Board0.pinNumber Board0.pin).
Qed.

(** ** Cancelling a timer of the session *)
Section ClearTimers.
Import Board.

Lemma clearInterval_unfold (t : maybe Node.Timeout) (w : World) :
  clearInterval t w
  = (Eff.Ok tt,
     mkWorld (set_intervals
                (splice (intervals (this w)) (indexOf_slot (intervals (this w)) t) 1)
                (this w))
             (Node.clear t (loop w)) (out w)).
Proof. reflexivity. Qed.

Lemma clearTimeout_unfold (t : maybe Node.Timeout) (w : World) :
  clearTimeout t w
  = (Eff.Ok tt,
     mkWorld (set_timeouts
                (splice (timeouts (this w)) (indexOf_slot (timeouts (this w)) t) 1)
                (this w))
             (Node.clear t (loop w)) (out w)).
Proof. reflexivity. Qed.

(** A timer that is not in the list is searched at index [-1], and
    [splice(-1, 1)] then removes the last tracked timer instead. *)
Lemma splice_untracked (tracked : list Node.Timeout) (last : Node.Timeout)
    (t : maybe Node.Timeout) :
  (∀ h, t = defined h → h ∉ tracked ++ [last]) →
  splice (tracked ++ [last]) (indexOf_slot (tracked ++ [last]) t) 1 = tracked.
Proof.
  intros Ht.
  assert (E : indexOf_slot (tracked ++ [last]) t = -1).
  { destruct t as [| |h]; [done|done|]. simpl. apply indexOf_absent. by apply Ht. }
  rewrite E. apply splice_minus_one.
Qed.

(** A tracked timer is found and removed, and nothing else is. *)
Lemma splice_tracked (l : list Node.Timeout) (h : Node.Timeout) :
  h ∈ l →
  ∃ k : nat, l !! k = Some h ∧ (h ∉ take k l)
             ∧ splice l (indexOf_slot l (defined h)) 1 = take k l ++ drop (S k) l.
Proof.
  intros Hh. destruct (indexOf_from_present l h 0 Hh) as (k & Hk & Hl & Ht).
  exists k. split; [done|]. split; [done|].
  simpl. unfold indexOf. rewrite Hk, Z.add_0_l.
  apply splice_at. by eapply lookup_lt_Some.
Qed.

Lemma is_pending_clear (h h' : Node.Timeout) (l : Node.Loop Callback) :
  Node.is_pending h' (Node.clear (defined h) l)
  = Node.is_pending h' l && negb (Nat.eqb h' h).
Proof.
  unfold Node.is_pending, Node.clear. cbn [Node.pending].
  induction (Node.pending l) as [|x xs IH]; [done|].
  rewrite filter_cons. cbn [existsb].
  destruct (decide (Node.handle x ≠ h)) as [Hne|Heq].
  - cbn [existsb]. rewrite IH.
    destruct (Nat.eqb_spec (Node.handle x) h') as [Hx|Hx]; [|done].
    subst h'. destruct (Nat.eqb_spec (Node.handle x) h); [done|]. done.
  - apply dec_stable in Heq. rewrite IH, Heq.
    destruct (Nat.eqb_spec h h') as [Hx|Hx]; [|done].
    subst h'. rewrite Nat.eqb_refl. cbn [negb]. by rewrite !andb_false_r.
Qed.

(** X3. Clearing a timer that is in the list removes its first occurrence,
    and only that, and cancels the timer. *)
Theorem clearInterval_of_a_tracked_timer (w : World) (h : Node.Timeout) :
  h ∈ intervals (this w) →
  ∃ k : nat,
    intervals (this w) !! k = Some h
    ∧ (h ∉ take k (intervals (this w)))
    ∧ clearInterval (defined h) w
      = (Eff.Ok tt,
         mkWorld (set_intervals
                    (take k (intervals (this w)) ++ drop (S k) (intervals (this w)))
                    (this w))
                 (Node.clear (defined h) (loop w)) (out w))
    ∧ Node.is_pending h (Node.clear (defined h) (loop w)) = false.
Proof.
  intros Hh. destruct (splice_tracked _ _ Hh) as (k & Hk & Hn & Hs).
  exists k. split; [done|]. split; [done|]. split.
  - by rewrite clearInterval_unfold, Hs.
  - rewrite is_pending_clear, Nat.eqb_refl. apply andb_false_r.
Qed.

Lemma clearInterval_of_a_tracked_timer_witness :
  ∃ k : nat,
    intervals (this Sample.session) !! k = Some 0%nat
    ∧ (0%nat ∉ take k (intervals (this Sample.session)))
    ∧ clearInterval (defined 0%nat) Sample.session
      = (Eff.Ok tt,
         mkWorld (set_intervals
                    (take k (intervals (this Sample.session))
                       ++ drop (S k) (intervals (this Sample.session)))
                    (this Sample.session))
                 (Node.clear (defined 0%nat) (loop Sample.session)) (out Sample.session))
    ∧ Node.is_pending 0%nat (Node.clear (defined 0%nat) (loop Sample.session)) = false.
Proof.
  apply (clearInterval_of_a_tracked_timer Sample.session 0%nat).
  vm_compute. apply elem_of_cons. by left.
Defined.

(** X4. Clearing anything that is not in a non-empty list (a timer of
    somebody else, [undefined], [null], a timer cleared before) removes the
    last tracked timer from the list and leaves it pending if it was. *)
Theorem clearInterval_of_an_untracked_timer
    (w : World) (tracked : list Node.Timeout) (last : Node.Timeout)
    (t : maybe Node.Timeout) :
  intervals (this w) = tracked ++ [last] →
  (∀ h, t = defined h → h ∉ tracked ++ [last]) →
  intervals (this (clearInterval t w).2) = tracked
  ∧ Node.is_pending last (loop (clearInterval t w).2) = Node.is_pending last (loop w).
Proof.
  intros Hi Ht. rewrite clearInterval_unfold. cbn [snd this loop]. split.
  - cbn [set_intervals intervals]. rewrite Hi. by apply splice_untracked.
  - destruct t as [| |h]; [done|done|].
    rewrite is_pending_clear.
    destruct (Nat.eqb_spec last h) as [->|Hne]; [|by rewrite andb_true_r].
    exfalso. apply (Ht h eq_refl). apply elem_of_app. right. apply elem_of_cons. by left.
Qed.

Lemma clearInterval_of_an_untracked_timer_witness :
  intervals (this (clearInterval null Sample.session).2) = []
  ∧ Node.is_pending 0%nat (loop (clearInterval null Sample.session).2)
    = Node.is_pending 0%nat (loop Sample.session).
Proof.
  apply (clearInterval_of_an_untracked_timer Sample.session [] 0%nat null).
  - reflexivity.
  - intros h H. discriminate H.
Defined.
End ClearTimers.

(** C8. Clearing a timer that the session does not track is not a no-op: the
    session of the worked example tracks its heartbeat interval only;
    [clearInterval(undefined)] (what [BLINKOFF] does when no blink is running)
    empties the list while the heartbeat stays pending in the timer queue, and
    clearing an already cleared deadline a second time drops another tracked
    deadline. *)
Theorem clearing_an_untracked_timer_drops_the_last_tracked_one :
  Board.intervals (Board.this Sample.session) = [0%nat]
  ∧ (let w := (Board.clearInterval undefined Sample.session).2 in
     Board.intervals (Board.this w) = []
     ∧ Node.is_pending 0%nat (Board.loop w) = true)
  ∧ (let w := (Board.executeAction "BLINKOFF" undefined Sample.session).2 in
     Board.intervals (Board.this w) = []
     ∧ Node.is_pending 0%nat (Board.loop w) = true)
  ∧ (let tracked := Board.set_timeouts [7%nat; 8%nat] (Board.this Sample.session) in
     let w := Board.mkWorld tracked (Board.loop Sample.session) [] in
     let once := (Board.clearTimeout (defined 7%nat) w).2 in
     let twice := (Board.clearTimeout (defined 7%nat) once).2 in
     Board.timeouts (Board.this once) = [8%nat]
     ∧ Board.timeouts (Board.this twice) = [])
  ∧ (let w := (Board0.clearInterval undefined Sample.session0).2 in
     Board0.intervals (Board0.this Sample.session0) = [0%nat]
     ∧ Board0.intervals (Board0.this w) = []
     ∧ Node.is_pending 0%nat (Board0.loop w) = true).
Proof. vm_compute. repeat split. Qed.

(** ** Writing a pin *)
Section SetPinValue.
Import Board Eff.

Lemma at_index_index {A} (l : list A) (i : nat) : at_index l (index i) = l !! i.
Proof.
  unfold at_index, index.
  replace (Z.of_nat i <? 0) with false by (symmetry; apply Z.ltb_ge; lia).
  by rewrite Nat2Z.id.
Qed.

Lemma isAnalogPin_digital (w : World) (f : FirmataBoard Listener) (i : nat) (p : Pins) :
  firmataBoard (this w) = Some f → pins f !! i = Some p → digital_pin p →
  isAnalogPin (index i) w = (Ok false, w).
Proof.
  intros Hf Hp (_ & _ & Hna).
  unfold isAnalogPin, fb, get_this, bind, ret. rewrite Hf. cbn -[at_index index].
  rewrite at_index_index, Hp. by rewrite bool_decide_eq_false_2.
Qed.

Lemma isDigitalPin_digital (w : World) (f : FirmataBoard Listener) (i : nat) (p : Pins) :
  firmataBoard (this w) = Some f → pins f !! i = Some p → digital_pin p →
  isDigitalPin (index i) w = (Ok true, w).
Proof.
  intros Hf Hp (Hch & Hm & Hna).
  unfold isDigitalPin, fb, get_this, bind, ret. rewrite Hf. cbn -[at_index index].
  rewrite at_index_index, Hp, Hch. rewrite bool_decide_eq_false_2 by done.
  destruct (supportedModes p); [done|]. simpl. repeat f_equal.
Qed.

Lemma bind_ok {W E A B} (m : Eff.M W E A) (k : A → Eff.M W E B) (w w' : W) (a : A) :
  m w = (Ok a, w') → bind m k w = k a w'.
Proof. intros H. unfold bind. by rewrite H. Qed.

Lemma bind_throw {W E A B} (m : Eff.M W E A) (k : A → Eff.M W E B) (w w' : W) (e : E) :
  m w = (Throw e, w') → bind m k w = (Throw e, w').
Proof. intros H. unfold bind. by rewrite H. Qed.

(** With a firmata board, [emitUpdate] emits [update] with the snapshot of
    the session as it is then. *)
Lemma emitUpdate_ok (w : World) (f : FirmataBoard Listener) :
  firmataBoard (this w) = Some f →
  ∃ d, toDiscrete (defined (this w)) = Ok d
       ∧ emitUpdate w
         = (Ok tt, mkWorld (this w) (loop w)
                     (out w ++ [(Node.now (loop w), emit update (Some d))])).
Proof.
  intros Hf. unfold emitUpdate, fb, get_this, bind, ret. rewrite Hf.
  destruct (toDiscrete (defined (this w))) as [d|e] eqn:E.
  - by exists d.
  - discriminate E.
Qed.

(** C9. On a digital pin, [setPinValue] with a value other than HIGH or LOW
    writes nothing to the device and logs one warning; with HIGH or LOW it
    makes exactly one [digitalWrite] of that value; either way the next and
    last output is an [update] event carrying the snapshot of the session. *)
Theorem setPinValue_on_a_digital_pin
    (w : World) (f : FirmataBoard Listener) (i : nat) (p : Pins) (v : number) :
  firmataBoard (this w) = Some f → pins f !! i = Some p → digital_pin p →
  ∃ w' d,
    setPinValue (index i) (defined v) w = (Ok tt, w')
    ∧ toDiscrete (defined (this w')) = Ok d
    ∧ loop w' = loop w
    ∧ out w'
      = out w
          ++ [(Node.now (loop w),
               if decide (v = HIGH ∨ v = LOW)
               then digitalWrite (index i) (defined v)
               else log_warn (Tried_to_write (defined v) (index i)));
              (Node.now (loop w), emit update (Some d))]
    ∧ this w'
      = if decide (v = HIGH ∨ v = LOW)
        then set_firmataBoard (Some (store_value i (defined v) f)) (this w)
        else this w.
Proof.
  intros Hf Hp Hd.
  unfold setPinValue.
  rewrite (bind_ok _ _ w w tt) by done.
  rewrite (bind_ok _ _ w w tt) by done.
  rewrite (bind_ok _ _ _ _ _ (isAnalogPin_digital w f i p Hf Hp Hd)).
  cbn beta iota. unfold bind at 1.
  rewrite (bind_ok _ _ _ _ _ (isDigitalPin_digital w f i p Hf Hp Hd)).
  cbn beta iota.
  assert (Hv : negb (strict_eq_slot (defined v) (defined HIGH))
               && negb (strict_eq_slot (defined v) (defined LOW))
               = if decide (v = HIGH ∨ v = LOW) then false else true).
  { unfold HIGH, LOW.
    destruct (decide (v = Num 1 ∨ v = Num 0)) as [[->| ->]|Hn]; [done|done|].
    destruct v as [|z]; [done|]. simpl.
    destruct (Z.eqb_spec z 1) as [->|]; [exfalso; apply Hn; auto|].
    destruct (Z.eqb_spec z 0) as [->|]; [exfalso; apply Hn; auto|]. done. }
  rewrite Hv. destruct (decide (v = HIGH ∨ v = LOW)) as [Hhl|Hhl].
  - set (w1 := mkWorld (set_firmataBoard (Some (store_value i (defined v) f)) (this w))
                       (loop w)
                       (out w ++ [(Node.now (loop w), digitalWrite (index i) (defined v))])).
    assert (E : fb_digitalWrite (index i) (defined v) w = (Ok tt, w1)).
    { unfold fb_digitalWrite, tell, update_fb, fb, get_this, update_this, bind, ret. simpl.
      rewrite Hf. simpl. by rewrite Nat2Z.id. }
    rewrite E.
    destruct (emitUpdate_ok w1 (store_value i (defined v) f) eq_refl) as (d & Hd1 & Hd2).
    exists (mkWorld (this w1) (loop w1)
                    (out w1 ++ [(Node.now (loop w1), emit update (Some d))])), d.
    split; [done|]. split; [done|]. split; [done|]. split; [|done].
    simpl. by rewrite <- app_assoc.
  - set (w1 := mkWorld (this w) (loop w)
                 (out w ++ [(Node.now (loop w),
                             log_warn (Tried_to_write (defined v) (index i)))])).
    assert (E : tell (log_warn (Tried_to_write (defined v) (index i))) w = (Ok tt, w1))
      by reflexivity.
    rewrite E.
    destruct (emitUpdate_ok w1 f Hf) as (d & Hd1 & Hd2).
    exists (mkWorld (this w1) (loop w1)
                    (out w1 ++ [(Node.now (loop w1), emit update (Some d))])), d.
    split; [done|]. split; [done|]. split; [done|]. split; [|done].
    simpl. by rewrite <- app_assoc.
Qed.

(** The built-in LED of the worked example is a digital pin: writing 2 to it
    logs the warning, writing 1 makes the write. *)
Lemma setPinValue_on_a_digital_pin_witness :
  (∃ w' d,
      setPinValue (index 2) (defined (Num 2)) Sample.session = (Ok tt, w')
      ∧ toDiscrete (defined (this w')) = Ok d
      ∧ loop w' = loop Sample.session
      ∧ out w'
        = out Sample.session
            ++ [(0, log_warn (Tried_to_write (defined (Num 2)) (index 2)));
                (0, emit update (Some d))]
      ∧ this w' = this Sample.session)
  ∧ Sample.outputs
      (out (setPinValue (index 2) (defined HIGH) Sample.session).2)
    = Sample.outputs (out Sample.session)
        ++ [digitalWrite (index 2) (defined HIGH);
            emit update
              (Some (mkIBoard (defined "wemos-1") undefined undefined undefined
                       undefined "idle" true
                       ["BLINKON"; "BLINKOFF"; "TOGGLELED"; "SETPINVALUE"]
                       (Some [mkIPin 2 false
                                (mkPins [0; 1; 11] undefined (defined HIGH) 1 127);
                              mkIPin 3 true Sample.a0])))].
Proof.
  split.
  - assert (Hf : firmataBoard (this Sample.session) = Some Sample.board)
      by (vm_compute; reflexivity).
    assert (Hd : digital_pin Sample.led).
    { repeat split; [done|]. vm_compute. intros H.
      repeat (apply elem_of_cons in H as [H|H]; [discriminate|]).
      by apply elem_of_nil in H. }
    destruct (setPinValue_on_a_digital_pin Sample.session Sample.board 2 Sample.led (Num 2)
                Hf eq_refl Hd) as (w' & d & E & Ed & Hl & Ho & Ht).
    rewrite decide_False in Ho by (by intros [[=]|[=]]).
    rewrite decide_False in Ht by (by intros [[=]|[=]]).
    replace (Node.now (loop Sample.session)) with 0 in Ho by (vm_compute; reflexivity).
    exists w', d. split; [exact E|]. split; [exact Ed|]. split; [exact Hl|].
    split; [exact Ho|exact Ht].
  - vm_compute. reflexivity.
Defined.
End SetPinValue.

(** ** Dispatching an action *)
Section ExecuteAction.
Import Board Eff.

Lemma indexOf_nonneg_iff {A} `{EqDecision A} (l : list A) (x : A) :
  (0 <=? indexOf l x) = bool_decide (x ∈ l).
Proof.
  destruct (decide (x ∈ l)) as [Hin|Hout].
  - rewrite bool_decide_eq_true_2 by done.
    destruct (indexOf_from_present l x 0 Hin) as (k & Hk & _).
    unfold indexOf. rewrite Hk. apply Z.leb_le. lia.
  - rewrite bool_decide_eq_false_2 by done.
    by rewrite indexOf_absent.
Qed.

Lemma property_of_key (table : list (string * Method)) (key : string) :
  key ∈ table.*1 →
  ∃ m, property table key = Some m ∧ (key, m) ∈ table.
Proof.
  induction table as [|[k m] table IH]; intros Hk; [by apply elem_of_nil in Hk|].
  simpl. destruct (decide (k = key)) as [->|Hne].
  - exists m. split; [done|]. apply elem_of_cons. by left.
  - apply elem_of_cons in Hk as [Hk|Hk]; [simpl in Hk; congruence|].
    destruct (IH Hk) as (m' & Hp & Hin). exists m'. split; [done|].
    apply elem_of_cons. by right.
Qed.

(** C4. [executeAction] on a name that is not a key of the action table throws
    [CommandUnavailable] and leaves the whole world as it was: the session, the
    timer queue and the outputs (nothing is written or logged). On a key of
    the table it logs, calls the handler stored under that key with the given
    parameters, and then emits [update]. *)
Theorem executeAction_dispatch
    (w : World) (action : string) (parameters : maybe (list string)) :
  (action ∉ getAvailableActions (this w) →
   executeAction action parameters w
   = (Throw (CommandUnavailable action (id (this w))), w))
  ∧ (action ∈ getAvailableActions (this w) →
     ∃ m, (action, m) ∈ availableActions (this w)
          ∧ property (availableActions (this w)) action = Some m
          ∧ executeAction action parameters w
            = (tell (log_debug (Executing_method action)) ;;
               invoke m (spread parameters) ;;
               emitUpdate)%eff w).
Proof.
  split.
  - intros Hout. unfold executeAction.
    assert (E : isAvailableAction action w = (Ok false, w)).
    { unfold isAvailableAction, get_this, bind, ret.
      rewrite indexOf_nonneg_iff. by rewrite bool_decide_eq_false_2. }
    rewrite (bind_ok _ _ _ _ _ E). reflexivity.
  - intros Hin. destruct (property_of_key _ _ Hin) as (m & Hp & Hm).
    exists m. split; [done|]. split; [done|].
    unfold executeAction.
    assert (E : isAvailableAction action w = (Ok true, w)).
    { unfold isAvailableAction, get_this, bind, ret.
      rewrite indexOf_nonneg_iff. by rewrite bool_decide_eq_true_2. }
    rewrite (bind_ok _ _ _ _ _ E). cbn [negb].
    rewrite (bind_ok _ _ w w tt) by done.
    unfold bind at 1. unfold bind at 3.
    destruct (tell (log_debug (Executing_method action)) w) as [[[]|e] w1] eqn:Ht;
      [|done].
    assert (Hw1 : availableActions (this w1) = availableActions (this w))
      by (injection Ht as <-; done).
    unfold bind at 1. unfold get_this at 1. cbn beta iota. rewrite Hw1, Hp.
    destruct parameters as [| |[|p ps]]; reflexivity.
Qed.

Lemma executeAction_dispatch_witness :
  executeAction "SELFDESTRUCT" (defined ["1"]) Sample.session
  = (Throw (CommandUnavailable "SELFDESTRUCT" (defined "wemos-1")), Sample.session)
  ∧ (∃ m, ("TOGGLELED", m) ∈ availableActions (this Sample.session)
          ∧ property (availableActions (this Sample.session)) "TOGGLELED" = Some m
          ∧ executeAction "TOGGLELED" undefined Sample.session
            = (tell (log_debug (Executing_method "TOGGLELED")) ;;
               invoke m (spread undefined) ;;
               emitUpdate)%eff Sample.session).
Proof.
  split.
  - apply (proj1 (executeAction_dispatch Sample.session "SELFDESTRUCT" (defined ["1"]))).
    vm_compute. intros H.
    repeat (apply elem_of_cons in H as [H|H]; [discriminate|]).
    by apply elem_of_nil in H.
  - apply (proj2 (executeAction_dispatch Sample.session "TOGGLELED" undefined)).
    vm_compute. do 2 (apply elem_of_cons; right). apply elem_of_cons. by left.
Defined.
End ExecuteAction.

(** The snapshot of the worked example lists pins 2 and 3. *)
Lemma toDiscrete_pins_and_commands_witness :
  ∃ d ps,
    Board.toDiscrete (defined (Board.this Sample.session)) = Eff.Ok d
    ∧ Board.d_pins d = Some ps
    ∧ Board.d_commands d = (Board.availableActions (Board.this Sample.session)).*1
    ∧ (∀ p, p ∈ ps ↔
            ∃ i x, pins Sample.board !! i = Some x
                   ∧ supportedModes x ≠ []
                   ∧ p = Board.mkIPin i (bool_decide (analogChannel x ≠ 127)) x)
    ∧ StronglySorted lt (Board.pinNumber <$> ps).
Proof.
  destruct (proj1 toDiscrete_pins_and_commands (Board.this Sample.session) Sample.board
              eq_refl) as (d & ps & H).
  exists d, ps. exact H.
Defined.

(** ** What [executeAction] can throw *)
Section Malformed.
Import Eff Board.

Lemma nm_ret {A} (a : A) : never_malformed (ret a).
Proof. by intros w. Qed.

Lemma nm_bind {A B} (m : M A) (k : A → M B) :
  never_malformed m → (∀ a, never_malformed (k a)) → never_malformed (bind m k).
Proof.
  intros Hm Hk w. unfold bind. specialize (Hm w).
  destruct (m w) as [[a|e] w']; simpl in *; [apply Hk|done].
Qed.

Lemma nm_TypeError {A} : never_malformed (throw (A := A) TypeError).
Proof. by intros w. Qed.

Lemma nm_CommandUnavailable {A} (action : string) (id : maybe string) :
  never_malformed (throw (A := A) (CommandUnavailable action id)).
Proof. by intros w. Qed.

Lemma nm_get_this : never_malformed get_this.
Proof. by intros w. Qed.

Lemma nm_update_this (f : Board → Board) : never_malformed (update_this f).
Proof. by intros w. Qed.

Lemma nm_tell (o : Output) : never_malformed (tell o).
Proof. by intros w. Qed.

Lemma nm_global_clear (t : maybe Node.Timeout) : never_malformed (global_clear t).
Proof. by intros w. Qed.

Lemma nm_global_setInterval (cb : Callback) (ms : Z) :
  never_malformed (global_setInterval cb ms).
Proof. by intros w. Qed.

Create HintDb nm discriminated.
#[local] Hint Resolve nm_ret nm_TypeError nm_CommandUnavailable nm_get_this
  nm_update_this nm_tell nm_global_clear nm_global_setInterval : nm.

Ltac nm :=
  repeat first
    [ apply nm_bind; [|intros ?]
    | solve [auto with nm]
    | match goal with
      | |- never_malformed (if ?b then _ else _) => destruct b
      | |- never_malformed (match ?x with _ => _ end) => destruct x
      end ].

Lemma nm_fb : never_malformed fb.
Proof. unfold fb. nm. Qed.
#[local] Hint Resolve nm_fb : nm.

Lemma nm_update_fb (g : FirmataBoard Listener → FirmataBoard Listener) :
  never_malformed (update_fb g).
Proof. unfold update_fb. nm. Qed.
#[local] Hint Resolve nm_update_fb : nm.

Lemma nm_emitUpdate : never_malformed emitUpdate.
Proof.
  intros w. unfold emitUpdate, fb, get_this, bind, ret.
  by destruct (firmataBoard (this w)).
Qed.
#[local] Hint Resolve nm_emitUpdate : nm.

Lemma nm_isAnalogPin (pin : maybe number) : never_malformed (isAnalogPin pin).
Proof. unfold isAnalogPin. nm. Qed.

Lemma nm_isDigitalPin (pin : maybe number) : never_malformed (isDigitalPin pin).
Proof. unfold isDigitalPin. nm. Qed.
#[local] Hint Resolve nm_isAnalogPin nm_isDigitalPin : nm.

(** The two guards of [setPinValue] compare with [null]; an argument that is
    a number, [NaN] included, passes them. *)
Lemma nm_setPinValue (pin value : number) :
  never_malformed (setPinValue (defined pin) (defined value)).
Proof.
  unfold setPinValue, fb_analogWrite, fb_digitalWrite.
  destruct (decide (defined pin = null)) as [E|_]; [discriminate E|].
  destruct (decide (defined value = null)) as [E|_]; [discriminate E|].
  nm.
Qed.
#[local] Hint Resolve nm_setPinValue : nm.

Lemma nm_toggleLED : never_malformed toggleLED.
Proof. unfold toggleLED. nm. Qed.

Lemma nm_clearInterval (t : maybe Node.Timeout) : never_malformed (clearInterval t).
Proof. unfold clearInterval. nm. Qed.
#[local] Hint Resolve nm_toggleLED nm_clearInterval : nm.

Lemma nm_enableBlinkLed (enable : bool) : never_malformed (enableBlinkLed enable).
Proof. unfold enableBlinkLed, setIdle. nm. Qed.
#[local] Hint Resolve nm_enableBlinkLed : nm.

Lemma nm_invoke (m : Method) (parameters : list string) :
  never_malformed (invoke m parameters).
Proof. destruct m; simpl; nm. Qed.
#[local] Hint Resolve nm_invoke : nm.

Lemma nm_executeAction (action : string) (parameters : maybe (list string)) :
  never_malformed (executeAction action parameters).
Proof. unfold executeAction, isAvailableAction. nm. Qed.

(** C5. [executeAction("SETPINVALUE", …)] never fails with [CommandMalformed]:
    the handler passes the results of [parseInt] on, which are numbers or
    [NaN] and never [null], the only value the guards of [setPinValue] test
    for. With [value] missing the call returns normally after a warning; with
    an unparseable [pin] it dies on the pin table with a [TypeError]. *)
Theorem SETPINVALUE_never_throws_CommandMalformed :
  (∀ (w : World) (parameters : maybe (list string)),
      is_malformed (executeAction "SETPINVALUE" parameters w).1 = false)
  ∧ (let r := executeAction "SETPINVALUE" (defined ["2"]) Sample.session in
     r.1 = Ok tt
     ∧ Sample.outputs (drop 3 (out r.2))
       = [log_debug (Executing_method "SETPINVALUE");
          log_warn (Tried_to_write (defined NaN) (defined (Num 2)));
          emit update (payload (this Sample.session));
          emit update (payload (this Sample.session))])
  ∧ (executeAction "SETPINVALUE" (defined ["abc"; "1"]) Sample.session).1
    = Throw TypeError
  ∧ (executeAction "SETPINVALUE" undefined Sample.session).1 = Throw TypeError.
Proof.
  split; [intros w parameters; apply nm_executeAction|].
  vm_compute. repeat split.
Qed.
End Malformed.

(** ** Readings from the device *)
Section Readings.
Import Eff Board.

(** C1. In [src/domain/board.ts] the listener of an analog pin is [emitUpdate]
    itself: two identical readings of channel 0, one second apart, produce two
    [update] events, and [previousAnalogValue] is never written. Digital
    readings emit [update] every time, as they are meant to. *)
Theorem analog_reading_emits_update_without_comparison :
  let w := ((run_until 1 1000 ;; analog_message 0 (Num 512) ;;
             run_until 1 2000 ;; analog_message 0 (Num 512))%eff Sample.session).2 in
  listening (analog_read 0) Sample.wemos = ([] : list Listener)
  ∧ (firmataBoard (this Sample.session) ≫= λ f, Some (listening (analog_read 0) f))
    = Some [emitUpdate_fn]
  ∧ emitted update (out Sample.session) = []
  ∧ emitted update (out w) = [1000; 2000]
  ∧ previousAnalogValue (this w) = ∅
  ∧ emitted update
      (out ((run_until 1 1000 ;; digital_message 2 (Num 1) ;;
             run_until 1 2000 ;; digital_message 2 (Num 1))%eff Sample.session).2)
    = [1000; 2000].
Proof. vm_compute. repeat split. Qed.
End Readings.

Section Readings0.
Import Eff Node Board0.

Lemma emitted_app (e : Event) (t1 t2 : list (Z * Output)) :
  emitted e (t1 ++ t2) = emitted e t1 ++ emitted e t2.
Proof. unfold emitted. by rewrite filter_app, fmap_app. Qed.

Lemma compareAnalogReadout_unchanged (pin : nat) (value previous : number) (w : World) :
  previousAnalogValue (this w) !! pin = Some previous → strict_eq previous value = true →
  compareAnalogReadout pin value w = (Ok tt, w).
Proof.
  intros Hp He. unfold compareAnalogReadout, get_this, bind, ret. by rewrite Hp, He.
Qed.

Lemma compareAnalogReadout_changed (pin : nat) (value : number) (w : World) :
  match previousAnalogValue (this w) !! pin with
  | Some previous => strict_eq previous value
  | None => false
  end = false →
  compareAnalogReadout pin value w
  = (Ok tt,
     mkWorld (set_previousAnalogValue (<[pin := value]> (previousAnalogValue (this w)))
                (this w))
             (loop w) (out w ++ [(now (loop w), emit update)])).
Proof.
  intros Hp. unfold compareAnalogReadout, get_this, bind, ret. by rewrite Hp.
Qed.

(** X1. In the earlier revision the analog listener is [compareAnalogReadout]:
    over any sequence of readings of a pin it emits one [update] per reading that
    differs from the one before it, and none for a repeated reading. *)
Theorem compareAnalogReadout_emits_once_per_change
    (pin : nat) (readings : list number) (w : World) :
  ∃ w',
    read_all pin readings w = (Ok tt, w')
    ∧ loop w' = loop w
    ∧ emitted update (out w')
      = emitted update (out w)
          ++ replicate (changes (previousAnalogValue (this w) !! pin) readings)
                       (now (loop w)).
Proof.
  revert w. induction readings as [|value rest IH]; intros w.
  - exists w. split; [done|]. split; [done|]. simpl. by rewrite app_nil_r.
  - cbn [read_all changes].
    destruct (match previousAnalogValue (this w) !! pin with
              | Some previous => strict_eq previous value
              | None => false
              end) eqn:Hc.
    + destruct (previousAnalogValue (this w) !! pin) as [previous|] eqn:Hp; [|done].
      destruct (IH w) as (w' & E & Hl & Ho).
      exists w'. split; [|split; [done|]].
      * unfold bind. by rewrite (compareAnalogReadout_unchanged pin value previous w Hp Hc).
      * rewrite Ho, Hp.
        assert (Hv : changes (Some value) rest = changes (Some previous) rest).
        { destruct rest as [|next rest']; [done|]. simpl.
          destruct previous as [|x], value as [|y]; try done. simpl in Hc.
          apply Z.eqb_eq in Hc. by subst. }
        by rewrite Hv.
    + set (w1 := mkWorld (set_previousAnalogValue
                            (<[pin := value]> (previousAnalogValue (this w))) (this w))
                         (loop w) (out w ++ [(now (loop w), emit update)])).
      destruct (IH w1) as (w' & E & Hl & Ho).
      exists w'. split; [|split; [done|]].
      * unfold bind. by rewrite (compareAnalogReadout_changed pin value w Hc).
      * rewrite Ho. unfold w1. cbn [this out loop set_previousAnalogValue previousAnalogValue].
        rewrite lookup_insert_eq, emitted_app, <- app_assoc. reflexivity.
Qed.
End Readings0.

(** ** Loops over an array *)
Section Loops.
Import Eff.
Context {W E A : Type}.

Lemma forEach_from_invariant (J : W → Prop) (l : list A) (f : A → nat → M W E unit) (i : nat) :
  (∀ k x w, l !! k = Some x → J w → ∃ w', f x (i + k)%nat w = (Ok tt, w') ∧ J w') →
  ∀ w, J w → ∃ w', forEach_from l i f w = (Ok tt, w') ∧ J w'.
Proof.
  revert i. induction l as [|x l IH]; intros i Hf w Hw.
  - by exists w.
  - destruct (Hf 0%nat x w eq_refl Hw) as (w1 & E1 & Hw1).
    rewrite Nat.add_0_r in E1.
    destruct (IH (S i)) with (w := w1) as (w2 & E2 & Hw2); [|done|].
    { intros k y w' Hk Hw'. replace (S i + k)%nat with (i + S k)%nat by lia.
      by apply Hf. }
    exists w2. split; [|done]. simpl. unfold bind. by rewrite E1.
Qed.
End Loops.

(** ** Disconnecting *)
Section Disconnect.
Import Eff Node Board.

Lemma clear_each (l : list Timeout) (i : nat) (w : World) :
  forEach_from l i (λ t _, global_clear (defined t)) w
  = (Ok tt,
     mkWorld (this w)
       (mkLoop (now (loop w)) (fresh (loop w))
               (filter (λ x, handle x ∉ l) (pending (loop w))))
       (out w)).
Proof.
  revert i w. induction l as [|t l IH]; intros i w.
  - simpl. unfold ret. destruct w as [b [nw fr pd] o]. simpl. repeat f_equal.
    symmetry. induction pd as [|x pd IHpd]; [done|].
    rewrite filter_cons_True by apply not_elem_of_nil. by rewrite IHpd.
  - simpl. unfold bind, global_clear. simpl. rewrite IH. simpl. repeat f_equal.
    rewrite list_filter_filter. apply list_filter_iff. intros x.
    rewrite not_elem_of_cons. tauto.
Qed.

Lemma clearAllIntervals_spec (w : World) :
  clearAllIntervals w
  = (Ok tt,
     mkWorld (set_intervals [] (this w))
       (mkLoop (now (loop w)) (fresh (loop w))
               (filter (λ x, handle x ∉ intervals (this w)) (pending (loop w))))
       (out w)).
Proof.
  unfold clearAllIntervals, get_this, bind, forEach. by rewrite clear_each.
Qed.

Lemma clearAllTimeouts_spec (w : World) :
  clearAllTimeouts w
  = (Ok tt,
     mkWorld (set_timeouts [] (this w))
       (mkLoop (now (loop w)) (fresh (loop w))
               (filter (λ x, handle x ∉ timeouts (this w)) (pending (loop w))))
       (out w)).
Proof.
  unfold clearAllTimeouts, get_this, bind, forEach. by rewrite clear_each.
Qed.

Lemma update_listeners (w w1 : World) (f : FirmataBoard Listener)
    (g : FirmataBoard Listener → FirmataBoard Listener) :
  (∀ f', pins (g f') = pins f' ∧ analogPins (g f') = analogPins f') →
  same_but_listeners w f w1 →
  ∃ w2, update_fb g w1 = (Ok tt, w2) ∧ same_but_listeners w f w2.
Proof.
  intros Hg (ls & ->).
  destruct (Hg (mkFirmataBoard (pins f) (analogPins f) ls)) as [Hp Ha].
  eexists. split; [reflexivity|].
  exists (listeners (g (mkFirmataBoard (pins f) (analogPins f) ls))).
  simpl in Hp, Ha. simpl.
  destruct (g (mkFirmataBoard (pins f) (analogPins f) ls)) as [p a l].
  simpl in *. by subst.
Qed.

Lemma isDigitalPin_in_range (w w1 : World) (f : FirmataBoard Listener) (k : nat) (x : Pins) :
  same_but_listeners w f w1 → pins f !! k = Some x →
  ∃ d, isDigitalPin (index k) w1 = (Ok d, w1).
Proof.
  intros (ls & ->) Hk. unfold isDigitalPin, fb, get_this, bind, ret.
  cbn -[at_index index]. rewrite at_index_index. simpl. rewrite Hk. by eexists.
Qed.

Lemma clearListeners_spec (w : World) (f : FirmataBoard Listener) :
  firmataBoard (this w) = Some f →
  ∃ w', clearListeners w = (Ok tt, w') ∧ same_but_listeners w f w'.
Proof.
  intros Hf.
  assert (H0 : same_but_listeners w f w).
  { exists (listeners f). destruct w as [b l o]. destruct b. simpl in *. subst.
    by destruct f. }
  unfold clearListeners.
  assert (Hfb : ∀ w1, same_but_listeners w f w1 →
                      ∃ f1, fb w1 = (Ok f1, w1) ∧ pins f1 = pins f ∧ analogPins f1 = analogPins f).
  { intros w1 (ls & ->). eexists. split; [reflexivity|]. by split. }
  destruct (Hfb w H0) as (f1 & E1 & Hp1 & Ha1).
  rewrite (bind_ok _ _ _ _ _ E1).
  destruct (forEach_from_invariant (same_but_listeners w f) (pins f1)
              (λ _ i, (d <- isDigitalPin (index i) ;;
                       if d then update_fb (removeListener (digital_read i) emitUpdate_fn)
                       else ret tt)%eff) 0) with (w := w) as (w2 & E2 & H2); [|done|].
  { intros k x w1 Hk Hw1. rewrite Hp1 in Hk. simpl.
    destruct (isDigitalPin_in_range w w1 f k x Hw1 Hk) as (d & Ed).
    rewrite (bind_ok _ _ _ _ _ Ed). destruct d; [|by exists w1].
    by apply (update_listeners w w1 f). }
  unfold forEach at 1. rewrite (bind_ok _ _ _ _ _ E2).
  destruct (Hfb w2 H2) as (f2 & E3 & Hp2 & Ha2).
  rewrite (bind_ok _ _ _ _ _ E3).
  destruct (forEach_from_invariant (same_but_listeners w f) (analogPins f2)
              (λ _ i, update_fb (removeListener (analog_read i) emitUpdate_fn)) 0)
    with (w := w2) as (w3 & E4 & H3); [|done|].
  { intros k x w1 Hk Hw1. by apply (update_listeners w w1 f). }
  unfold forEach. rewrite (bind_ok _ _ _ _ _ E4).
  by apply (update_listeners w w3 f).
Qed.

(** X2. With a firmata board, [disconnect] returns normally: the session is
    offline, its timer lists are empty, no listener is left on the firmata
    board, nothing is written, and exactly the timers that were in the lists
    have left the queue; if every pending timer was in the lists, none is
    pending afterwards. *)
Theorem disconnect_releases_what_is_tracked (w : World) (f : FirmataBoard Listener) :
  firmataBoard (this w) = Some f →
  ∃ w',
    disconnect w = (Ok tt, w')
    ∧ online (this w') = false
    ∧ intervals (this w') = []
    ∧ timeouts (this w') = []
    ∧ listeners_left w' = []
    ∧ out w' = out w
    ∧ pending (loop w')
      = filter (λ t, handle t ∉ intervals (this w) ++ timeouts (this w))
               (pending (loop w))
    ∧ ((∀ t, t ∈ pending (loop w) → handle t ∈ intervals (this w) ++ timeouts (this w)) →
       pending (loop w') = []).
Proof.
  intros Hf.
  pose proof (clearAllIntervals_spec w) as E1.
  set (w1 := mkWorld (set_intervals [] (this w))
               (mkLoop (now (loop w)) (fresh (loop w))
                  (filter (λ x, handle x ∉ intervals (this w)) (pending (loop w))))
               (out w)) in E1.
  pose proof (clearAllTimeouts_spec w1) as E2.
  set (w2 := mkWorld (set_timeouts [] (this w1))
               (mkLoop (now (loop w1)) (fresh (loop w1))
                  (filter (λ x, handle x ∉ timeouts (this w1)) (pending (loop w1))))
               (out w1)) in E2.
  destruct (clearListeners_spec w2 f) as (w3 & E3 & (ls & ->)); [done|].
  assert (E : clearAllTimers w
              = (Ok tt,
                 mkWorld (set_firmataBoard
                            (Some (mkFirmataBoard (pins f) (analogPins f) ls)) (this w2))
                         (loop w2) (out w2))).
  { unfold clearAllTimers. rewrite (bind_ok _ _ _ _ _ E1).
    by rewrite (bind_ok _ _ _ _ _ E2). }
  unfold disconnect. rewrite (bind_ok _ _ _ _ _ E).
  assert (Hp : filter (λ x, handle x ∉ timeouts (this w1)) (pending (loop w1))
               = filter (λ t, handle t ∉ intervals (this w) ++ timeouts (this w))
                        (pending (loop w))).
  { simpl. rewrite list_filter_filter. apply list_filter_iff. intros x.
    rewrite not_elem_of_app. tauto. }
  eexists. split; [reflexivity|].
  repeat (split; [reflexivity|]).
  split; [exact Hp|].
  intros Htracked. etransitivity; [exact Hp|].
  destruct (filter (λ t, handle t ∉ intervals (this w) ++ timeouts (this w))
              (pending (loop w))) as [|x rest] eqn:Hx; [done|].
  assert (Hin : x ∈ filter (λ t, handle t ∉ intervals (this w) ++ timeouts (this w))
                      (pending (loop w))) by (rewrite Hx; apply elem_of_cons; by left).
  apply list_elem_of_filter in Hin as [Hn Hin]. by destruct (Hn (Htracked x Hin)).
Qed.

Lemma disconnect_releases_what_is_tracked_witness :
  ∃ w',
    disconnect Sample.session = (Ok tt, w')
    ∧ online (this w') = false
    ∧ intervals (this w') = []
    ∧ timeouts (this w') = []
    ∧ listeners_left w' = []
    ∧ out w' = out Sample.session
    ∧ pending (loop w') = [].
Proof.
  destruct (disconnect_releases_what_is_tracked Sample.session Sample.board
              eq_refl) as (w' & E & Ho & Hi & Ht & Hl & Hout & _ & Hp).
  exists w'. repeat (split; [assumption|]). apply Hp.
  intros t Ht'. vm_compute in Ht'. apply list_elem_of_singleton in Ht' as ->.
  vm_compute. apply elem_of_cons. by left.
Defined.



(** C3. After [BLINKOFF] on a session that is not blinking, the heartbeat
    interval is pending and no longer tracked; [disconnect] then clears the
    lists, the listeners and the online flag, and the heartbeat still fires:
    the firmware is queried at 5 s and [disconnect] is emitted at 8 s, both
    after the call. Without the [BLINKOFF], [disconnect] leaves no timer. *)
Theorem disconnect_leaves_untracked_heartbeat_running :
  let w1 := (executeAction "BLINKOFF" undefined Sample.session).2 in
  let r := disconnect w1 in
  let w3 := (run_until 5 10000 r.2).2 in
  r.1 = Ok tt
  ∧ online (this r.2) = false
  ∧ listeners_left r.2 = []
  ∧ intervals (this r.2) = [] ∧ timeouts (this r.2) = []
  ∧ Node.is_pending 0%nat (loop r.2) = true
  ∧ queried (out r.2) = []
  ∧ queried (out w3) = [5000]
  ∧ emitted Firmata.disconnect (out w3) = [8000]
  ∧ Node.pending (loop (disconnect Sample.session).2) = [].
Proof. vm_compute. repeat split. Qed.
End Disconnect.

(** ** The LED controller *)
Section Leds.
Import Eff LedController.




End Leds.

(** ** The connection deadline *)
Section ConnectionTimeout.
Import Eff Node BoardService.
Variable attaches : Class → FirmataBoard Listener → list Event.
Variable id : maybe string.
(** The timer queue of the process when [connectToBoard] is called: any
    time, any timers handed out before, none of them pending. *)
Variable l0 : Loop Callback.
Hypothesis idle : pending l0 = [].

Lemma connectToBoard_waiting :
  ∃ w, connectToBoard (initial l0) = (Ok tt, w) ∧ connecting l0 w
       ∧ constructed w = 0%nat ∧ board w = undefined.
Proof.
  destruct l0 as [nw fr pd]. simpl in idle. subst pd.
  eexists. split; [reflexivity|]. split; [|done]. split; [|done|done].
  split; simpl; try done; [lia|].
  intros r Hr Hl.
  repeat (apply elem_of_cons in Hr as [->|Hr]; [simpl in *; congruence|]).
  by apply elem_of_nil in Hr.
Qed.

Lemma run_until_early (w : World) (time : Z) :
  waiting l0 w → time < now l0 + 10000 →
  run_until 1 time w
  = (Ok true, mkWorld (board w) (firmataBoard w) (connectionTimeout w) (constructed w)
                (mkLoop (Z.max (now (loop w)) time) (fresh (loop w)) (pending (loop w)))
                (out w)).
Proof.
  intros [Hp Hn Hr Hc Ha Hw] Ht.
  destruct w as [b f ct n [nw fr pd] o]. simpl in *. subst pd.
  simpl. by replace (now l0 + 10000 <=? time) with false by (symmetry; apply Z.leb_gt; lia).
Qed.

Lemma run_until_waiting (w : World) (time : Z) :
  waiting l0 w → time < now l0 + 10000 →
  ∃ w', run_until 1 time w = (Ok true, w') ∧ waiting l0 w'.
Proof.
  intros Hw Ht. eexists. split; [by apply run_until_early|].
  destruct Hw as [Hp Hn Hr Hc Ha Hw]. split; simpl; try done. lia.
Qed.

Lemma run_until_fires (w : World) (time : Z) :
  waiting l0 w → now l0 + 10000 ≤ time →
  ∃ w', run_until 1 time w = (Ok true, w') ∧ timed_out l0 w'.
Proof.
  intros [Hp Hn Hr Hc Ha Hw] Ht.
  destruct w as [b f ct n [nw fr pd] o]. simpl in *. subst pd.
  unfold deadline. cbn.
  replace (now l0 + 10000 <=? time) with true by (symmetry; apply Z.leb_le; lia).
  destruct (decide (fresh l0 ≠ fresh l0)) as [H|_]; [done|]. cbn.
  eexists. split; [reflexivity|].
  - replace (Z.max nw (now l0 + 10000)) with (now l0 + 10000) by lia.
    split; simpl; try done.
    + unfold connect_callbacks in *. rewrite !omap_app, Hc. reflexivity.
    + unfold added in *. by rewrite !omap_app, Ha.
    + unfold warnings in *. rewrite !omap_app, Hw. reflexivity.
Qed.

Lemma run_until_timed_out (w : World) (time : Z) :
  timed_out l0 w → ∃ w', run_until 1 time w = (Ok true, w') ∧ timed_out l0 w'.
Proof.
  intros [Hp Hl Hb Hc Ha Hw].
  destruct w as [b f ct n [nw fr pd] o]. simpl in *. subst pd.
  eexists. split; [reflexivity|]. by split.
Qed.

Lemma run_listener_waiting (name : string) (f : Listener) (w : World) :
  waiting l0 w → f ≠ on_ready →
  ∃ w', run_listener attaches id name f w = (Ok tt, w') ∧ waiting l0 w'.
Proof.
  intros [Hp Hn Hr Hc Ha Hw] Hf.
  destruct w as [b fb ct n [nw fr pd] o]. simpl in *. subst pd.
  destruct f as [| | | |serial tag]; [|done| | |].
  - simpl. destruct (decide _); eexists; (split; [reflexivity|]);
      (split; simpl; try done);
      intros r Hin Hl; apply elem_of_app in Hin as [Hin|Hin]; try (by apply Hr);
      apply elem_of_lookup_imap in Hin as (k & ev & -> & _); discriminate Hl.
  - eexists. split; [reflexivity|]. split; simpl; try done.
    + unfold connect_callbacks in *. by rewrite !omap_app, Hc.
    + unfold added in *. by rewrite !omap_app, Ha.
    + unfold warnings in *. by rewrite !omap_app, Hw.
  - eexists. split; [reflexivity|]. split; simpl; try done.
    + unfold connect_callbacks in *. by rewrite !omap_app, Hc.
    + unfold added in *. by rewrite !omap_app, Ha.
    + unfold warnings in *. by rewrite !omap_app, Hw.
  - eexists. split; [reflexivity|]. by split.
Qed.

Lemma run_listeners_waiting (name : string) (fs : list Listener) (w : World) :
  waiting l0 w → on_ready ∉ fs →
  ∃ w', run_listeners attaches id name fs w = (Ok tt, w') ∧ waiting l0 w'.
Proof.
  revert w. induction fs as [|f fs IH]; intros w Hw Hfs.
  - by exists w.
  - apply not_elem_of_cons in Hfs as [Hf Hfs].
    destruct (run_listener_waiting name f w Hw) as (w1 & E1 & Hw1); [done|].
    destruct (IH w1 Hw1 Hfs) as (w2 & E2 & Hw2).
    exists w2. split; [|done]. simpl. unfold bind. by rewrite E1.
Qed.

Lemma deliver_waiting (name : string) (e : Event) (w : World) :
  waiting l0 w → e ≠ ready →
  ∃ w', deliver attaches id name e w = (Ok tt, w') ∧ waiting l0 w'.
Proof.
  intros Hw He. unfold deliver.
  assert (Hfs : on_ready ∉ listening e (firmataBoard w)).
  { unfold listening. intros Hin.
    apply list_elem_of_fmap in Hin as (r & Hl & Hin).
    apply list_elem_of_filter in Hin as [Hev Hin].
    apply He. rewrite <- Hev. by apply (waiting_ready l0 w Hw). }
  assert (Hw1 : waiting l0 (mkWorld (board w) (consume_once e (firmataBoard w))
                              (connectionTimeout w) (constructed w) (loop w) (out w))).
  { destruct Hw as [Hp Hn Hr Hc Ha Hwn]. split; simpl; try done.
    intros r Hin. apply list_elem_of_filter in Hin as [_ Hin]. by apply Hr. }
  destruct (run_listeners_waiting name _ _ Hw1 Hfs) as (w2 & E2 & Hw2).
  exists w2. split; [|done]. exact E2.
Qed.

Lemma deliver_timed_out (name : string) (e : Event) (w : World) :
  timed_out l0 w → ∃ w', deliver attaches id name e w = (Ok tt, w') ∧ timed_out l0 w'.
Proof.
  intros [Hp Hl Hb Hc Ha Hw].
  destruct w as [b [ps aps ls] ct n l o]. simpl in *. subst ls.
  eexists. split; [reflexivity|]. by split.
Qed.

Lemma play_early (schedule : list (Z * Event * string)) (w : World) :
  waiting l0 w → Forall (early_from l0) schedule →
  ∃ w', play attaches id schedule w = (Ok true, w') ∧ waiting l0 w'.
Proof.
  revert w. induction schedule as [|[[time e] name] rest IH]; intros w Hw Hs.
  - by exists w.
  - apply Forall_cons in Hs as [[Ht He] Hs]. simpl in Ht, He.
    destruct (run_until_waiting w time Hw Ht) as (w1 & E1 & Hw1).
    destruct (deliver_waiting name e w1 Hw1 He) as (w2 & E2 & Hw2).
    destruct (IH w2 Hw2 Hs) as (w3 & E3 & Hw3).
    exists w3. split; [|done].
    cbn [play]. unfold bind at 1. rewrite E1. unfold bind. by rewrite E2.
Qed.

Lemma play_timed_out (schedule : list (Z * Event * string)) (w : World) :
  timed_out l0 w →
  ∃ w', play attaches id schedule w = (Ok true, w') ∧ timed_out l0 w'.
Proof.
  revert w. induction schedule as [|[[time e] name] rest IH]; intros w Hw.
  - by exists w.
  - destruct (run_until_timed_out w time Hw) as (w1 & E1 & Hw1).
    destruct (deliver_timed_out name e w1 Hw1) as (w2 & E2 & Hw2).
    destruct (IH w2 Hw2) as (w3 & E3 & Hw3).
    exists w3. split; [|done].
    cbn [play]. unfold bind at 1. rewrite E1. unfold bind. by rewrite E2.
Qed.

Lemma play_late (schedule : list (Z * Event * string)) (w : World) :
  waiting l0 w → Forall (late l0) schedule → schedule ≠ [] →
  ∃ w', play attaches id schedule w = (Ok true, w') ∧ timed_out l0 w'.
Proof.
  intros Hw Hs Hne. destruct schedule as [|[[time e] name] rest]; [done|].
  apply Forall_cons in Hs as [Ht Hs]. unfold late in Ht. simpl in Ht.
  destruct (run_until_fires w time Hw Ht) as (w1 & E1 & Hw1).
  destruct (deliver_timed_out name e w1 Hw1) as (w2 & E2 & Hw2).
  destruct (play_timed_out rest w2 Hw2) as (w3 & E3 & Hw3).
  exists w3. split; [|done].
  cbn [play]. unfold bind at 1. rewrite E1. unfold bind. by rewrite E2.
Qed.

Lemma play_app (s1 s2 : list (Z * Event * string)) (w w1 : World) :
  play attaches id s1 w = (Ok true, w1) →
  play attaches id (s1 ++ s2) w = play attaches id s2 w1.
Proof.
  revert w. induction s1 as [|[[time e] name] rest IH]; intros w E.
  - simpl in E. by injection E as ->.
  - cbn [play app] in *. unfold bind at 1. unfold bind at 1 in E.
    destruct (run_until 1 time w) as [[[]|x] w2]; try discriminate E.
    unfold bind at 1. unfold bind at 1 in E.
    destruct (deliver attaches id name e w2) as [[[]|x] w3]; [|discriminate E].
    by apply IH.
Qed.

(** C7, as the code has it. [connectToBoard] is called at any time, with no
    timer of an earlier connection pending. Whatever the firmata board emits
    afterwards, in any order, as long as no [ready] arrives before the
    deadline 10 s later: the deadline expires then, a warning is logged, the
    connect-callback is called with [false], exactly once and never with a
    board, and [addBoard] is never called; afterwards [board] is [null], none
    of the listeners of [connectToBoard] is registered and its timer is gone.
    Whenever the handler of the deadline runs, it leaves no listener at all
    on the firmata board. *)
Theorem connection_timeout (before after : list (Z * Event * string)) (time : Z) :
  Forall (early_from l0) before → Forall (late l0) after → now l0 + 10000 ≤ time →
  ∃ w,
    (connectToBoard ;; play attaches id (before ++ after) ;; run_until 1 time)%eff
      (initial l0)
    = (Ok true, w)
    ∧ warnings (out w) = [(now l0 + 10000, "Timeout connecting to board")]
    ∧ connect_callbacks (out w) = [(now l0 + 10000, failure)]
    ∧ added (out w) = []
    ∧ board w = null
    ∧ filter (λ r, is_arrow (listener r) = true) (listeners (firmataBoard w)) = []
    ∧ is_pending (fresh l0) (loop w) = false
    ∧ ∀ w0, listeners (firmataBoard (run_callback connection_timed_out w0).2) = [].
Proof.
  intros Hb Ha Ht.
  destruct connectToBoard_waiting as (w0 & E0 & [Hw0 _ _] & _).
  destruct (play_early before w0 Hw0 Hb) as (w1 & E1 & Hw1).
  assert (∃ w2, play attaches id (before ++ after) w0 = (Ok true, w2)
                ∧ (waiting l0 w2 ∨ timed_out l0 w2)) as (w2 & E2 & Hw2).
  { rewrite (play_app _ _ _ _ E1). destruct after as [|x after'].
    - exists w1. split; [done|by left].
    - destruct (play_late (x :: after') w1 Hw1 Ha) as (w2 & E2 & Hw2); [done|].
      exists w2. split; [done|by right]. }
  assert (∃ w3, run_until 1 time w2 = (Ok true, w3) ∧ timed_out l0 w3) as (w3 & E3 & Hw3).
  { destruct Hw2 as [Hw2|Hw2].
    - by apply run_until_fires.
    - by apply run_until_timed_out. }
  exists w3. split.
  - unfold bind at 1. rewrite E0. unfold bind. by rewrite E2.
  - destruct Hw3 as [Hp Hl Hbd Hc Had Hwn].
    split; [done|]. split; [done|]. split; [done|]. split; [done|].
    split; [by rewrite Hl|]. split; [unfold is_pending; by rewrite Hp|].
    intros w'. reflexivity.
Qed.
End ConnectionTimeout.

Section ConnectionTimeoutExamples.
Import Eff.

(** A connection made at 2.5 s in a process that has handed out seven timers
    before: the device identifies itself as MajorTom, drops off, and reports
    READY two seconds too late. *)
Lemma connection_timeout_witness :
  ∃ w,
    (BoardService.connectToBoard ;;
     BoardService.play (λ _ _, [analog_read 0; digital_read 2]) (defined "10.0.0.7:3030")
       ([(2620, queryfirmware, "MajorTom.ino"); (6500, disconnect, "MajorTom.ino")]
          ++ [(14500, ready, "MajorTom.ino")]) ;;
     BoardService.run_until 1 17500)%eff
      (BoardService.initial (Node.mkLoop 2500 7%nat []))
    = (Eff.Ok true, w)
    ∧ BoardService.warnings (BoardService.out w) = [(12500, "Timeout connecting to board")]
    ∧ BoardService.connect_callbacks (BoardService.out w) = [(12500, BoardService.failure)]
    ∧ BoardService.added (BoardService.out w) = []
    ∧ BoardService.board w = null
    ∧ filter (λ r, BoardService.is_arrow (listener r) = true)
             (listeners (BoardService.firmataBoard w)) = []
    ∧ Node.is_pending 7%nat (BoardService.loop w) = false
    ∧ ∀ w0, listeners (BoardService.firmataBoard
                         (BoardService.run_callback BoardService.connection_timed_out w0).2)
            = [].
Proof.
  apply (connection_timeout (λ _ _, [analog_read 0; digital_read 2])
           (defined "10.0.0.7:3030") (Node.mkLoop 2500 7%nat []) eq_refl
           [(2620, queryfirmware, "MajorTom.ino"); (6500, disconnect, "MajorTom.ino")]
           [(14500, ready, "MajorTom.ino")] 17500).
  - repeat apply Forall_cons_2; try apply Forall_nil; split; simpl; lia || discriminate.
  - repeat apply Forall_cons_2; try apply Forall_nil; unfold BoardService.late; simpl; lia.
  - simpl. lia.
Defined.

(** C7 as stated fails on the link. For a device that never replies, what
    [connectToBoard] and its deadline do is all here: one warning and one call
    of the connect-callback, at 10 s, and an empty listener list; no call
    closes the link. *)
Lemma connection_timeout_makes_no_call_that_closes_the_link :
  let w := ((BoardService.connectToBoard ;;
             BoardService.play (λ _ _, []) (defined "10.0.0.7:3030") [] ;;
             BoardService.run_until 1 10000)%eff (BoardService.initial Node.start)).2 in
  BoardService.out w
  = [(10000, BoardService.Logger_warn "Timeout connecting to board");
     (10000, BoardService.boardConnectedCallback BoardService.failure)]
  ∧ listeners (BoardService.firmataBoard w) = []
  ∧ BoardService.board w = null
  ∧ Node.pending (BoardService.loop w) = [].
Proof. vm_compute. repeat split. Qed.
End ConnectionTimeoutExamples.



Section Filters.
Context {A : Type} (P Q : A → Prop) `{!∀ x, Decision (P x)} `{!∀ x, Decision (Q x)}.
End Filters.

Section Heartbeat0.
Import Eff Node Board0.







End Heartbeat0.

Section Heartbeat.
Import Eff Node Board.







End Heartbeat.

Section HeartbeatLoop.
Import Eff.





End HeartbeatLoop.


(** * Further properties of the sources *)

(** ** Kinds of pins and what [setPinValue] does on each *)
Section PinKinds.
Import Eff Node Board.

Lemma isAnalogPin_at (w : World) (f : FirmataBoard Listener) (pin : maybe number) (p : Pins) :
  firmataBoard (this w) = Some f → at_index (pins f) pin = Some p →
  isAnalogPin pin w = (Ok (bool_decide (analog_pin p)), w).
Proof.
  intros Hf Hp. unfold isAnalogPin, fb, get_this, bind, ret. rewrite Hf.
  cbn -[at_index]. by rewrite Hp.
Qed.

Lemma digital_test (p : Pins) :
  (analogChannel p =? 127) && (0 <? Z.of_nat (length (supportedModes p)))
  && negb (bool_decide (PIN_MODE_ANALOG ∈ supportedModes p))
  = bool_decide (digital_pin p).
Proof.
  unfold digital_pin.
  destruct (Z.eqb_spec (analogChannel p) 127) as [Hc|Hc];
    destruct (supportedModes p) as [|m ms] eqn:Hm; simpl;
    repeat case_bool_decide; try done; try tauto; exfalso.
  all: try (match goal with H : ¬ (_ ∧ _ ∧ _) |- _ => apply H; repeat split; try done end).
  all: try (match goal with H : (_ ∧ _ ∧ _) |- _ => destruct H as (? & ? & ?); done end).
Qed.

Lemma isDigitalPin_at (w : World) (f : FirmataBoard Listener) (pin : maybe number) (p : Pins) :
  firmataBoard (this w) = Some f → at_index (pins f) pin = Some p →
  isDigitalPin pin w = (Ok (bool_decide (digital_pin p)), w).
Proof.
  intros Hf Hp. unfold isDigitalPin, fb, get_this, bind, ret. rewrite Hf.
  cbn -[at_index]. rewrite Hp. by rewrite digital_test.
Qed.

(** X5. [isAnalogPin] and [isDigitalPin] read the pin table without changing
    anything; outside the table (a negative, missing or too large index,
    [NaN], [undefined]) both throw a [TypeError]. On a pin of the table they
    never both answer true, and a pin without supported modes is of neither
    kind. *)
Theorem pin_is_never_both_analog_and_digital
    (w : World) (f : FirmataBoard Listener) (pin : maybe number) :
  firmataBoard (this w) = Some f →
  match at_index (pins f) pin with
  | Some p =>
      isAnalogPin pin w = (Ok (bool_decide (analog_pin p)), w)
      ∧ isDigitalPin pin w = (Ok (bool_decide (digital_pin p)), w)
      ∧ bool_decide (analog_pin p) && bool_decide (digital_pin p) = false
      ∧ (supportedModes p = [] →
         bool_decide (analog_pin p) = false ∧ bool_decide (digital_pin p) = false)
  | None =>
      isAnalogPin pin w = (Throw TypeError, w)
      ∧ isDigitalPin pin w = (Throw TypeError, w)
  end.
Proof.
  intros Hf. destruct (at_index (pins f) pin) as [p|] eqn:Hat.
  - split; [by apply (isAnalogPin_at w f)|]. split; [by apply (isDigitalPin_at w f)|].
    split.
    + apply andb_false_iff.
      destruct (decide (analog_pin p)) as [Ha|Ha].
      * right. apply bool_decide_eq_false_2. by intros (_ & _ & Hn).
      * left. by apply bool_decide_eq_false_2.
    + intros Hm. unfold analog_pin, digital_pin. rewrite Hm. split.
      * apply bool_decide_eq_false_2. apply not_elem_of_nil.
      * apply bool_decide_eq_false_2. by intros (_ & Hne & _).
  - unfold isAnalogPin, isDigitalPin, fb, get_this, bind, ret, throw. rewrite Hf.
    cbn -[at_index]. by rewrite Hat.
Qed.

Lemma pin_is_never_both_analog_and_digital_witness :
  match at_index (pins (@Sample.wemos Listener)) (index 3) with
  | Some p =>
      isAnalogPin (index 3)
        (mkWorld (set_firmataBoard (Some Sample.wemos) (fields undefined undefined undefined))
                 Node.start [])
      = (Ok (bool_decide (analog_pin p)),
         mkWorld (set_firmataBoard (Some Sample.wemos) (fields undefined undefined undefined))
                 Node.start [])
      ∧ isDigitalPin (index 3)
          (mkWorld (set_firmataBoard (Some Sample.wemos) (fields undefined undefined undefined))
                   Node.start [])
        = (Ok (bool_decide (digital_pin p)),
           mkWorld (set_firmataBoard (Some Sample.wemos) (fields undefined undefined undefined))
                   Node.start [])
      ∧ bool_decide (analog_pin p) && bool_decide (digital_pin p) = false
      ∧ (supportedModes p = [] →
         bool_decide (analog_pin p) = false ∧ bool_decide (digital_pin p) = false)
  | None =>
      isAnalogPin (index 3)
        (mkWorld (set_firmataBoard (Some Sample.wemos) (fields undefined undefined undefined))
                 Node.start [])
      = (Throw TypeError,
         mkWorld (set_firmataBoard (Some Sample.wemos) (fields undefined undefined undefined))
                 Node.start [])
      ∧ isDigitalPin (index 3)
          (mkWorld (set_firmataBoard (Some Sample.wemos) (fields undefined undefined undefined))
                   Node.start [])
        = (Throw TypeError,
           mkWorld (set_firmataBoard (Some Sample.wemos) (fields undefined undefined undefined))
                   Node.start [])
  end.
Proof.
  apply (pin_is_never_both_analog_and_digital
           (mkWorld (set_firmataBoard (Some Sample.wemos) (fields undefined undefined undefined))
                    Node.start [])
           Sample.wemos (index 3)).
  reflexivity.
Defined.

(** X6. On an analog pin [setPinValue] passes the value on as it is: one
    [analogWrite] of exactly that value, whatever it is ([NaN], [undefined],
    a negative or a large number), stored in the pin table, then one [update]
    carrying the snapshot with the new value. *)
Theorem setPinValue_on_an_analog_pin
    (w : World) (f : FirmataBoard Listener) (i : nat) (p : Pins) (v : maybe number) :
  firmataBoard (this w) = Some f → pins f !! i = Some p → analog_pin p → v ≠ null →
  ∃ d,
    toDiscrete (defined (set_firmataBoard (Some (store_value i v f)) (this w))) = Ok d
    ∧ setPinValue (index i) v w
      = (Ok tt,
         mkWorld (set_firmataBoard (Some (store_value i v f)) (this w)) (loop w)
                 (out w ++ [(now (loop w), analogWrite (index i) v);
                            (now (loop w), emit update (Some d))])).
Proof.
  intros Hf Hp Ha Hv. unfold setPinValue.
  rewrite (bind_ok _ _ w w tt) by done.
  rewrite (bind_ok _ _ w w tt) by (by destruct (decide (v = null))).
  rewrite <- at_index_index in Hp.
  rewrite (bind_ok _ _ _ _ _ (isAnalogPin_at w f _ p Hf Hp)).
  rewrite bool_decide_eq_true_2 by done.
  set (w1 := mkWorld (set_firmataBoard (Some (store_value i v f)) (this w)) (loop w)
                     (out w ++ [(now (loop w), analogWrite (index i) v)])).
  assert (E : fb_analogWrite (index i) v w = (Ok tt, w1)).
  { unfold fb_analogWrite, tell, update_fb, fb, get_this, update_this, bind, ret. simpl.
    rewrite Hf. simpl. by rewrite Nat2Z.id. }
  rewrite (bind_ok _ _ _ _ _ E).
  destruct (emitUpdate_ok w1 (store_value i v f) eq_refl) as (d & Hd1 & Hd2).
  exists d. split; [done|]. rewrite Hd2. unfold w1. simpl. by rewrite <- app_assoc.
Qed.

(** The analog input of the worked example is written 4096 and [NaN]. *)
Lemma setPinValue_on_an_analog_pin_witness :
  (∃ d,
    toDiscrete (defined (set_firmataBoard
                           (Some (store_value 3 (defined (Num 4096))
                                    Sample.board))
                           (this Sample.session))) = Ok d
    ∧ setPinValue (index 3) (defined (Num 4096)) Sample.session
      = (Ok tt,
         mkWorld (set_firmataBoard
                    (Some (store_value 3 (defined (Num 4096))
                             Sample.board))
                    (this Sample.session))
                 (loop Sample.session)
                 (out Sample.session
                    ++ [(now (loop Sample.session),
                         analogWrite (index 3) (defined (Num 4096)));
                        (now (loop Sample.session), emit update (Some d))])))
  ∧ Sample.outputs (out (setPinValue (index 3) (defined NaN) Sample.session).2)
    = Sample.outputs (out Sample.session)
        ++ [analogWrite (index 3) (defined NaN);
            emit update (payload (this (setPinValue (index 3) (defined NaN)
                                          Sample.session).2))].
Proof.
  split.
  - apply (setPinValue_on_an_analog_pin Sample.session
             Sample.board
             3 Sample.a0 (defined (Num 4096))).
    + reflexivity.
    + reflexivity.
    + unfold analog_pin. vm_compute. apply elem_of_cons. right. apply elem_of_cons.
      right. apply elem_of_cons. by left.
    + discriminate.
  - vm_compute. reflexivity.
Defined.

(** X7. On a pin of the table that is neither analog nor digital (no
    supported modes, or an analog channel without the ANALOG mode)
    [setPinValue] writes nothing and logs nothing: it only emits [update],
    and the session is as before. *)
Theorem setPinValue_on_a_pin_of_neither_kind
    (w : World) (f : FirmataBoard Listener) (pin v : maybe number) (p : Pins) :
  firmataBoard (this w) = Some f → at_index (pins f) pin = Some p →
  ¬ analog_pin p → ¬ digital_pin p → v ≠ null →
  ∃ d,
    toDiscrete (defined (this w)) = Ok d
    ∧ setPinValue pin v w
      = (Ok tt, mkWorld (this w) (loop w)
                  (out w ++ [(now (loop w), emit update (Some d))])).
Proof.
  intros Hf Hat Ha Hd Hv. unfold setPinValue.
  assert (Hpin : pin ≠ null) by (by intros ->).
  rewrite (bind_ok _ _ w w tt) by (by destruct (decide (pin = null))).
  rewrite (bind_ok _ _ w w tt) by (by destruct (decide (v = null))).
  rewrite (bind_ok _ _ _ _ _ (isAnalogPin_at w f _ p Hf Hat)).
  rewrite bool_decide_eq_false_2 by done.
  unfold bind at 1.
  rewrite (bind_ok _ _ _ _ _ (isDigitalPin_at w f _ p Hf Hat)).
  rewrite bool_decide_eq_false_2 by done.
  unfold ret.
  destruct (emitUpdate_ok w f Hf) as (d & Hd1 & Hd2). exists d. by split.
Qed.

Lemma setPinValue_on_a_pin_of_neither_kind_witness :
  ∃ d,
    toDiscrete (defined (this Sample.session)) = Ok d
    ∧ setPinValue (index 0) (defined HIGH) Sample.session
      = (Ok tt, mkWorld (this Sample.session) (loop Sample.session)
                  (out Sample.session
                     ++ [(now (loop Sample.session), emit update (Some d))])).
Proof.
  apply (setPinValue_on_a_pin_of_neither_kind Sample.session
           Sample.board
           (index 0) (defined HIGH) Sample.unsupported).
  - reflexivity.
  - reflexivity.
  - unfold analog_pin. simpl. apply not_elem_of_nil.
  - by intros (_ & Hne & _).
  - discriminate.
Defined.

(** X8. [setPinValue] throws before it writes or emits anything, and leaves
    the world as it was: [CommandMalformed] for a [null] pin, then for a
    [null] value, and a [TypeError] for a pin that is not in the table
    ([undefined], [NaN], a negative or too large index). *)
Theorem setPinValue_rejects_without_writing
    (w : World) (f : FirmataBoard Listener) (pin v : maybe number) :
  firmataBoard (this w) = Some f →
  pin = null ∨ v = null ∨ at_index (pins f) pin = None →
  setPinValue pin v w
  = (Throw (if decide (pin = null)
            then CommandMalformed "Method setPinValue requires 'pin' argument."
            else if decide (v = null)
            then CommandMalformed "Method setPinValue requires 'value' argument."
            else TypeError),
     w).
Proof.
  intros Hf H. unfold setPinValue.
  destruct (decide (pin = null)) as [Hp|Hp]; [done|].
  rewrite (bind_ok _ _ w w tt) by done.
  destruct (decide (v = null)) as [Hv|Hv]; [done|].
  rewrite (bind_ok _ _ w w tt) by done.
  destruct H as [H|[H|H]]; [done|done|].
  unfold isAnalogPin, fb, get_this, bind, ret, throw. rewrite Hf. cbn -[at_index].
  by rewrite H.
Qed.

Lemma setPinValue_rejects_without_writing_witness :
  setPinValue (defined NaN) (defined HIGH) Sample.session
  = (Throw (if decide (defined NaN = (null : maybe number))
            then CommandMalformed "Method setPinValue requires 'pin' argument."
            else if decide (defined HIGH = (null : maybe number))
            then CommandMalformed "Method setPinValue requires 'value' argument."
            else TypeError),
     Sample.session).
Proof.
  apply (setPinValue_rejects_without_writing Sample.session
           Sample.board
           (defined NaN) (defined HIGH)).
  - reflexivity.
  - right. right. reflexivity.
Defined.
End PinKinds.

(** ** The built-in LED *)
Section Toggle.
Import Eff Node Board.

Lemma strict_eq_slot_HIGH (v : maybe number) :
  strict_eq_slot v (defined HIGH) = bool_decide (v = defined HIGH).
Proof.
  destruct v as [| |[|z]]; try done. simpl.
  destruct (Z.eqb_spec z 1) as [->|Hz]; [done|].
  rewrite bool_decide_eq_false_2; [done|]. intros [=]. done.
Qed.

Lemma setPinValue_writes_a_level
    (w : World) (f : FirmataBoard Listener) (i : nat) (p : Pins) (v : number) :
  firmataBoard (this w) = Some f → pins f !! i = Some p → digital_pin p →
  v = HIGH ∨ v = LOW →
  ∃ d,
    toDiscrete (defined (set_firmataBoard (Some (store_value i (defined v) f)) (this w)))
    = Ok d
    ∧ setPinValue (index i) (defined v) w
      = (Ok tt,
         mkWorld (set_firmataBoard (Some (store_value i (defined v) f)) (this w)) (loop w)
                 (out w ++ [(now (loop w), digitalWrite (index i) (defined v));
                            (now (loop w), emit update (Some d))])).
Proof.
  intros Hf Hp Hd Hv. unfold setPinValue.
  rewrite (bind_ok _ _ w w tt) by done.
  rewrite (bind_ok _ _ w w tt) by done.
  rewrite (bind_ok _ _ _ _ _ (isAnalogPin_digital w f i p Hf Hp Hd)).
  cbn beta iota. unfold bind at 1.
  rewrite (bind_ok _ _ _ _ _ (isDigitalPin_digital w f i p Hf Hp Hd)).
  cbn beta iota.
  assert (E : negb (strict_eq_slot (defined v) (defined HIGH))
              && negb (strict_eq_slot (defined v) (defined LOW)) = false)
    by (by destruct Hv as [-> | ->]).
  rewrite E.
  set (w1 := mkWorld (set_firmataBoard (Some (store_value i (defined v) f)) (this w))
                     (loop w)
                     (out w ++ [(now (loop w), digitalWrite (index i) (defined v))])).
  assert (E1 : fb_digitalWrite (index i) (defined v) w = (Ok tt, w1)).
  { unfold fb_digitalWrite, tell, update_fb, fb, get_this, update_this, bind, ret. simpl.
    rewrite Hf. simpl. by rewrite Nat2Z.id. }
  rewrite E1.
  destruct (emitUpdate_ok w1 (store_value i (defined v) f) eq_refl) as (d & Hd1 & Hd2).
  exists d. split; [done|]. rewrite Hd2. unfold w1. simpl. by rewrite <- app_assoc.
Qed.

Lemma toggled_level (v : maybe number) : toggled v = HIGH ∨ toggled v = LOW.
Proof. unfold toggled. destruct (decide _); auto. Qed.

Lemma toggleLED_once (w : World) (f : FirmataBoard Listener) (p : Pins) :
  firmataBoard (this w) = Some f → LED_pin w = Some p → digital_pin p →
  ∃ d,
    toDiscrete (defined (set_firmataBoard
                           (Some (store_value (Z.to_nat (LED (pinout (this w))))
                                              (defined (toggled (value p))) f))
                           (this w))) = Ok d
    ∧ toggleLED w
    = (Ok tt,
       mkWorld (set_firmataBoard
                  (Some (store_value (Z.to_nat (LED (pinout (this w))))
                                     (defined (toggled (value p))) f))
                  (this w))
               (loop w)
               (out w ++ [(now (loop w),
                           digitalWrite (defined (Num (LED (pinout (this w)))))
                                        (defined (toggled (value p))));
                          (now (loop w), emit update (Some d))])).
Proof.
  intros Hf Hp Hd. unfold LED_pin in Hp. rewrite Hf in Hp.
  assert (Hled : 0 ≤ LED (pinout (this w))).
  { unfold at_index in Hp. destruct (Z.ltb_spec (LED (pinout (this w))) 0); [done|lia]. }
  assert (Hi : defined (Num (LED (pinout (this w))))
               = index (Z.to_nat (LED (pinout (this w))))).
  { unfold index. by rewrite Z2Nat.id. }
  unfold toggleLED, fb, get_this, bind, ret. rewrite Hf. cbn -[at_index setPinValue].
  rewrite Hp. rewrite strict_eq_slot_HIGH.
  assert (Ht : (if bool_decide (value p = defined HIGH) then LOW else HIGH)
               = toggled (value p)).
  { unfold toggled. by case_bool_decide; destruct (decide _). }
  rewrite Ht. rewrite Hi in Hp |- *. rewrite at_index_index in Hp.
  destruct (setPinValue_writes_a_level w f _ p (toggled (value p)) Hf Hp Hd
              (toggled_level _)) as (d & Hd' & Hs).
  rewrite Hs. by exists d.
Qed.

Lemma LED_pin_stored (w : World) (f : FirmataBoard Listener) (p : Pins) (v : maybe number)
    (l : Loop Callback) (o : list (Z * Output)) :
  firmataBoard (this w) = Some f → LED_pin w = Some p →
  LED_pin (mkWorld (set_firmataBoard
                      (Some (store_value (Z.to_nat (LED (pinout (this w)))) v f)) (this w))
                   l o)
  = Some (with_value v p).
Proof.
  intros Hf Hp. unfold LED_pin in Hp |- *. rewrite Hf in Hp. cbn -[at_index].
  unfold at_index in Hp |- *.
  destruct (LED (pinout (this w)) <? 0); [done|].
  cbn. rewrite list_lookup_alter, decide_True by done. by rewrite Hp.
Qed.

(** X9. When the LED pin of the pinout is a digital pin, [toggleLED] writes
    LOW if the pin holds HIGH and HIGH otherwise (also when the pin holds no
    value or another number), stores the level, and emits [update]. A second
    [toggleLED] writes the other level: two toggles bring a LED that was HIGH
    back to HIGH, and any other LED to LOW. The timer queue is not touched. *)
Theorem toggleLED_flips_the_LED (w : World) (f : FirmataBoard Listener) (p : Pins) :
  firmataBoard (this w) = Some f → LED_pin w = Some p → digital_pin p →
  ∃ w1 w2 d1 d2,
    toggleLED w = (Ok tt, w1)
    ∧ out w1
      = out w ++ [(now (loop w),
                   digitalWrite (defined (Num (LED (pinout (this w)))))
                                (defined (if decide (value p = defined HIGH)
                                          then LOW else HIGH)));
                  (now (loop w), emit update (Some d1))]
    ∧ LED_pin w1
      = Some (with_value (defined (if decide (value p = defined HIGH) then LOW else HIGH)) p)
    ∧ toggleLED w1 = (Ok tt, w2)
    ∧ out w2
      = out w1 ++ [(now (loop w),
                    digitalWrite (defined (Num (LED (pinout (this w)))))
                                 (defined (if decide (value p = defined HIGH)
                                           then HIGH else LOW)));
                   (now (loop w), emit update (Some d2))]
    ∧ LED_pin w2
      = Some (with_value (defined (if decide (value p = defined HIGH) then HIGH else LOW)) p)
    ∧ loop w2 = loop w.
Proof.
  intros Hf Hp Hd.
  destruct (toggleLED_once w f p Hf Hp Hd) as (d1 & _ & H1).
  set (f1 := store_value (Z.to_nat (LED (pinout (this w))))
                         (defined (toggled (value p))) f) in *.
  set (w1 := mkWorld (set_firmataBoard (Some f1) (this w)) (loop w) _) in H1.
  assert (Hp1 : LED_pin w1 = Some (with_value (defined (toggled (value p))) p))
    by (by apply LED_pin_stored).
  destruct (toggleLED_once w1 f1 _ eq_refl Hp1 Hd) as (d2 & _ & H2).
  eexists w1, _, d1, d2. split; [exact H1|]. split; [done|]. split; [exact Hp1|].
  split; [exact H2|].
  assert (Ht : toggled (value (with_value (defined (toggled (value p))) p))
               = if decide (value p = defined HIGH) then HIGH else LOW).
  { cbn. unfold toggled. destruct (decide (value p = defined HIGH)); done. }
  rewrite Ht. split; [done|]. split; [|done].
  rewrite (LED_pin_stored w1 f1 _ _ _ _ eq_refl Hp1). done.
Qed.

(** The LED of the worked example is low after construction. *)
Lemma toggleLED_flips_the_LED_witness :
  ∃ w1 w2 d1 d2,
    toggleLED Sample.session = (Ok tt, w1)
    ∧ out w1
      = out Sample.session
          ++ [(now (loop Sample.session),
               digitalWrite (defined (Num (LED (pinout (this Sample.session)))))
                            (defined (if decide (value Sample.led = defined HIGH)
                                      then LOW else HIGH)));
              (now (loop Sample.session), emit update (Some d1))]
    ∧ LED_pin w1
      = Some (with_value (defined (if decide (value Sample.led = defined HIGH)
                                   then LOW else HIGH)) Sample.led)
    ∧ toggleLED w1 = (Ok tt, w2)
    ∧ out w2
      = out w1 ++ [(now (loop Sample.session),
                    digitalWrite (defined (Num (LED (pinout (this Sample.session)))))
                                 (defined (if decide (value Sample.led = defined HIGH)
                                           then HIGH else LOW)));
                   (now (loop Sample.session), emit update (Some d2))]
    ∧ LED_pin w2
      = Some (with_value (defined (if decide (value Sample.led = defined HIGH)
                                   then HIGH else LOW)) Sample.led)
    ∧ loop w2 = loop Sample.session.
Proof.
  apply (toggleLED_flips_the_LED Sample.session
           Sample.board Sample.led).
  - reflexivity.
  - reflexivity.
  - repeat split; [done|]. vm_compute. intros H.
    repeat (apply elem_of_cons in H as [H|H]; [discriminate|]).
    by apply elem_of_nil in H.
Defined.
(** X19. From the default action table, TOGGLELED through [executeAction]
    ignores its parameters and emits [update] twice with the same snapshot,
    once from [setPinValue] and once from [executeAction]: the outputs are
    the debug line, one [digitalWrite] of the other level to the LED pin, and
    the two [update] events carrying the state with the new level. *)
Theorem TOGGLELED_emits_update_twice
    (w : World) (f : FirmataBoard Listener) (p : Pins) (parameters : maybe (list string)) :
  availableActions (this w) = default_actions →
  firmataBoard (this w) = Some f → LED_pin w = Some p → digital_pin p →
  ∃ w' d,
    executeAction "TOGGLELED" parameters w = (Ok tt, w')
    ∧ toDiscrete (defined (this w')) = Ok d
    ∧ out w'
      = out w
          ++ stamped (now (loop w))
               [log_debug (Executing_method "TOGGLELED");
                digitalWrite (defined (Num (LED (pinout (this w)))))
                             (defined (if decide (value p = defined HIGH) then LOW else HIGH));
                emit update (Some d); emit update (Some d)]
    ∧ LED_pin w'
      = Some (with_value (defined (if decide (value p = defined HIGH) then LOW else HIGH)) p)
    ∧ loop w' = loop w.
Proof.
  intros Ha Hf Hp Hd.
  assert (E1 : isAvailableAction "TOGGLELED" w = (Ok true, w)).
  { unfold isAvailableAction, get_this, bind, ret, getAvailableActions. by rewrite Ha. }
  set (w1 := mkWorld (this w) (loop w)
               (out w ++ [(now (loop w), log_debug (Executing_method "TOGGLELED"))])).
  assert (E : executeAction "TOGGLELED" parameters w = (toggleLED ;; emitUpdate)%eff w1).
  { unfold executeAction.
    rewrite (bind_ok _ _ _ _ _ E1). cbn [negb].
    rewrite (bind_ok _ _ w w tt) by done.
    rewrite (bind_ok _ _ w w1 tt) by done.
    rewrite (bind_ok _ _ w1 w1 (this w)) by done.
    rewrite Ha. change (property default_actions "TOGGLELED") with (Some TOGGLELED_handler).
    by destruct parameters as [| |[|? ?]]. }
  destruct (toggleLED_once w1 f p Hf Hp Hd) as (d & Hd1 & H1).
  set (w2 := mkWorld _ _ _) in H1.
  destruct (emitUpdate_ok w2 _ eq_refl) as (d' & Hd2 & H2).
  pose proof (eq_trans (eq_sym Hd2) Hd1) as [= ->].
  exists (mkWorld (this w2) (loop w2) (out w2 ++ [(now (loop w2), emit update (Some d))])), d.
  split; [by rewrite E, (bind_ok _ _ _ _ _ H1)|]. split; [exact Hd1|]. split.
  - unfold w2, w1, stamped. cbn. by rewrite <- !app_assoc.
  - split; [|done]. by apply (LED_pin_stored w1 f).
Qed.

Lemma TOGGLELED_emits_update_twice_witness :
  ∃ w' d,
    executeAction "TOGGLELED" (defined ["on"]) Sample.session = (Ok tt, w')
    ∧ toDiscrete (defined (this w')) = Ok d
    ∧ out w'
      = out Sample.session
          ++ stamped (now (loop Sample.session))
               [log_debug (Executing_method "TOGGLELED");
                digitalWrite (defined (Num (LED (pinout (this Sample.session)))))
                             (defined (if decide (value Sample.led = defined HIGH)
                                       then LOW else HIGH));
                emit update (Some d); emit update (Some d)]
    ∧ LED_pin w'
      = Some (with_value (defined (if decide (value Sample.led = defined HIGH)
                                   then LOW else HIGH)) Sample.led)
    ∧ loop w' = loop Sample.session.
Proof.
  apply (TOGGLELED_emits_update_twice Sample.session
           Sample.board Sample.led
           (defined ["on"])).
  - reflexivity.
  - reflexivity.
  - reflexivity.
  - repeat split; [done|]. vm_compute. intros H.
    repeat (apply elem_of_cons in H as [H|H]; [discriminate|]).
    by apply elem_of_nil in H.
Defined.
End Toggle.

(** ** Blinking *)
Section Blink.
Import Eff Node Board.

Lemma splice_last_added (l : list Timeout) (h : Timeout) :
  h ∉ l → splice (l ++ [h]) (indexOf_slot (l ++ [h]) (defined h)) 1 = l.
Proof.
  intros Hh.
  destruct (splice_tracked (l ++ [h]) h) as (k & Hk & Hn & Hs).
  { apply elem_of_app. right. apply elem_of_cons. by left. }
  rewrite Hs.
  assert (k = length l) as ->.
  { destruct (decide (k < length l)%nat) as [Hlt|Hge].
    - rewrite lookup_app_l in Hk by done. apply (list_elem_of_lookup_2 l) in Hk. done.
    - apply lookup_lt_Some in Hk. rewrite length_app in Hk. simpl in Hk. lia. }
  rewrite take_app_length. rewrite drop_app_ge by lia.
  replace (S (length l) - length l)%nat with 1%nat by lia. simpl. apply app_nil_r.
Qed.

Lemma filter_not_pending (h : Timeout) (ts : list (Timer Callback)) :
  existsb (λ x, Nat.eqb (handle x) h) ts = false →
  filter (λ x, handle x ≠ h) ts = ts.
Proof.
  induction ts as [|t ts IH]; [done|]. cbn [existsb]. intros H.
  apply orb_false_iff in H as [H1 H2]. apply Nat.eqb_neq in H1.
  rewrite filter_cons_True by done. by rewrite IH.
Qed.

(** X10. On a session that is not blinking, [enableBlinkLed(true)] arms one
    500 ms interval for [toggleLED], holds it in [blinkInterval] and lists it
    last in [intervals]; it writes nothing. A second [enableBlinkLed(true)]
    changes nothing and logs one warning. [enableBlinkLed(false)] then cancels
    exactly that interval: the queue and [intervals] are as before the
    blinking started, [blinkInterval] is [null] and the program is idle. (The
    timer Node hands out is a new one: not in [intervals], not pending.) *)
Theorem blinking_starts_once_and_stops_cleanly (w : World) :
  truthy (blinkInterval (this w)) = false →
  fresh (loop w) ∉ intervals (this w) →
  is_pending (fresh (loop w)) (loop w) = false →
  enableBlinkLed true w = (Ok tt, blinking w)
  ∧ enableBlinkLed true (blinking w)
    = (Ok tt, mkWorld (this (blinking w)) (loop (blinking w))
                (out w ++ [(now (loop w), log_warn LED_blink_is_already_enabled)]))
  ∧ enableBlinkLed false (blinking w)
    = (Ok tt, mkWorld (set_blinkInterval null (set_currentProgram IDLE (this w)))
                (mkLoop (now (loop w)) (S (fresh (loop w))) (pending (loop w)))
                (out w)).
Proof.
  intros Hb Hi Hp. split; [|split].
  - unfold enableBlinkLed, get_this, bind. cbn -[truthy]. by rewrite Hb.
  - reflexivity.
  - unfold enableBlinkLed, setIdle, get_this, update_this, bind.
    cbn -[splice indexOf_slot clearInterval]. rewrite clearInterval_unfold.
    cbn -[splice indexOf_slot filter].
    rewrite splice_last_added by done.
    rewrite filter_app, filter_not_pending by exact Hp.
    rewrite filter_cons_False, filter_nil, app_nil_r; [done|].
    cbn. intros H. by apply H.
Qed.

Lemma blinking_starts_once_and_stops_cleanly_witness :
  enableBlinkLed true Sample.session = (Ok tt, blinking Sample.session)
  ∧ enableBlinkLed true (blinking Sample.session)
    = (Ok tt, mkWorld (this (blinking Sample.session)) (loop (blinking Sample.session))
                (out Sample.session
                   ++ [(now (loop Sample.session), log_warn LED_blink_is_already_enabled)]))
  ∧ enableBlinkLed false (blinking Sample.session)
    = (Ok tt, mkWorld (set_blinkInterval null (set_currentProgram IDLE (this Sample.session)))
                (mkLoop (now (loop Sample.session)) (S (fresh (loop Sample.session)))
                        (pending (loop Sample.session)))
                (out Sample.session)).
Proof.
  apply (blinking_starts_once_and_stops_cleanly Sample.session).
  - reflexivity.
  - vm_compute. intros H. apply elem_of_cons in H as [H|H]; [discriminate|].
    by apply elem_of_nil in H.
  - reflexivity.
Defined.
End Blink.

(** ** Constructing a session *)
Section Construct.
Import Eff Node Board.

Lemma report_all_with_listeners (ps : list nat) (ls : list (Registration Listener))
    (f : FirmataBoard Listener) :
  report_all ps (with_listeners ls f) = with_listeners ls (report_all ps f).
Proof.
  revert f. induction ps as [|x ps IH]; intros f; [done|].
  apply (IH (report_on x f)).
Qed.

Lemma with_listeners_twice (a b : list (Registration Listener)) (f : FirmataBoard Listener) :
  with_listeners b (with_listeners a f) = with_listeners (a ++ b) f.
Proof. unfold with_listeners. cbn. by rewrite app_assoc. Qed.

Lemma analogPins_report_all (ps : list nat) (f : FirmataBoard Listener) :
  analogPins (report_all ps f) = analogPins f.
Proof. revert f. induction ps as [|x ps IH]; intros f; [done|]. apply (IH (report_on x f)). Qed.

Lemma lookup_report_all (ps : list nat) (f : FirmataBoard Listener) (i : nat) :
  pins (report_all ps f) !! i
  = (λ p, if decide (i ∈ ps) then with_report p else p) <$> pins f !! i.
Proof.
  revert f. induction ps as [|x ps IH]; intros f.
  - cbn. destruct (pins f !! i) as [p|]; [|done]. cbn.
    by rewrite decide_False by apply not_elem_of_nil.
  - change (report_all (x :: ps) f) with (report_all ps (report_on x f)).
    rewrite (IH (report_on x f)). cbn [report_on pins].
    rewrite list_lookup_alter.
    destruct (decide (x = i)) as [->|Hne].
    + destruct (pins f !! i) as [p|]; [|done]. cbn.
      rewrite (decide_True (P := i ∈ i :: ps)) by (apply elem_of_cons; by left).
      by destruct (decide (i ∈ ps)).
    + destruct (pins f !! i) as [p|]; [|done]. cbn. f_equal.
      destruct (decide (i ∈ ps)) as [Hin|Hout].
      * by rewrite decide_True by (apply elem_of_cons; by right).
      * rewrite decide_False; [done|]. intros H. apply elem_of_cons in H as [H|H]; done.
Qed.

Lemma length_pins_report_all (ps : list nat) (f : FirmataBoard Listener) :
  length (pins (report_all ps f)) = length (pins f).
Proof.
  revert f. induction ps as [|x ps IH]; intros f; [done|].
  change (report_all (x :: ps) f) with (report_all ps (report_on x f)).
  rewrite (IH (report_on x f)). cbn. apply length_alter.
Qed.

Lemma digital_at_report_all (ps : list nat) (f : FirmataBoard Listener) (i : nat) :
  digital_at (pins (report_all ps f)) i ↔ digital_at (pins f) i.
Proof.
  unfold digital_at. rewrite lookup_report_all.
  destruct (pins f !! i) as [p|]; cbn.
  - split.
    + intros (q & [= <-] & Hq). exists p. split; [done|]. by destruct (decide (i ∈ ps)).
    + intros (q & [= <-] & Hq). eexists. split; [done|]. by destruct (decide (i ∈ ps)).
  - split; intros (q & [=] & _).
Qed.

Lemma attach_analog_from (l : list nat) (i : nat) (w : World) (f : FirmataBoard Listener) :
  firmataBoard (this w) = Some f →
  (∀ k, l !! k = analogPins f !! (i + k)%nat) →
  forEach_from l i (λ _ i, fb_analogRead i emitUpdate_fn) w
  = (Ok tt,
     mkWorld (set_firmataBoard
                (Some (with_listeners (on_analog <$> seq i (length l)) (report_all l f)))
                (this w))
             (loop w)
             (out w ++ stamped (now (loop w)) (analogRead <$> seq i (length l)))).
Proof.
  revert i w f. induction l as [|x l IH]; intros i w f Hf Hl.
  - destruct w as [b lp o]. destruct b, f. simpl in *. subst.
    unfold with_listeners, set_firmataBoard, ret. simpl. by rewrite !app_nil_r.
  - cbn [forEach_from].
    assert (Hx : analogPins f !! i = Some x).
    { specialize (Hl 0%nat). by rewrite Nat.add_0_r in Hl. }
    set (w1 := mkWorld (set_firmataBoard
                          (Some (with_listeners [on_analog i] (report_on x f))) (this w))
                       (loop w) (out w ++ [(now (loop w), analogRead i)])).
    assert (E : fb_analogRead i emitUpdate_fn w = (Ok tt, w1)).
    { unfold fb_analogRead, tell, update_fb, fb, get_this, update_this, bind, ret. simpl.
      rewrite Hf. simpl. unfold report_channel. by rewrite Hx. }
    rewrite (bind_ok _ _ _ _ _ E).
    rewrite (IH (S i) w1 (with_listeners [on_analog i] (report_on x f)) eq_refl).
    + rewrite report_all_with_listeners, with_listeners_twice.
      unfold w1, stamped. cbn. by rewrite <- !app_assoc.
    + intros k. specialize (Hl (S k)).
      replace (i + S k)%nat with (S i + k)%nat in Hl by lia. exact Hl.
Qed.

Lemma attach_digital_from (l : list Pins) (i : nat) (w : World) (f : FirmataBoard Listener) :
  firmataBoard (this w) = Some f →
  (i + length l ≤ length (pins f))%nat →
  forEach_from l i (λ _ i, (d <- isDigitalPin (index i) ;;
                           if d then fb_digitalRead i emitUpdate_fn else ret tt)%eff) w
  = (Ok tt,
     mkWorld (set_firmataBoard
                (Some (with_listeners
                         (on_digital <$> filter (digital_at (pins f)) (seq i (length l)))
                         (report_all (filter (digital_at (pins f)) (seq i (length l))) f)))
                (this w))
             (loop w)
             (out w ++ stamped (now (loop w))
                         (digitalRead <$> filter (digital_at (pins f)) (seq i (length l))))).
Proof.
  revert i w f. induction l as [|x l IH]; intros i w f Hf Hl.
  - destruct w as [b lp o]. destruct b, f. simpl in *. subst.
    unfold with_listeners, set_firmataBoard, ret. simpl. by rewrite !app_nil_r.
  - cbn [forEach_from]. cbn [length] in Hl.
    destruct (lookup_lt_is_Some_2 (pins f) i) as [p Hp]; [lia|].
    assert (Hat : at_index (pins f) (index i) = Some p) by (by rewrite at_index_index).
    unfold bind at 1. rewrite (bind_ok _ _ _ _ _ (isDigitalPin_at w f _ p Hf Hat)).
    cbn [length seq].
    assert (Hiff : digital_at (pins f) i ↔ digital_pin p).
    { unfold digital_at. rewrite Hp. split; [by intros (q & [= <-] & Hq)|]. by exists p. }
    case_bool_decide as Hd.
    + set (f1 := with_listeners [on_digital i] (report_on i f)).
      set (w1 := mkWorld (set_firmataBoard (Some f1) (this w))
                         (loop w) (out w ++ [(now (loop w), digitalRead i)])).
      assert (E : fb_digitalRead i emitUpdate_fn w = (Ok tt, w1)).
      { unfold fb_digitalRead, tell, update_fb, fb, get_this, update_this, bind, ret. simpl.
        by rewrite Hf. }
      rewrite E.
      assert (Hsame : filter (digital_at (pins f1)) (seq (S i) (length l))
                      = filter (digital_at (pins f)) (seq (S i) (length l))).
      { apply list_filter_iff. intros k.
        apply (digital_at_report_all [i] f k). }
      rewrite (IH (S i) w1 f1 eq_refl).
      * rewrite Hsame. rewrite filter_cons_True by (by apply Hiff).
        unfold f1. rewrite report_all_with_listeners, with_listeners_twice.
        unfold w1, stamped. cbn. by rewrite <- !app_assoc.
      * unfold f1. cbn. rewrite length_alter. lia.
    + unfold ret at 1.
      rewrite (IH (S i) w f Hf) by lia.
      by rewrite filter_cons_False by (by rewrite Hiff).
Qed.

Lemma constructor_with_a_firmata_board
    (name type id : maybe string) (f : FirmataBoard Listener) (l : Loop Callback) :
  constructor name type (Some f) id l
  = (Ok tt,
     mkWorld
       (set_intervals [fresh l]
          (set_firmataBoard
             (Some (with_listeners
                      ((on_analog <$> seq 0 (length (analogPins f)))
                         ++ (on_digital <$> digital_pins (pins f)))
                      (reported f)))
             (set_online true (fields name type id))))
       (mkLoop (now l) (S (fresh l))
               (pending l ++ [mkTimer (fresh l) (now l + heartbeatInterval)
                                      (Some heartbeatInterval) heartbeat_tick]))
       (stamped (now l)
          (setSamplingInterval 1000
             :: (analogRead <$> seq 0 (length (analogPins f)))
             ++ (digitalRead <$> digital_pins (pins f))))).
Proof.
  unfold constructor.
  set (w0 := mkWorld (fields name type id) l []).
  set (w1 := mkWorld (set_firmataBoard (Some f) (set_online true (fields name type id))) l
                     [(now l, setSamplingInterval 1000)]).
  change ((update_this (set_online true) ;;
           update_this (set_firmataBoard (Some f)) ;;
           tell (setSamplingInterval 1000) ;;
           attachAnalogPinListeners ;; attachDigitalPinListeners ;; startHeartbeat)%eff w0)
    with ((attachAnalogPinListeners ;; attachDigitalPinListeners ;; startHeartbeat)%eff w1).
  unfold attachAnalogPinListeners, attachDigitalPinListeners, forEach.
  assert (Ef : ∀ w g, firmataBoard (this w) = Some g → fb w = (Ok g, w)).
  { intros w g Hg. unfold fb, get_this, bind, ret. by rewrite Hg. }
  unfold bind at 1. rewrite (bind_ok _ _ _ _ _ (Ef w1 f eq_refl)).
  rewrite (attach_analog_from _ 0 w1 f eq_refl) by done.
  set (f2 := with_listeners _ (report_all (analogPins f) f)). set (w2 := mkWorld _ _ _).
  unfold bind at 1. rewrite (bind_ok _ _ _ _ _ (Ef w2 f2 eq_refl)).
  rewrite (attach_digital_from (pins f2) 0 w2 f2 eq_refl) by done.
  assert (Hsame : filter (digital_at (pins f2)) (seq 0 (length (pins f2)))
                  = digital_pins (pins f)).
  { unfold digital_pins, f2. cbn [with_listeners pins].
    rewrite length_pins_report_all. apply list_filter_iff. intros k.
    apply digital_at_report_all. }
  rewrite Hsame. unfold f2.
  rewrite report_all_with_listeners, with_listeners_twice.
  assert (Hrep : report_all (digital_pins (pins f)) (report_all (analogPins f) f)
                 = reported f).
  { unfold reported, report_all. by rewrite foldl_app. }
  rewrite Hrep.
  unfold startHeartbeat, global_setInterval, update_this, bind. cbn.
  unfold stamped. by rewrite ?fmap_app.
Qed.

Lemma lookup_reported (f : FirmataBoard Listener) (i : nat) (p : Pins) :
  pins f !! i = Some p →
  pins (reported f) !! i
  = Some (if decide (i ∈ analogPins f ∨ digital_pin p) then with_report p else p).
Proof.
  intros Hp. unfold reported. rewrite lookup_report_all, Hp. cbn. f_equal.
  assert (Hiff : i ∈ analogPins f ++ digital_pins (pins f)
                 ↔ i ∈ analogPins f ∨ digital_pin p).
  { rewrite elem_of_app. unfold digital_pins. rewrite list_elem_of_filter.
    unfold digital_at. rewrite Hp. split.
    - intros [H|[(q & [= <-] & Hq) _]]; [by left|by right].
    - intros [H|H]; [by left|]. right. split; [by exists p|].
      apply elem_of_seq. apply lookup_lt_Some in Hp. lia. }
  destruct (decide (i ∈ analogPins f ∨ digital_pin p)) as [H|H].
  - by rewrite decide_True by (by apply Hiff).
  - by rewrite decide_False by (by rewrite Hiff).
Qed.

(** X11. The constructor without a firmata board leaves the session offline
    with the initial fields, no timer and no output. With a firmata board
    whose analog channels are pins of its pin table (firmata lists them while
    it walks that table), it returns normally: the session is online; the
    sampling interval is set to 1000 ms; [emitUpdate] is registered once for
    every analog channel, in order, and then once for every pin that
    [isDigitalPin] accepts, in order of the pin table, and for no other pin;
    the listeners the firmata board had stay in front; reporting is switched
    on, and noted in the [report] field, for exactly the pins of the analog
    channels and the digital pins, and nothing else in the pin table changes;
    the only timer started is the heartbeat interval, due [heartbeatInterval]
    ms later and listed in [intervals]; no [update] is emitted. *)
Theorem constructor_attaches_the_listeners
    (name type id : maybe string) (f : FirmataBoard Listener) (l : Loop Callback) :
  Forall (λ pin, (pin < length (pins f))%nat) (analogPins f) →
  constructor name type None id l = (Ok tt, mkWorld (fields name type id) l [])
  ∧ online (fields name type id) = false
  ∧ constructor name type (Some f) id l
    = (Ok tt,
       mkWorld
         (set_intervals [fresh l]
            (set_firmataBoard
               (Some (with_listeners
                        ((on_analog <$> seq 0 (length (analogPins f)))
                           ++ (on_digital <$> digital_pins (pins f)))
                        (reported f)))
               (set_online true (fields name type id))))
         (mkLoop (now l) (S (fresh l))
                 (pending l ++ [mkTimer (fresh l) (now l + heartbeatInterval)
                                        (Some heartbeatInterval) heartbeat_tick]))
         (stamped (now l)
            (setSamplingInterval 1000
               :: (analogRead <$> seq 0 (length (analogPins f)))
               ++ (digitalRead <$> digital_pins (pins f)))))
  ∧ (∀ i, i ∈ digital_pins (pins f) ↔ ∃ p, pins f !! i = Some p ∧ digital_pin p)
  ∧ length (pins (reported f)) = length (pins f)
  ∧ (∀ i p, pins f !! i = Some p →
            pins (reported f) !! i
            = Some (if decide (i ∈ analogPins f ∨ digital_pin p)
                    then with_report p else p)).
Proof.
  intros _.
  split; [done|]. split; [done|]. split; [apply constructor_with_a_firmata_board|].
  split; [|split].
  - intros i. unfold digital_pins. rewrite list_elem_of_filter. split.
    + by intros [H _].
    + intros (p & Hp & Hd). split; [by exists p|].
      apply elem_of_seq. apply lookup_lt_Some in Hp. lia.
  - apply length_pins_report_all.
  - apply lookup_reported.
Qed.

(** The session of the worked example: reporting is on for pin 3 (channel 0)
    and for pin 2, the digital LED. *)
Lemma constructor_attaches_the_listeners_witness :
  Board.constructor undefined undefined (Some Sample.wemos) (defined "wemos-1") Node.start
  = (Ok tt, Sample.session)
  ∧ firmataBoard (this Sample.session) = Some Sample.board
  ∧ Sample.outputs (out Sample.session)
    = [setSamplingInterval 1000; analogRead 0; digitalRead 2]
  ∧ pins (reported Sample.wemos)
    = [Sample.unsupported; Sample.unsupported; Sample.led; Sample.a0].
Proof.
  assert (H : Forall (λ pin, (pin < length (pins (@Sample.wemos Listener)))%nat)
                     (analogPins (@Sample.wemos Listener))).
  { apply Forall_cons_2; [simpl; lia|by apply Forall_nil]. }
  destruct (constructor_attaches_the_listeners undefined undefined (defined "wemos-1")
              Sample.wemos Node.start H) as (_ & _ & E & _).
  split; [|vm_compute; repeat split].
  rewrite E. vm_compute. reflexivity.
Defined.

Lemma replies_of_pin_listeners (f : FirmataBoard Listener) (an dg : list nat) :
  replies f = [] →
  replies (with_listeners ((on_analog <$> an) ++ (on_digital <$> dg)) (reported f)) = [].
Proof.
  unfold replies, with_listeners. cbn. unfold reported.
  assert (Hl : ∀ ps g, listeners (report_all ps g) = listeners g).
  { induction ps as [|x ps IH]; intros g; [done|]. apply (IH (report_on x g)). }
  rewrite Hl. intros H. rewrite !filter_app, H. cbn.
  assert (Ha : filter (λ r : Registration Listener, event r = queryfirmware)
                      (on_analog <$> an) = []).
  { induction an as [|a an IH]; [done|].
    rewrite fmap_cons, filter_cons_False by done. exact IH. }
  assert (Hd : filter (λ r : Registration Listener, event r = queryfirmware)
                      (on_digital <$> dg) = []).
  { induction dg as [|a dg IH]; [done|].
    rewrite fmap_cons, filter_cons_False by done. exact IH. }
  by rewrite Ha, Hd.
Qed.

(** X12. A session constructed on a firmata board while no timer is pending
    and nobody waits for a firmware reply is in the state from which the
    heartbeat runs: only the heartbeat interval is pending, due
    [heartbeatInterval] ms after the construction, no deadline is tracked and
    no reply is awaited. *)
Theorem a_constructed_session_is_beating
    (name type id : maybe string) (f : FirmataBoard Listener) (l : Loop Callback) :
  pending l = [] → replies f = [] →
  beating (constructor name type (Some f) id l).2 (fresh l) (now l).
Proof.
  intros Hp Hr. rewrite constructor_with_a_firmata_board. cbn [snd].
  split; cbn.
  - by rewrite Hp.
  - unfold heartbeatInterval. lia.
  - lia.
  - done.
  - eexists. split; [reflexivity|]. by apply replies_of_pin_listeners.
Qed.

Lemma a_constructed_session_is_beating_witness :
  beating (constructor undefined undefined (Some Sample.wemos) (defined "wemos-1")
             Node.start).2
          (fresh (@Node.start Callback)) (now (@Node.start Callback)).
Proof.
  apply (a_constructed_session_is_beating undefined undefined (defined "wemos-1")
           Sample.wemos Node.start).
  - reflexivity.
  - reflexivity.
Defined.
End Construct.

(** ** The earlier revision ([unnamed/part_000]) *)
Section Earlier.
Import Eff Node Board0.

(** X13. In the earlier revision [executeAction] hands the rest-parameter
    array to the handler as its only argument, so SETPINVALUE never receives
    a value: the pin is what [parseInt] reads off the joined array and the
    value is [NaN]. From the default table the call logs, and then: for a pin
    outside the table it throws a [TypeError] with nothing else done; on an
    analog pin it writes [NaN]; on a digital pin it only warns, so that no
    [digitalWrite] is ever made; in each of these cases [update] is emitted
    twice, by [setPinValue] and by [executeAction]. *)
Theorem SETPINVALUE_of_the_earlier_revision_passes_no_value
    (w : World) (parameter : list string) :
  availableActions (this w) = default_actions →
  let pin := parseInt (defined (String.concat "," parameter)) in
  let r := executeAction "SETPINVALUE" parameter w in
  match at_index (pins (firmataBoard (this w))) (defined pin) with
  | None =>
      r.1 = Throw TypeError
      ∧ out r.2 = out w ++ [(now (loop w), log_debug (Executing_method "SETPINVALUE"))]
  | Some p =>
      r.1 = Ok tt
      ∧ out r.2
        = out w
            ++ stamped (now (loop w))
                 (log_debug (Executing_method "SETPINVALUE")
                    :: (if bool_decide (Board.analog_pin p) then [analogWrite pin NaN]
                        else if bool_decide (Board.digital_pin p)
                        then [log_warn (Tried_to_write NaN pin)]
                        else [])
                    ++ [emit update; emit update])
  end.
Proof.
  intros Ha pin r.
  assert (E1 : isAvailableAction "SETPINVALUE" w = (Ok true, w)).
  { unfold isAvailableAction, get_this, bind, ret, getAvailableActions. by rewrite Ha. }
  set (w1 := mkWorld (this w) (loop w)
               (out w ++ [(now (loop w), log_debug (Executing_method "SETPINVALUE"))])).
  assert (E : r = (setPinValue pin NaN ;; tell (emit update))%eff w1).
  { subst r. unfold executeAction.
    rewrite (bind_ok _ _ _ _ _ E1). cbn [negb].
    rewrite (bind_ok _ _ w w tt) by done.
    rewrite (bind_ok _ _ w w1 tt) by done.
    rewrite (bind_ok _ _ w1 w1 (this w)) by done.
    by rewrite Ha. }
  clearbody r pin. subst r. unfold setPinValue.
  destruct (at_index (pins (firmataBoard (this w))) (defined pin)) as [p|] eqn:Hat.
  - assert (E2 : isAnalogPin pin w1 = (Ok (bool_decide (Board.analog_pin p)), w1)).
    { unfold isAnalogPin, fb, get_this, bind, ret.
      change (firmataBoard (this w1)) with (firmataBoard (this w)). by rewrite Hat. }
    assert (E3 : isDigitalPin pin w1 = (Ok (bool_decide (Board.digital_pin p)), w1)).
    { unfold isDigitalPin, fb, get_this, bind, ret.
      change (firmataBoard (this w1)) with (firmataBoard (this w)). rewrite Hat.
      by rewrite digital_test. }
    destruct (bool_decide (Board.analog_pin p)).
    + unfold bind. rewrite E2.
      cbn. unfold stamped. cbn. by rewrite <- !app_assoc.
    + destruct (bool_decide (Board.digital_pin p)).
      * unfold bind. rewrite E2, E3.
        cbn. unfold stamped. cbn. by rewrite <- !app_assoc.
      * unfold bind. rewrite E2, E3.
        cbn. unfold stamped. cbn. by rewrite <- !app_assoc.
  - assert (E2 : isAnalogPin pin w1 = (Throw TypeError, w1)).
    { unfold isAnalogPin, fb, get_this, bind, ret.
      change (firmataBoard (this w1)) with (firmataBoard (this w)). by rewrite Hat. }
    unfold bind. by rewrite E2.
Qed.

(** Asked to set pin 2 (the digital LED) to 1, the earlier revision warns
    that it tried to write [NaN]. *)
Lemma SETPINVALUE_of_the_earlier_revision_passes_no_value_witness :
  (let pin := parseInt (defined (String.concat "," ["2"; "1"])) in
   let r := executeAction "SETPINVALUE" ["2"; "1"] Sample.session0 in
   match at_index (pins (firmataBoard (this Sample.session0))) (defined pin) with
   | None =>
       r.1 = Throw TypeError
       ∧ out r.2 = out Sample.session0
                     ++ [(now (loop Sample.session0),
                          log_debug (Executing_method "SETPINVALUE"))]
   | Some p =>
       r.1 = Ok tt
       ∧ out r.2
         = out Sample.session0
             ++ stamped (now (loop Sample.session0))
                  (log_debug (Executing_method "SETPINVALUE")
                     :: (if bool_decide (Board.analog_pin p) then [analogWrite pin NaN]
                         else if bool_decide (Board.digital_pin p)
                         then [log_warn (Tried_to_write NaN pin)]
                         else [])
                     ++ [emit update; emit update])
   end)
  ∧ Sample.outputs (out (executeAction "SETPINVALUE" ["2"; "1"] Sample.session0).2)
    = Sample.outputs (out Sample.session0)
        ++ [log_debug (Executing_method "SETPINVALUE");
            log_warn (Tried_to_write NaN (Num 2)); emit update; emit update].
Proof.
  split.
  - apply (SETPINVALUE_of_the_earlier_revision_passes_no_value Sample.session0 ["2"; "1"]).
    reflexivity.
  - vm_compute. reflexivity.
Defined.

Lemma clear_each0 (l : list Timeout) (i : nat) (w : World) :
  forEach_from l i (λ t _, global_clear (defined t)) w
  = (Ok tt,
     mkWorld (this w)
       (mkLoop (now (loop w)) (fresh (loop w))
               (filter (λ x, handle x ∉ l) (pending (loop w))))
       (out w)).
Proof.
  revert i w. induction l as [|t l IH]; intros i w.
  - simpl. unfold ret. destruct w as [b [nw fr pd] o]. simpl. repeat f_equal.
    symmetry. induction pd as [|x pd IHpd]; [done|].
    rewrite filter_cons_True by apply not_elem_of_nil. by rewrite IHpd.
  - simpl. unfold bind, global_clear. simpl. rewrite IH. simpl. repeat f_equal.
    rewrite list_filter_filter. apply list_filter_iff. intros x.
    rewrite not_elem_of_cons. tauto.
Qed.

(** X14. [clearAllTimers] of the earlier revision never throws and writes
    nothing: it empties [intervals] and [timeouts], removes from Node's queue
    exactly the timers listed there, and removes every listener from the
    firmata board, those of other parties included. *)
Theorem clearAllTimers_of_the_earlier_revision (w : World) :
  clearAllTimers w
  = (Ok tt,
     mkWorld (set_firmataBoard (removeAllListeners (firmataBoard (this w)))
                (set_timeouts [] (set_intervals [] (this w))))
             (mkLoop (now (loop w)) (fresh (loop w))
                     (filter (λ t, handle t ∉ intervals (this w) ++ timeouts (this w))
                             (pending (loop w))))
             (out w))
  ∧ listeners (firmataBoard (this (clearAllTimers w).2)) = []
  ∧ ((∀ t, t ∈ pending (loop w) → handle t ∈ intervals (this w) ++ timeouts (this w))
     ↔ pending (loop (clearAllTimers w).2) = []).
Proof.
  assert (E : clearAllTimers w
              = (Ok tt,
                 mkWorld (set_firmataBoard (removeAllListeners (firmataBoard (this w)))
                            (set_timeouts [] (set_intervals [] (this w))))
                         (mkLoop (now (loop w)) (fresh (loop w))
                                 (filter (λ t, handle t ∉ intervals (this w)
                                                            ++ timeouts (this w))
                                         (pending (loop w))))
                         (out w))).
  { assert (E1 : clearAllIntervals w
                 = (Ok tt,
                    mkWorld (set_intervals [] (this w))
                      (mkLoop (now (loop w)) (fresh (loop w))
                              (filter (λ x, handle x ∉ intervals (this w))
                                      (pending (loop w))))
                      (out w))).
    { unfold clearAllIntervals, get_this, bind, forEach. by rewrite clear_each0. }
    set (w1 := mkWorld (set_intervals [] (this w)) _ (out w)) in E1.
    assert (E2 : clearAllTimeouts w1
                 = (Ok tt,
                    mkWorld (set_timeouts [] (this w1))
                      (mkLoop (now (loop w1)) (fresh (loop w1))
                              (filter (λ x, handle x ∉ timeouts (this w1))
                                      (pending (loop w1))))
                      (out w1))).
    { unfold clearAllTimeouts, get_this, bind, forEach. by rewrite clear_each0. }
    unfold clearAllTimers. rewrite (bind_ok _ _ _ _ _ E1).
    rewrite (bind_ok _ _ _ _ _ E2).
    unfold update_fb, update_this. cbn. repeat f_equal.
    rewrite list_filter_filter. apply list_filter_iff. intros x.
    rewrite not_elem_of_app. tauto. }
  split; [exact E|]. rewrite E. cbn. split; [done|]. split.
  - intros Htracked.
    destruct (filter (λ t, handle t ∉ intervals (this w) ++ timeouts (this w))
                (pending (loop w))) as [|x rest] eqn:Hx; [done|].
    assert (Hin : x ∈ filter (λ t, handle t ∉ intervals (this w) ++ timeouts (this w))
                        (pending (loop w))) by (rewrite Hx; apply elem_of_cons; by left).
    apply list_elem_of_filter in Hin as [Hn Hin]. by destruct (Hn (Htracked x Hin)).
  - intros Hnil t Ht.
    destruct (decide (handle t ∈ intervals (this w) ++ timeouts (this w))) as [|Hn]; [done|].
    assert (Hin : t ∈ filter (λ t, handle t ∉ intervals (this w) ++ timeouts (this w))
                        (pending (loop w))) by (by apply list_elem_of_filter).
    rewrite Hnil in Hin. by apply elem_of_nil in Hin.
Qed.
End Earlier.

(** ** Connecting: READY in time *)
Section Connected.
Import Eff Node BoardService.
Variable attaches : Class → FirmataBoard Listener → list Event.
Variable id : maybe string.
(** The timer queue of the process when [connectToBoard] is called. *)
Variable l0 : Loop Callback.
Hypothesis idle : pending l0 = [].

Lemma run_listeners_arrows (name : string) (fs : list Listener) (w : World) :
  run_listeners attaches id name fs w
  = run_listeners attaches id name (filter (λ f, is_arrow f = true) fs) w.
Proof.
  revert w. induction fs as [|f fs IH]; intros w; [done|].
  destruct f as [| | | |serial tag].
  1-4: rewrite filter_cons_True by done; cbn [run_listeners]; unfold bind;
       destruct (run_listener attaches id name _ w) as [[[]|x] w1]; [apply IH|done].
  rewrite filter_cons_False by done. cbn [run_listeners]. apply IH.
Qed.

Lemma listening_arrows (e : Event) (ls : list (Registration Listener)) :
  filter (λ f, is_arrow f = true) (listener <$> filter (λ r, event r = e) ls)
  = listener <$> filter (λ r, event r = e) (filter (λ r, is_arrow (listener r) = true) ls).
Proof.
  induction ls as [|r ls IH]; [done|].
  destruct (decide (event r = e)) as [He|He];
    destruct (decide (is_arrow (listener r) = true)) as [Ha|Ha].
  - rewrite (filter_cons_True (λ r, event r = e)) by done.
    rewrite (filter_cons_True (λ r, is_arrow (listener r) = true)) by done.
    cbn [fmap list_fmap]. rewrite filter_cons_True by done.
    rewrite (filter_cons_True (λ r, event r = e)) by done.
    cbn [fmap list_fmap]. by rewrite <- IH.
  - rewrite (filter_cons_True (λ r, event r = e)) by done.
    rewrite (filter_cons_False (λ r, is_arrow (listener r) = true)) by done.
    cbn [fmap list_fmap]. by rewrite filter_cons_False by done.
  - rewrite (filter_cons_False (λ r, event r = e)) by done.
    rewrite (filter_cons_True (λ r, is_arrow (listener r) = true)) by done.
    by rewrite (filter_cons_False (λ r, event r = e)) by done.
  - rewrite (filter_cons_False (λ r, event r = e)) by done.
    by rewrite (filter_cons_False (λ r, is_arrow (listener r) = true)) by done.
Qed.

Lemma deliver_wired (name : string) (e : Event) (w : World) :
  wired w →
  deliver attaches id name e w
  = (update_fb (consume_once e) ;; run_listeners attaches id name (arrow_of e))%eff w.
Proof.
  intros Hw. unfold deliver, get, bind at 1. unfold bind at 2.
  unfold bind at 1. cbn [update_fb].
  rewrite run_listeners_arrows. unfold listening. rewrite listening_arrows.
  unfold wired in Hw. rewrite Hw.
  unfold bind, update_fb. by destruct e.
Qed.

Lemma wired_consume_once (e : Event) (w : World) :
  wired w →
  wired (mkWorld (board w) (consume_once e (firmataBoard w))
                 (connectionTimeout w) (constructed w) (loop w) (out w)).
Proof.
  unfold wired. cbn. intros Hw.
  transitivity (filter (λ r, ¬ (event r = e ∧ once r = true))
                  (filter (λ r, is_arrow (listener r) = true)
                          (listeners (firmataBoard w)))).
  { rewrite !list_filter_filter. apply list_filter_iff. intros r. tauto. }
  rewrite Hw. unfold arrows.
  repeat (rewrite filter_cons_True by (cbn; intros [_ [=]])). done.
Qed.

Lemma no_arrow_of_instance (serial : nat) (es : list Event) :
  filter (λ r : Registration Listener, is_arrow (listener r) = true)
         (imap (λ tag e, mkReg e false (of_instance serial tag)) es) = [].
Proof.
  assert (H : ∀ (g : nat → nat),
             filter (λ r : Registration Listener, is_arrow (listener r) = true)
                    (imap (λ tag e, mkReg e false (of_instance serial (g tag))) es) = []).
  { induction es as [|e es IH]; intros g; [done|].
    cbn [imap]. rewrite filter_cons_False by done. apply (IH (g ∘ S)). }
  apply (H (λ x, x)).
Qed.

Lemma early_step (time : Z) (e : Event) (name : string) (w : World) :
  connecting l0 w → time < now l0 + 10000 → e ≠ ready →
  ∃ w', (drained <- run_until 1 time ;;
         if drained then deliver attaches id name e ;; ret true else ret false)%eff w
        = (Ok true, w')
        ∧ connecting l0 w'
        ∧ (constructed w', board w')
          = identify id [(time, e, name)] (constructed w) (board w).
Proof.
  intros [Hw Hwi Hct] Ht He.
  destruct (run_until_waiting l0 w time Hw Ht) as (w1 & E1 & Hw1).
  rewrite (run_until_early l0 w time Hw Ht) in E1. injection E1 as <-.
  rewrite (bind_ok _ _ _ _ _ (run_until_early l0 w time Hw Ht)).
  set (w1 := mkWorld _ _ _ _ _ _) in *.
  assert (Hwi1 : wired w1) by exact Hwi.
  destruct (deliver_waiting attaches id l0 name e w1 Hw1 He) as (w2 & E2 & Hw2).
  rewrite (bind_ok _ _ _ _ _ E2). exists w2. split; [done|].
  rewrite (deliver_wired name e w1 Hwi1) in E2.
  pose proof (wired_consume_once e w1 Hwi1) as Hwi2.
  unfold bind at 1 in E2. cbn [update_fb] in E2.
  set (w1' := mkWorld _ (consume_once e (firmataBoard w1)) _ _ _ _) in *.
  cbn [identify].
  destruct (decide (e = queryfirmware)) as [->|Hq].
  - cbn [arrow_of run_listeners run_listener] in E2.
    unfold bind, new, set_board, ret in E2. unfold class_of.
    destruct (decide (remove_first_ino name = "MajorTom")); cbn in E2;
      injection E2 as <-; (split; [|done]); (split; [done| |done]);
      unfold wired; cbn; rewrite filter_app, no_arrow_of_instance, app_nil_r;
      exact Hwi2.
  - assert (E : constructed w2 = constructed w ∧ board w2 = board w
                ∧ firmataBoard w2 = firmataBoard w1'
                ∧ connectionTimeout w2 = connectionTimeout w).
    { destruct e; try done; cbn in E2; injection E2 as <-; done. }
    destruct E as (Ec & Eb & Ef & Et).
    split; [|by rewrite Ec, Eb]. split; [done| |congruence].
    unfold wired. rewrite Ef. exact Hwi2.
Qed.

Lemma play_identifies (schedule : list (Z * Event * string)) (w : World) :
  connecting l0 w → Forall (early_from l0) schedule →
  ∃ w', play attaches id schedule w = (Ok true, w')
        ∧ connecting l0 w'
        ∧ (constructed w', board w') = identify id schedule (constructed w) (board w).
Proof.
  revert w. induction schedule as [|[[time e] name] rest IH]; intros w Hw Hs.
  - by exists w.
  - apply Forall_cons in Hs as [[Ht He] Hs]. simpl in Ht, He.
    destruct (early_step time e name w Hw Ht He) as (w1 & E1 & Hw1 & Hi1).
    destruct (IH w1 Hw1 Hs) as (w2 & E2 & Hw2 & Hi2).
    exists w2. split; [|split; [done|]].
    + cbn [play]. unfold bind at 1. unfold bind at 1 in E1.
      destruct (run_until 1 time w) as [[[]|x] w0]; try discriminate E1.
      unfold bind at 1. unfold bind at 1 in E1.
      destruct (deliver attaches id name e w0) as [[[]|x] w0']; [|discriminate E1].
      unfold ret in E1. injection E1 as ->. exact E2.
    + rewrite Hi2. cbn [identify] in Hi1 |- *.
      destruct (decide (e = queryfirmware)); injection Hi1 as -> ->; done.
Qed.

Lemma identify_counts (schedule : list (Z * Event * string)) (n : nat) (b : maybe Instance) :
  (identify id schedule n b).1
  = (n + length (filter (λ x, x.1.2 = queryfirmware) schedule))%nat.
Proof.
  revert n b. induction schedule as [|[[time e] name] rest IH]; intros n b.
  - simpl. lia.
  - cbn [identify]. destruct (decide (e = queryfirmware)) as [He|He].
    + rewrite filter_cons_True by done. rewrite IH. simpl. lia.
    + rewrite filter_cons_False by done. apply IH.
Qed.

Lemma run_listener_settled (name : string) (f : Listener) (w : World) :
  settled w → ∃ w', run_listener attaches id name f w = (Ok tt, w') ∧ settled w'.
Proof.
  intros [Hp Hc].
  destruct w as [b fb ct n [nw fr pd] o]. simpl in *. subst pd.
  destruct f as [| | | |serial tag].
  - simpl. destruct (decide _); eexists; (split; [reflexivity|]); by split.
  - eexists. split; [reflexivity|]. split.
    + cbn. by destruct ct.
    + cbn. unfold connect_callbacks in *. rewrite !omap_app. cbn.
      rewrite app_nil_r. apply Forall_app. split; [done|]. by apply Forall_singleton.
  - eexists. split; [reflexivity|]. split; [done|].
    cbn. unfold connect_callbacks in *. rewrite !omap_app. cbn. by rewrite !app_nil_r.
  - eexists. split; [reflexivity|]. split; [done|].
    cbn. unfold connect_callbacks in *. rewrite !omap_app. cbn. by rewrite !app_nil_r.
  - eexists. split; [reflexivity|]. by split.
Qed.

Lemma run_listeners_settled (name : string) (fs : list Listener) (w : World) :
  settled w → ∃ w', run_listeners attaches id name fs w = (Ok tt, w') ∧ settled w'.
Proof.
  revert w. induction fs as [|f fs IH]; intros w Hw.
  - by exists w.
  - destruct (run_listener_settled name f w Hw) as (w1 & E1 & Hw1).
    destruct (IH w1 Hw1) as (w2 & E2 & Hw2).
    exists w2. split; [|done]. simpl. unfold bind. by rewrite E1.
Qed.

Lemma run_until_settled (w : World) (time : Z) :
  settled w → ∃ w', run_until 1 time w = (Ok true, w') ∧ settled w'.
Proof.
  intros [Hp Hc].
  destruct w as [b f ct n [nw fr pd] o]. simpl in *. subst pd.
  eexists. split; [reflexivity|]. by split.
Qed.

Lemma play_settled (schedule : list (Z * Event * string)) (w : World) :
  settled w → ∃ w', play attaches id schedule w = (Ok true, w') ∧ settled w'.
Proof.
  revert w. induction schedule as [|[[time e] name] rest IH]; intros w Hw.
  - by exists w.
  - destruct (run_until_settled w time Hw) as (w1 & E1 & Hw1).
    assert (Hw1' : settled (mkWorld (board w1) (consume_once e (firmataBoard w1))
                              (connectionTimeout w1) (constructed w1)
                              (loop w1) (out w1))) by exact Hw1.
    destruct (run_listeners_settled name (listening e (firmataBoard w1)) _ Hw1')
      as (w2 & E2 & Hw2).
    destruct (IH w2 Hw2) as (w3 & E3 & Hw3).
    exists w3. split; [|done].
    cbn [play]. unfold bind at 1. rewrite E1. unfold bind at 1.
    unfold deliver, get. unfold bind at 1. unfold bind at 1. cbn [update_fb].
    by rewrite E2.
Qed.

(** X16. [connectToBoard] is called at any time, with no timer of an earlier
    connection pending. When READY arrives before the deadline 10 s later,
    whatever was emitted before: the session [board] holds then ([undefined]
    if the firmware never reported) is added to the model once and passed to
    the connect-callback once, nothing is logged as a warning, and the
    deadline is cancelled. From then on, whatever the firmata board emits and
    however long one waits, the deadline is not pending and the
    connect-callback is never called with [false]. *)
Theorem ready_before_the_deadline
    (before : list (Z * Event * string)) (time : Z) (name : string) :
  Forall (early_from l0) before → time < now l0 + 10000 →
  ∃ w,
    (connectToBoard ;; play attaches id (before ++ [(time, ready, name)]))%eff
      (initial l0)
    = (Ok true, w)
    ∧ board w = (identify id before 0%nat undefined).2
    ∧ added (out w) = [(now (loop w), board w)]
    ∧ connect_callbacks (out w) = [(now (loop w), connected (board w))]
    ∧ warnings (out w) = []
    ∧ is_pending (fresh l0) (loop w) = false
    ∧ ∀ (after : list (Z * Event * string)) (later : Z),
        ∃ w', (play attaches id after ;; run_until 1 later)%eff w = (Ok true, w')
              ∧ is_pending (fresh l0) (loop w') = false
              ∧ Forall (λ x, x.2 ≠ failure) (connect_callbacks (out w')).
Proof.
  intros Hb Ht.
  destruct (connectToBoard_waiting l0 idle) as (w0 & E0 & Hw0 & Hc0 & Hb0).
  destruct (play_identifies before w0 Hw0 Hb) as (w1 & E1 & Hw1 & Hi1).
  rewrite Hc0, Hb0 in Hi1.
  destruct Hw1 as [Hwait Hwired Htimeout].
  pose proof (run_until_early l0 w1 time Hwait Ht) as E2.
  set (w2 := mkWorld _ _ _ _ _ _) in E2.
  assert (Hwi2 : wired w2) by exact Hwired.
  pose proof (deliver_wired name ready w2 Hwi2) as E3.
  destruct Hwait as [Hp Hn Hr Hc Ha Hwn].
  set (w3 := mkWorld (board w1) (consume_once ready (firmataBoard w1))
               (connectionTimeout w1) (constructed w1)
               (mkLoop (Z.max (now (loop w1)) time) (fresh (loop w1)) [])
               (out w1 ++ [(Z.max (now (loop w1)) time, addBoard (board w1));
                           (Z.max (now (loop w1)) time,
                            boardConnectedCallback (connected (board w1)))])).
  assert (E4 : deliver attaches id name ready w2 = (Ok tt, w3)).
  { rewrite E3. unfold bind, update_fb, w2, w3. cbn.
    rewrite Htimeout, Hp. cbn. rewrite decide_False by (intros H; by apply H).
    by rewrite <- app_assoc. }
  assert (Hs3 : settled w3).
  { split; [done|]. unfold w3. cbn. unfold connect_callbacks in *.
    rewrite omap_app, Hc. cbn. by apply Forall_singleton. }
  exists w3. split; [|split; [|split; [|split; [|split; [|split]]]]].
  - rewrite (bind_ok _ _ _ _ _ E0). rewrite (play_app _ _ _ _ _ _ E1).
    cbn [play]. rewrite (bind_ok _ _ _ _ _ E2). by rewrite (bind_ok _ _ _ _ _ E4).
  - cbn. by rewrite <- Hi1.
  - unfold w3. cbn. unfold added in *. rewrite omap_app, Ha. done.
  - unfold w3. cbn. unfold connect_callbacks in *. rewrite omap_app, Hc. done.
  - unfold w3. cbn. unfold warnings in *. rewrite omap_app, Hwn. done.
  - done.
  - intros after later.
    destruct (play_settled after w3 Hs3) as (w4 & E5 & Hs4).
    destruct (run_until_settled w4 later Hs4) as (w5 & E6 & [Hp5 Hc5]).
    exists w5. split; [by rewrite (bind_ok _ _ _ _ _ E5)|]. split; [|done].
    unfold is_pending. by rewrite Hp5.
Qed.

(** X18. With the arrows in place, each [disconnect] and each [close]
    event calls [removeBoard] once, with the session [board] holds at that
    moment, and then the disconnect-callback once, however many listeners the
    sessions have registered. Nothing else changes: the arrows stay
    registered and the connection deadline, if still armed, stays armed. *)
Theorem disconnect_and_close_report_the_board_held
    (name : string) (e : Event) (w : World) :
  wired w → e = disconnect ∨ e = close →
  deliver attaches id name e w
  = (Ok tt,
     mkWorld (board w) (consume_once e (firmataBoard w))
             (connectionTimeout w) (constructed w) (loop w)
             (out w ++ [(now (loop w), removeBoard (board w));
                        (now (loop w), boardDisconnectedCallback)]))
  ∧ wired (deliver attaches id name e w).2.
Proof.
  intros Hw He.
  assert (E : deliver attaches id name e w
              = (Ok tt,
                 mkWorld (board w) (consume_once e (firmataBoard w))
                         (connectionTimeout w) (constructed w) (loop w)
                         (out w ++ [(now (loop w), removeBoard (board w));
                                    (now (loop w), boardDisconnectedCallback)]))).
  { rewrite (deliver_wired name e w Hw).
    destruct He as [-> | ->]; cbn; by rewrite <- app_assoc. }
  split; [exact E|]. rewrite E. exact (wired_consume_once e w Hw).
Qed.
End Connected.

Section Identified.
Import Eff Node BoardService.
Variable attaches : Class → FirmataBoard Listener → list Event.
Variable id : maybe string.

(** X15. While the connection waits for READY, every [queryfirmware] event
    constructs a new session (a firmware reply to a heartbeat included) and
    [board] holds the latest one: a [MajorTom] when the firmware name without
    its first [.ino] is [MajorTom], a [Board] otherwise. With no such event
    [board] stays [undefined]. Other events construct nothing, and nothing is
    added to the model before READY. *)
Theorem every_firmware_report_constructs_a_session (before : list (Z * Event * string)) :
  Forall early before →
  ∃ w,
    (connectToBoard ;; play attaches id before)%eff (initial Node.start) = (Ok true, w)
    ∧ (constructed w, board w) = identify id before 0%nat undefined
    ∧ constructed w = length (filter (λ x, x.1.2 = queryfirmware) before)
    ∧ added (out w) = [].
Proof.
  intros Hb.
  destruct (connectToBoard_waiting Node.start eq_refl) as (w0 & E0 & Hw0 & Hc0 & Hb0).
  destruct (play_identifies attaches id Node.start before w0 Hw0 Hb)
    as (w1 & E1 & Hw1 & Hi1).
  rewrite Hc0, Hb0 in Hi1.
  exists w1. split; [by rewrite (bind_ok _ _ _ _ _ E0)|]. split; [done|]. split.
  - pose proof (identify_counts id before 0 undefined) as Hn.
    rewrite <- Hi1 in Hn. exact Hn.
  - apply (waiting_added Node.start w1). by destruct Hw1.
Qed.
End Identified.

Section ConnectedExamples.
Import Eff.

(** A device that reports its firmware twice before READY. *)
Lemma every_firmware_report_constructs_a_session_witness :
  ∃ w,
    (BoardService.connectToBoard ;;
     BoardService.play (λ _ _, [analog_read 0; digital_read 2]) (defined "10.0.0.7:3030")
       [(120, queryfirmware, "MajorTom.ino"); (400, disconnect, "MajorTom.ino");
        (3000, queryfirmware, "StandardFirmata.ino")])%eff
      (BoardService.initial Node.start)
    = (Ok true, w)
    ∧ (BoardService.constructed w, BoardService.board w)
      = (2%nat,
         defined (BoardService.mkInstance BoardService.Board (defined "10.0.0.7:3030") 1))
    ∧ BoardService.constructed w = 2%nat
    ∧ BoardService.added (BoardService.out w) = [].
Proof.
  apply (every_firmware_report_constructs_a_session
           (λ _ _, [analog_read 0; digital_read 2]) (defined "10.0.0.7:3030")
           [(120, queryfirmware, "MajorTom.ino"); (400, disconnect, "MajorTom.ino");
            (3000, queryfirmware, "StandardFirmata.ino")]).
  repeat apply Forall_cons_2; try apply Forall_nil; split; simpl; lia || discriminate.
Defined.

(** A connection made at 2.5 s in a process that has handed out seven timers
    before: a MajorTom that is ready 900 ms later; its heartbeat replies and a
    late disconnect follow. *)
Lemma ready_before_the_deadline_witness :
  ∃ w,
    (BoardService.connectToBoard ;;
     BoardService.play (λ _ _, [analog_read 0; digital_read 2]) (defined "10.0.0.7:3030")
       ([(2620, queryfirmware, "MajorTom.ino")] ++ [(3400, ready, "MajorTom.ino")]))%eff
      (BoardService.initial (Node.mkLoop 2500 7%nat []))
    = (Ok true, w)
    ∧ BoardService.board w
      = defined (BoardService.mkInstance BoardService.MajorTom (defined "10.0.0.7:3030") 0)
    ∧ BoardService.added (BoardService.out w)
      = [(Node.now (BoardService.loop w), BoardService.board w)]
    ∧ BoardService.connect_callbacks (BoardService.out w)
      = [(Node.now (BoardService.loop w), BoardService.connected (BoardService.board w))]
    ∧ BoardService.warnings (BoardService.out w) = []
    ∧ Node.is_pending 7%nat (BoardService.loop w) = false
    ∧ ∃ w',
        (BoardService.play (λ _ _, [analog_read 0; digital_read 2])
           (defined "10.0.0.7:3030")
           [(6400, queryfirmware, "MajorTom.ino"); (11500, disconnect, "MajorTom.ino")] ;;
         BoardService.run_until 1 22500)%eff w
        = (Ok true, w')
        ∧ Node.is_pending 7%nat (BoardService.loop w') = false
        ∧ Forall (λ x, x.2 ≠ BoardService.failure)
                 (BoardService.connect_callbacks (BoardService.out w')).
Proof.
  destruct (ready_before_the_deadline
              (λ _ _, [analog_read 0; digital_read 2]) (defined "10.0.0.7:3030")
              (Node.mkLoop 2500 7%nat []) eq_refl
              [(2620, queryfirmware, "MajorTom.ino")] 3400 "MajorTom.ino")
    as (w & E & Hb & Ha & Hc & Hw & Hp & Hafter).
  - repeat apply Forall_cons_2; try apply Forall_nil; split; simpl; lia || discriminate.
  - simpl. lia.
  - exists w. split; [exact E|]. split; [exact Hb|]. split; [exact Ha|].
    split; [exact Hc|]. split; [exact Hw|]. split; [exact Hp|].
    apply (Hafter [(6400, queryfirmware, "MajorTom.ino"); (11500, disconnect, "MajorTom.ino")]
                  22500).
Defined.

Lemma disconnect_and_close_report_the_board_held_witness :
  BoardService.deliver (λ _ _, [analog_read 0; digital_read 2]) (defined "10.0.0.7:3030")
    "MajorTom.ino" close (BoardService.connectToBoard (BoardService.initial Node.start)).2
  = (Ok tt,
     BoardService.mkWorld undefined
       (consume_once close
          (BoardService.firmataBoard
             (BoardService.connectToBoard (BoardService.initial Node.start)).2))
       (defined 0%nat) 0%nat
       (BoardService.loop (BoardService.connectToBoard (BoardService.initial Node.start)).2)
       [(0, BoardService.removeBoard undefined); (0, BoardService.boardDisconnectedCallback)])
  ∧ BoardService.wired
      (BoardService.deliver (λ _ _, [analog_read 0; digital_read 2])
         (defined "10.0.0.7:3030") "MajorTom.ino" close
         (BoardService.connectToBoard (BoardService.initial Node.start)).2).2.
Proof.
  apply (disconnect_and_close_report_the_board_held
           (λ _ _, [analog_read 0; digital_read 2]) (defined "10.0.0.7:3030")
           "MajorTom.ino" close
           (BoardService.connectToBoard (BoardService.initial Node.start)).2).
  - reflexivity.
  - by right.
Defined.
End ConnectedExamples.

(** ** The firmware name *)
Section Ino.
Import BoardService.

Lemma substring_all (s : string) : String.substring 0 (String.length s) s = s.
Proof. induction s as [|c s IH]; [done|]. simpl. by rewrite IH. Qed.

Lemma remove_first_ino_dotless (a : string) :
  dotless a = true → remove_first_ino a = a.
Proof.
  induction a as [|c a IH]; [done|]. intros H. cbn [dotless] in H.
  apply andb_true_iff in H as [Hc Ha].
  cbn [remove_first_ino].
  destruct (String.prefix ".ino" (String c a)) eqn:Hp.
  - cbn [String.prefix] in Hp. destruct (ascii_dec "." c) as [<-|]; [done|done].
  - by rewrite IH.
Qed.

Lemma remove_first_ino_here (b : string) :
  remove_first_ino (String.append ".ino" b) = b.
Proof.
  change (String.append ".ino" b)
    with (String "."%char (String "i"%char (String "n"%char (String "o"%char b)))).
  cbn -[String.substring String.length Nat.sub].
  assert (Hp : String.prefix "" b = true) by (by destruct b).
  rewrite Hp. cbn [String.length]. 
  replace (S (S (S (S (String.length b)))) - 4)%nat with (String.length b) by lia.
  cbn [String.substring]. apply substring_all.
Qed.

(** X17. [name.replace('.ino', '')] leaves a name without a full stop as it
    is, and removes the [.ino] that follows a prefix without a full stop,
    keeping whatever comes after it. Such a name selects [MajorTom] exactly
    when what is left is [MajorTom]; every other name selects [Board]. *)
Theorem remove_first_ino_strips_the_extension (a b : string) :
  dotless a = true →
  remove_first_ino a = a
  ∧ remove_first_ino (String.append a (String.append ".ino" b)) = String.append a b
  ∧ (class_of (String.append a (String.append ".ino" b)) = MajorTom
     ↔ String.append a b = "MajorTom").
Proof.
  intros Ha. split; [by apply remove_first_ino_dotless|].
  assert (E : remove_first_ino (String.append a (String.append ".ino" b)) = String.append a b).
  { induction a as [|c a IH]; [apply remove_first_ino_here|].
    cbn [dotless] in Ha. apply andb_true_iff in Ha as [Hc Ha].
    change (String.append (String c a) (String.append ".ino" b))
      with (String c (String.append a (String.append ".ino" b))).
    change (String.append (String c a) b) with (String c (String.append a b)).
    cbn [remove_first_ino].
    destruct (String.prefix ".ino" (String c _)) eqn:Hp.
    - cbn [String.prefix] in Hp. destruct (ascii_dec "." c) as [<-|]; [done|done].
    - by rewrite IH. }
  split; [done|]. unfold class_of. rewrite E.
  destruct (decide (String.append a b = "MajorTom")); split; done.
Qed.

Lemma remove_first_ino_strips_the_extension_witness :
  remove_first_ino "MajorTom" = "MajorTom"
  ∧ remove_first_ino (String.append "MajorTom" (String.append ".ino" ".ino"))
    = String.append "MajorTom" ".ino"
  ∧ (class_of (String.append "MajorTom" (String.append ".ino" ".ino")) = MajorTom
     ↔ String.append "MajorTom" ".ino" = "MajorTom").
Proof.
  apply (remove_first_ino_strips_the_extension "MajorTom" ".ino"). reflexivity.
Defined.
End Ino.

